(* ===== verification/_CoqProject ===== *)
-Q . S2P
Prelude.v
NumpyIndex.v
PyText.v
NumpyPrint.v
Dataset.v
Tree.v
Graphviz.v
Cart.v
CartProps.v
Script.v
Run.v
