(* ===== verification/Prelude.v ===== *)
(** * A verification library for [src/assets/code/decision_tree_example.py]

    The program is one Python script (38 lines).  It imports numpy and
    scikit-learn (lines 5-7), loads the iris dataset bundled with
    scikit-learn (line 8), removes the rows 0, 50
    and 100 from the training set with [np.delete] (lines 11-15), gathers
    them as a test set by numpy fancy indexing (lines 18-19), fits a
    [DecisionTreeClassifier] with default hyper-parameters (lines 22-23),
    prints the true and the predicted test labels (lines 26-27), and
    writes the fitted tree, in graphviz format, to [iris_classifier.txt]
    inside a [with open(...) as f] block (lines 31-36).  Its parts
    interact through the module's global names: each statement reads the
    names earlier statements bound.

    Files, in dependency order:

    - [Prelude] (this file): Python exceptions ([exc]), the result type
      that carries them ([result], with stdpp's monad classes, so that
      [x ← m; k] reads like a sequence of Python statements that may
      raise, and [raise! e] in [py_scope]), [str(int)] as [py_str_int],
      shared list and string lemmas, the [pyrt] hint database and the
      [inv_result] tactic.
    - [NumpyIndex] (Module [NumpyIndex]): index normalisation with
      numpy's [IndexError], [np.delete(a, idx, axis=0)] as a keep mask
      ([keep_mask], [compress], [np_delete]) and fancy indexing [a[idx]]
      ([fancy_index]), generic in the row type; [matrix] (shape kept for
      empty arrays) with [delete_rows] and [take_rows].  Theorems: both
      operations refine a positional specification ([np_delete_spec],
      [fancy_index_spec]); the hold-out partition law for distinct
      in-range indices (C4); its failure for a repeated index (C10); both
      raise the same error, that of the first bad index (C12).
    - [PyText] (Module [PyText]): how [load_iris()] reads its data file.
      The text file in universal-newline mode ([translate_newlines],
      [split_lines]); CPython's [csv.reader] (excel dialect, non-strict)
      as the state machine of [_csv.c] ([cstate], [process],
      [feed_line], [read_lines], [csv_records]) with the field size
      limit; [int()] and [float()] of a field ([py_int], [py_float]: sign,
      whitespace, underscores, exponent, [inf]/[nan]) with [repr] in
      their [ValueError] messages ([py_repr]); [float()] rounds the
      decimal literal to the nearest binary64 float, ties to even, with
      subnormals and overflow to [inf] ([f64_round], as [_Py_dg_strtod]).
      Theorems: records that [csv.writer] writes unquoted read back
      unchanged (C30); the only error the reader can stop with is the
      field-limit error (C34); [int(str(z)) = z] (C37); the float of a
      one-decimal literal of [v] tenths gives back [v] (C38); [f64_round]
      returns a binary64 float within half an ulp of the decimal (C39).
    - [NumpyPrint] (Module [NumpyPrint]): [str] of a one-dimensional
      ndarray as numpy's [array2string] lays it out ([format_elements],
      [array2string], [array_str] for integers), with the summary of
      arrays of more than 1000 elements ([format_array]).  Theorems: an
      array that fits in 74 characters prints on one line (C20); a
      longer-than-1000 array prints its first and last three elements
      around [...] (C35); every printed line is at most 75 characters
      when every element prints in at most 73 (C40).
    - [Dataset] (Module [Dataset]): [load_iris()] as scikit-learn 1.3
      writes it: [load_csv_data] takes [n_samples], [n_features] and the
      class names from the header, allocates [np.empty] arrays (an
      unwritten row is [None]) and, row by row, converts
      [ir[:-1]] and [ir[-1]] and assigns them with numpy's index check
      and broadcast ([fill_rows]), in Python's order of evaluation; then
      the reader's error, if any, is raised.  [bunch_of] reads the arrays
      as the [Bunch] ([load_iris X]) the other files work with, each float
      standing for the number of tenths it was read from ([to_tenths]).
      Theorems: when [iris.csv] holds a 150 x 4 table and the classes,
      [load_iris()] returns [load_iris X] (C29); a header that
      announces more rows than the file has leaves uninitialised rows
      and no error (C31); one that announces fewer raises [IndexError]
      (C32); a blank first line raises [IndexError] (C33); a bad value
      raises its [ValueError] even in a row past [n_samples] (C36).
    - [Tree] (Module [Tree]): the fitted tree ([tree]: split nodes with
      feature, doubled threshold and class counts, leaves with class
      counts; [node_count], [value_of]), [tree_.apply] ([apply]),
      [np.argmax] ([argmax], first maximum, C18), [check_array],
      [_validate_X_predict] and [predict]; and the interface the script
      uses: the class [Estimator] ([est_fit], [est_predict]) with its laws
      [EstimatorLaws].
    - [Graphviz] (Module [Graphviz]): the output of
      [tree.export_graphviz] (lines 32-36), one chunk per
      [out_file.write] call: the feature-name check, the header ([head]),
      node and edge statements in preorder ([recurse], [render]) with the
      [True]/[False] labels of the root's edges, the closing brace
      ([tail]); the node label ([node_to_str]: split test, [gini],
      [samples], [value], [class], with Python's [round], [str] of floats
      and [str.replace] and numpy's [str] of the counts) and fill colour
      ([get_fill_color], [_color_brew], ["%2x"]).  Theorems: the ids of
      the node statements are [0 .. node_count - 1] in order, every other
      node has one incoming edge from a smaller id (C19); node [i] is the
      [i]-th subtree in left-first preorder and every edge joins a split
      node to its left child (the next node, the root's [True] edge) or
      its right child (C25); every node,
      split nodes included, carries a class line (C26); the fill colour
      of a node is a [#rrggbb] code, every channel in [[57, 255]] (C27).
    - [Cart] (Module [Cart]): [DecisionTreeClassifier.fit]:
      [_validate_params], [check_array] on [X] and [y], the label-count
      check, [np.unique] with the inverse ([unique], [encode]), the
      depth-first builder [build] with the [BestSplitter] ([node_split],
      [scan]: sorted feature values, candidate positions between distinct
      values, Gini proxy compared exactly by cross multiplication, strict
      improvement replaces) and the stopping rules ([is_leaf_node],
      [improvement_negative]).  The random feature order of the splitter
      is a parameter [draw] (the order tried at node id [i]).  Theorems:
      the builder terminates and numbers nodes in preorder (C7); every
      split node's counts are the sums of its children's (C6); on
      consistent data the fitted tree predicts every training label (C5);
      predictions are training labels (C8); the errors of [fit] in order
      (C14); the label encoding round trips (C15).  [cart_estimator draw]
      with [cart_estimator_laws]
      discharges the [Estimator] interface.
    - [CartProps] (Module [CartProps]): the splitter against a reference
      search that recounts both sides of every candidate position
      ([best_split_ref]); bounds and shape of the fitted tree.  Theorems:
      [node_split] equals the reference search (C22) and returns the
      first candidate of largest proxy in the drawn order, so that ties
      go to the feature drawn first and the tree depends on [draw]
      (C16); [fit] returns a
      well-formed model ([fitted_wf]: [classes_] strictly increasing,
      one count per class at every node, split features are columns of
      [X]) (C23); a tree fitted on [n] rows has at most [n] leaves,
      [2n - 1] nodes and depth below [n] (C24).
    - [Script] (Module [Script]): the script itself.  The world
      ([world]: standard output, files, open file objects with their
      write buffers, writable paths, installed packages), Python values
      and the module namespace ([pyval], [env], a [gmap] from names), one
      definition per statement ([line5] ... [line27], [export_body] for
      the [with] body; the imports bind [np], [tree] and [load_iris], and
      the later statements look them up), the statement list [script],
      and the machine: [ctl] (before a statement, inside the [with] body,
      at its [__exit__] with a pending exception, finished, raised),
      [step], [run], [reachable].  The classifier is any [Estimator] with
      its laws; [export_graphviz] is a parameter giving the chunks it
      writes and the exception it raises after them, if any.  Theorems:
      no file but [iris_classifier.txt] changes in any reachable
      configuration (C17); no file object is open outside the [with]
      block and none at the end, on every path (C2); every final state is the one of the
      straight-line pipeline Import, Load, Partition, Train, Report,
      Predict, Report, Export (C3); a missing numpy or scikit-learn stops
      the run at its import with [ModuleNotFoundError] (C21); on the iris
      table the run prints [[0 1 2]] and three labels in [{0,1,2}] and
      writes the exporter's text (C1); an unwritable output path gives
      [OSError] after both prints (C11); an empty hold-out set makes
      [predict] raise after printing [[]] (C9); an index out of range
      raises [IndexError] at line 14 (C13).
    - [Run] (Module [Run]): the script run with the CART classifier and
      the exporter of [Graphviz].  Theorem: for any feature order and
      any table of the iris shape the run finishes, and the file it
      leaves closed starts with the graph header and ends with [}]
      (C28).  Also the witnesses of the script's theorems and complete
      runs computed by [vm_compute] on a toy table (the written file has
      one [class = ] line per node).

    Bounds and fuel.  Feature values are integers in tenths of a
    centimetre (every iris measurement has one decimal); a threshold is
    kept doubled ([thr2 = x(p-1) + x(p)]) so that the midpoint test
    [X <= (a+b)/2] is the exact integer test [2 X <= a + b].  The builder
    takes fuel; [length samples + 1] is enough (C7) because each split
    leaves at least one sample on each side.  [max_depth=None] is
    [INT32_MAX] ([N], never unfolded); a tree fitted on [n] rows is less
    than [n] deep (C24), so for fewer than [2^31] rows the bound never
    stops a branch.  Gini comparisons are exact over integers;
    scikit-learn compares float64 values, which agree except at ties
    closer than rounding error.  The impurity test [<= EPSILON] ([2^-52])
    means purity for nodes under [2^26] samples; the improvement test
    [improvement + EPSILON < 0] never holds, since the exact improvement
    is not negative ([improvement_nonneg]).  The script
    machine takes at most four steps per statement ([measure]), so
    [4 * 14 + 1 = 57] fuel ends every run of the fourteen statements
    ([run_final]; [run_script_pipeline] runs it with that fuel).

    The data file holds integers of at most a thousand digits ([small]),
    so every field is within the [131072]-character field limit of
    [csv.reader]; a number of tenths is written with one decimal, the
    form of every iris measurement, and is below [2^48] in magnitude
    ([tenths_ok]): then its float lies within [2^-8] of [v / 10] and
    [to_tenths] recovers [v] (C38).

    Not modelled: the contents of the shipped [iris.csv] (a data file,
    not code: the theorems of [Dataset] quantify over it, and [Script]
    takes the table as a parameter; its line 8 binds [load_iris X],
    which C29 shows [load_iris()] returns for a well-formed file, while
    the loader's errors (C31-C33, C36) are stated of [load_csv_data]
    itself), non-ASCII text, a [MemoryError] of [np.empty], and float
    rounding in the splitter and in the label text (both computed
    exactly on the values in tenths; see [Cart] and [Graphviz]).
    [np.delete] follows numpy 1.19 and later, which build a keep mask
    and raise [IndexError] for an index out of range.  In
    [Script] the exporter is a parameter; [Run] instantiates it with the
    one of [Graphviz].  An import is modelled by whether its package is
    installed, not by what
    importing executes. *)

From stdpp Require Export base list strings pretty gmap.
From Stdlib Require Export ZArith Lia.
From Stdlib Require Import Ascii.

Declare Scope py_scope.
Delimit Scope py_scope with py.
Open Scope py_scope.

(** ** Python exceptions and the result of a statement that may raise *)

Inductive exc : Type :=
| IndexError (msg : string)
| ValueError (msg : string)
| OSError (msg : string)
| NameError (msg : string)
| TypeError (msg : string)
| ImportError (msg : string)
| CsvError (msg : string)
| OverflowError (msg : string)
| StopIteration.

#[export] Instance exc_eq_dec : EqDecision exc.
Proof. solve_decision. Defined.

Inductive result (A : Type) : Type :=
| Ok (a : A)
| Err (e : exc).
Arguments Ok {A} a.
Arguments Err {A} e.

#[export] Instance result_eq_dec {A} `{EqDecision A} : EqDecision (result A).
Proof. solve_decision. Defined.

#[export] Instance result_ret : MRet result := λ A a, Ok a.
#[export] Instance result_bind : MBind result :=
  λ A B f m, match m with Ok a => f a | Err e => Err e end.
#[export] Instance result_fmap : FMap result :=
  λ A B f m, match m with Ok a => Ok (f a) | Err e => Err e end.

(** [raise! e] is Python's [raise e]. *)
Notation "'raise!' e" := (Err e) (at level 10) : py_scope.

(** The double-quote and newline characters (Rocq string literals have
    no escapes for them). *)
Definition dq : string := String (ascii_of_nat 34) EmptyString.
Definition nl : string := String (ascii_of_nat 10) EmptyString.

(** [str(n)] for a Python [int]. *)
Definition py_str_int (z : Z) : string := pretty z.

(** ** Laws of the result monad *)

Section result_laws.
Context {A B : Type}.

Lemma bind_Ok (m : result A) (f : A → result B) (b : B) :
  (m ≫= f) = Ok b ↔ ∃ a, m = Ok a ∧ f a = Ok b.
Proof.
  destruct m as [a|e]; cbn; split.
  - eauto.
  - by intros (? & [= ->] & ?).
  - done.
  - by intros (? & ? & ?).
Qed.



Lemma bind_ret_r (m : result A) : (m ≫= mret) = m.
Proof. by destruct m. Qed.

Lemma mapM_Ok (f : A → result B) (l : list A) (k : list B) :
  mapM f l = Ok k ↔ Forall2 (λ x y, f x = Ok y) l k.
Proof.
  revert k. induction l as [|x l IH]; intros k; simpl.
  - split; [intros [= <-]; constructor | by inversion 1].
  - split.
    + destruct (f x) as [y|e] eqn:Hx; simpl; [|done].
      destruct (mapM f l) as [k'|e] eqn:Hm; simpl; [|done].
      intros [= <-]. constructor; [done|]. by apply IH.
    + inversion 1 as [|? y ? k' Hx Hl]; subst.
      apply IH in Hl. by rewrite Hx, Hl.
Qed.


(** [mapM] stops at the first element that raises. *)
Lemma mapM_app_Err (f : A → result B) (l1 l2 : list A) (k1 : list B) x e :
  mapM f l1 = Ok k1 → f x = Err e → mapM f (l1 ++ x :: l2) = Err e.
Proof.
  revert k1. induction l1 as [|y l1 IH]; intros k1; simpl.
  - intros _ ->. done.
  - destruct (f y); simpl; [|done].
    destruct (mapM f l1) eqn:?; simpl; [|done].
    intros _ Hx. by rewrite (IH _ eq_refl Hx).
Qed.
End result_laws.

(** ** Generic list lemmas shared by the components *)

Section lists.
Context {A : Type}.

(** Number of elements satisfying a Boolean test ([List.filter] is the
    Boolean filter; stdpp's [filter] takes a decidable predicate). *)
Definition count_if (p : A → bool) (l : list A) : nat := length (List.filter p l).

Lemma count_if_app p (l1 l2 : list A) :
  count_if p (l1 ++ l2) = count_if p l1 + count_if p l2.
Proof. unfold count_if. by rewrite List.filter_app, length_app. Qed.

Lemma count_if_le p (l : list A) : count_if p l ≤ length l.
Proof.
  unfold count_if. induction l as [|x l IH]; simpl; [done|].
  destruct (p x); simpl; lia.
Qed.

Lemma count_if_complement p (l : list A) :
  count_if p l + count_if (λ x, negb (p x)) l = length l.
Proof.
  unfold count_if. induction l as [|x l IH]; simpl; [done|].
  destruct (p x); simpl; lia.
Qed.

Lemma Forall_filter_bool (P : A → Prop) (p : A → bool) (l : list A) :
  Forall P l → Forall P (List.filter p l).
Proof.
  rewrite !List.Forall_forall. intros H x Hx%List.filter_In. apply H, Hx.
Qed.

Lemma filter_Forall_id (P : A → Prop) `{∀ x, Decision (P x)} (l : list A) :
  Forall P l → filter P l = l.
Proof.
  induction 1 as [|x l Hx _ IH]; [done|].
  by rewrite filter_cons_True, IH.
Qed.

Lemma Forall_lookup_total `{Inhabited A} (P : A → Prop) (l : list A) k :
  Forall P l → k < length l → P (l !!! k).
Proof.
  intros Hl Hk. eapply Forall_lookup_1; [done|].
  by apply list_lookup_lookup_total_lt.
Qed.

Lemma elem_of_bool_filter (p : A → bool) (l : list A) x :
  x ∈ List.filter p l ↔ x ∈ l ∧ p x = true.
Proof. rewrite !list_elem_of_In. apply List.filter_In. Qed.
End lists.

(** ** Strings *)

Lemma string_app_assoc (s1 s2 s3 : string) : s1 +:+ (s2 +:+ s3) = (s1 +:+ s2) +:+ s3.
Proof. induction s1 as [|a s1 IH]; [done|]. exact (f_equal (String a) IH). Qed.

Lemma string_app_nil_r (s : string) : s +:+ "" = s.
Proof. induction s as [|a s IH]; [done|]. exact (f_equal (String a) IH). Qed.

Lemma string_length_app (s1 s2 : string) :
  String.length (s1 +:+ s2) = String.length s1 + String.length s2.
Proof. induction s1 as [|a s1 IH]; [done|]. exact (f_equal S IH). Qed.

(** [''.join(chunks)]. *)
Lemma string_concat_cons (s : string) (l : list string) :
  String.concat "" (s :: l) = s +:+ String.concat "" l.
Proof. destruct l; simpl; [by rewrite string_app_nil_r|done]. Qed.

Lemma string_concat_app (l1 l2 : list string) :
  String.concat "" (l1 ++ l2) = String.concat "" l1 +:+ String.concat "" l2.
Proof.
  induction l1 as [|s l1 IH]; [done|].
  rewrite <-app_comm_cons, !string_concat_cons, IH. apply string_app_assoc.
Qed.

Lemma string_prefix_app (s1 s2 : string) : String.prefix s1 (s1 +:+ s2) = true.
Proof.
  induction s1 as [|a s1 IH]; [by destruct s2|].
  change (String.prefix (String a s1) (String a (s1 +:+ s2)) = true). simpl.
  destruct (Ascii.ascii_dec a a); [exact IH|done].
Qed.

(** Inversion of equalities between constructors of [result]. *)
Ltac inv_result :=
  repeat match goal with
  | H : Ok _ = Ok _ |- _ => injection H as H; subst
  | H : Err _ = Ok _ |- _ => discriminate H
  | H : Ok _ = Err _ |- _ => discriminate H
  | H : (_ ≫= _) = Ok _ |- _ =>
      let a := fresh "a" in let Ha := fresh "Ha" in
      apply bind_Ok in H as (a & Ha & H)
  end.

Create HintDb pyrt.
Create Rewrite HintDb pyrt.
#[export] Hint Resolve count_if_le Forall_filter_bool : pyrt.
#[export] Hint Rewrite @count_if_app @bind_ret_r : pyrt.
