(* ===== verification/NumpyIndex.v ===== *)
(** * numpy indexing along axis 0: [np.delete] and fancy indexing

    Lines 14-15 of the script compute [np.delete(a, test_idx, axis=0)] and
    lines 18-19 compute [a[test_idx]], for the target vector and for the
    data matrix.  numpy normalises every integer index [i] of an axis of
    length [n]: [-n <= i < 0] means [i + n], [0 <= i < n] means [i], and any
    other index raises [IndexError].  [np.delete] builds a Boolean mask
    [keep] with [keep[obj] = False] and returns [a[keep]]; fancy indexing
    gathers [a[i]] for each [i], in the order of the index list and with
    repetitions.  Both are generic in the row type, so one definition
    serves the vector and the matrix. *)

From S2P Require Import Prelude.

Module NumpyIndex.

Section indexing.
Context {A : Type} `{Inhabited A}.

(** The [IndexError] numpy raises for index [i] on an axis of size [n]. *)
Definition index_error (i : Z) (n : nat) : exc :=
  IndexError ("index " +:+ py_str_int i +:+
              " is out of bounds for axis 0 with size " +:+ py_str_int (Z.of_nat n)).

(** Normalisation of one index. *)
Definition normalize_index (n : nat) (i : Z) : result nat :=
  if bool_decide (- Z.of_nat n ≤ i < Z.of_nat n)%Z
  then Ok (Z.to_nat (if bool_decide (i < 0)%Z then i + Z.of_nat n else i)%Z)
  else raise! (index_error i n).

(** Boolean-mask indexing [a[mask]] for a mask of the same length. *)
Fixpoint compress (mask : list bool) (a : list A) : list A :=
  match mask, a with
  | b :: mask', x :: a' => if b then x :: compress mask' a' else compress mask' a'
  | _, _ => []
  end.

(** [keep = np.ones(n, bool); keep[js] = False]. *)
Definition keep_mask (n : nat) (js : list nat) : list bool :=
  (λ k, bool_decide (k ∉ js)) <$> seq 0 n.

(** [np.delete(a, idx, axis=0)]. *)
Definition np_delete (a : list A) (idx : list Z) : result (list A) :=
  js ← mapM (normalize_index (length a)) idx;
  Ok (compress (keep_mask (length a) js) a).

(** Fancy indexing [a[idx]]. *)
Definition fancy_index (a : list A) (idx : list Z) : result (list A) :=
  mapM (λ i, j ← normalize_index (length a) i; Ok (a !!! j)) idx.

(** The specification of the removal: the elements of [a] at the
    positions outside [js], in their order. *)
Definition remove_positions (js : list nat) (a : list A) : list A :=
  (λ k, a !!! k) <$> filter (λ k, k ∉ js) (seq 0 (length a)).

(** ** Index normalisation *)

Lemma normalize_index_Ok n i j :
  normalize_index n i = Ok j ↔
    (- Z.of_nat n ≤ i < Z.of_nat n)%Z ∧
    Z.of_nat j = (if bool_decide (i < 0)%Z then i + Z.of_nat n else i)%Z.
Proof.
  unfold normalize_index. case_bool_decide as Hr.
  - split.
    + intros [= <-]. split; [done|]. case_bool_decide; lia.
    + intros [_ Hj]. f_equal. case_bool_decide; lia.
  - split; [done|]. by intros [? _].
Qed.

Lemma normalize_index_lt n i j : normalize_index n i = Ok j → j < n.
Proof. intros [? Hj]%normalize_index_Ok. case_bool_decide; lia. Qed.

Lemma normalize_index_Err n i e :
  normalize_index n i = Err e ↔
    ¬ (- Z.of_nat n ≤ i < Z.of_nat n)%Z ∧ e = index_error i n.
Proof.
  unfold normalize_index. case_bool_decide; split; intros; destruct_and?; simplify_eq; naive_solver.
Qed.

Lemma mapM_normalize_lt n idx js :
  mapM (normalize_index n) idx = Ok js → Forall (λ j, j < n) js.
Proof.
  intros Hm%mapM_Ok. induction Hm; constructor; eauto using normalize_index_lt.
Qed.

(** ** Mask indexing and removal of positions *)

Lemma compress_seq (P : nat → Prop) `{∀ k, Decision (P k)} s (a : list A) :
  compress ((λ k, bool_decide (P k)) <$> seq s (length a)) a =
  (λ k, a !!! (k - s)) <$> filter P (seq s (length a)).
Proof.
  revert s. induction a as [|x a IH]; intros s; [done|].
  simpl. rewrite filter_cons, IH.
  assert (Hshift : (λ k, a !!! (k - S s)) <$> filter P (seq (S s) (length a)) =
                   (λ k, (x :: a) !!! (k - s)) <$> filter P (seq (S s) (length a))).
  { apply list_fmap_ext. intros i k [_ Hk%elem_of_seq]%list_elem_of_lookup_2%list_elem_of_filter.
    replace (k - s) with (S (k - S s)) by lia. done. }
  rewrite Hshift. destruct (decide (P s)) as [Hs|Hs].
  - rewrite bool_decide_eq_true_2 by done. simpl. by rewrite Nat.sub_diag.
  - by rewrite bool_decide_eq_false_2 by done.
Qed.

Lemma compress_keep_mask (js : list nat) (a : list A) :
  compress (keep_mask (length a) js) a = remove_positions js a.
Proof.
  unfold keep_mask, remove_positions. rewrite compress_seq.
  apply list_fmap_ext. intros. by rewrite Nat.sub_0_r.
Qed.

Lemma fmap_lookup_total_seq (a : list A) :
  (λ k, a !!! k) <$> seq 0 (length a) = a.
Proof.
  apply list_eq. intros i. rewrite list_lookup_fmap.
  destruct (decide (i < length a)).
  - rewrite lookup_seq_lt by done. simpl.
    by rewrite list_lookup_lookup_total_lt.
  - rewrite lookup_seq_ge, lookup_ge_None_2 by lia. done.
Qed.

(** [np.delete(a, [])] is [a]. *)
Lemma np_delete_nil (a : list A) : np_delete a [] = Ok a.
Proof.
  unfold np_delete. cbn [mapM mret result_ret mbind result_bind].
  rewrite compress_keep_mask. unfold remove_positions. rewrite filter_Forall_id.
  - f_equal. apply fmap_lookup_total_seq.
  - apply Forall_forall. set_solver.
Qed.

(** Fancy indexing is the gather of the normalised positions. *)
Lemma fancy_index_alt (a : list A) idx :
  fancy_index a idx = (λ js, (λ j, a !!! j) <$> js) <$> mapM (normalize_index (length a)) idx.
Proof.
  unfold fancy_index. induction idx as [|i idx IH]; [done|]. simpl.
  destruct (normalize_index (length a) i); [|done]. simpl.
  rewrite IH. by destruct (mapM (normalize_index (length a)) idx).
Qed.

Definition in_range (n : nat) (i : Z) : Prop := (- Z.of_nat n ≤ i < Z.of_nat n)%Z.

(** The normalisation of a list of indices fails exactly at its first
    index outside [-n, n), with that index's [IndexError]. *)
Lemma mapM_normalize_Err n idx e :
  mapM (normalize_index n) idx = Err e ↔
  ∃ l1 i l2, idx = l1 ++ i :: l2 ∧ Forall (in_range n) l1 ∧
             ¬ in_range n i ∧ e = index_error i n.
Proof.
  split.
  - intros He. induction idx as [|i idx IH]; [done|]. simpl in He.
    destruct (normalize_index n i) as [j|e'] eqn:Hi; simpl in He.
    + destruct (mapM (normalize_index n) idx) eqn:Hm; [done|]. simpl in He.
      injection He as ->. destruct (IH eq_refl) as (l1 & i' & l2 & -> & ? & ? & ->).
      exists (i :: l1), i', l2. split; [done|]. split; [|done].
      constructor; [|done]. by apply normalize_index_Ok in Hi as [? _].
    + injection He as ->. apply normalize_index_Err in Hi as [? ->].
      by exists [], i, idx.
  - intros (l1 & i & l2 & -> & Hl1 & Hi & ->).
    assert (∃ js, mapM (normalize_index n) l1 = Ok js) as [js Hjs].
    { induction Hl1 as [|i' l1 Hi' _ [js' Hjs']]; [by exists []|].
      destruct (normalize_index n i') as [j|e'] eqn:E.
      - exists (j :: js'). apply mapM_Ok. constructor; [done|]. by apply mapM_Ok.
      - apply normalize_index_Err in E as [? _]. contradiction. }
    eapply mapM_app_Err; [done|]. by apply normalize_index_Err.
Qed.

(** ** Properties of the partition *)

(** [np.delete] refines the positional specification: its mask
    computation removes exactly the normalised positions. *)
Theorem np_delete_spec (a : list A) idx r :
  np_delete a idx = Ok r ↔
  ∃ js, mapM (normalize_index (length a)) idx = Ok js ∧ r = remove_positions js a.
Proof.
  unfold np_delete. rewrite bind_Ok. setoid_rewrite compress_keep_mask.
  split; intros (js & ? & Hr); exists js; split; [done|by injection Hr| done|by subst].
Qed.

Theorem fancy_index_spec (a : list A) idx t :
  fancy_index a idx = Ok t ↔
  ∃ js, mapM (normalize_index (length a)) idx = Ok js ∧ t = (λ j, a !!! j) <$> js.
Proof.
  rewrite fancy_index_alt. destruct (mapM _ idx) as [js|e]; simpl.
  - split; [intros [= <-]; by exists js|]. by intros (? & [= <-] & ->).
  - split; [done|]. by intros (? & ? & _).
Qed.

Lemma remove_positions_gather_perm (a : list A) (js : list nat) :
  NoDup js → Forall (λ j, j < length a) js →
  remove_positions js a ++ ((λ j, a !!! j) <$> js) ≡ₚ a.
Proof.
  intros Hnd Hlt. unfold remove_positions. rewrite <-fmap_app.
  rewrite <-(fmap_lookup_total_seq a) at 2. f_equiv.
  apply NoDup_Permutation.
  - apply NoDup_app. split; [apply NoDup_filter, NoDup_seq|].
    split; [|done]. intros x [Hx _]%list_elem_of_filter. done.
  - apply NoDup_seq.
  - intros k. rewrite elem_of_app, list_elem_of_filter, elem_of_seq.
    rewrite List.Forall_forall in Hlt. setoid_rewrite <-list_elem_of_In in Hlt.
    split; [intros [[_ ?]|Hk%Hlt]; lia|].
    intros Hk. destruct (decide (k ∈ js)); [by right|]. left. split; [done|lia].
Qed.

Lemma mapM_normalize_nonneg n idx :
  Forall (λ i, 0 ≤ i < Z.of_nat n)%Z idx →
  mapM (normalize_index n) idx = Ok (Z.to_nat <$> idx).
Proof.
  intros Hidx. apply mapM_Ok, Forall2_fmap_r, Forall_Forall2_diag.
  eapply Forall_impl; [done|]. intros i Hi. apply normalize_index_Ok. simpl in Hi.
  idtac. split; [lia|]. rewrite bool_decide_eq_false_2 by lia. lia.
Qed.

Lemma fmap_total_to_nat (a : list A) (idx : list Z) :
  (λ i, a !!! Z.to_nat i) <$> idx = (λ j, a !!! j) <$> (Z.to_nat <$> idx).
Proof. induction idx as [|i idx IH]; simpl; [done|]. f_equal. exact IH. Qed.

(** C4.  Hold-out partition (lines 14-19): for distinct in-range
    indices, [np.delete] and fancy indexing both succeed, the test part
    is the rows at the indices in their order, and the training part
    followed by the test part is a permutation of the input, so the two
    sizes add up to the size of the input. *)
Theorem holdout_partition (a : list A) (idx : list Z) :
  Forall (λ i, 0 ≤ i < Z.of_nat (length a))%Z idx → NoDup idx →
  ∃ tr te, np_delete a idx = Ok tr ∧ fancy_index a idx = Ok te ∧
    te = (λ i, a !!! Z.to_nat i) <$> idx ∧
    tr ++ te ≡ₚ a ∧ length tr + length te = length a.
Proof.
  intros Hidx Hnd. pose proof (mapM_normalize_nonneg _ _ Hidx) as Hm.
  exists (remove_positions (Z.to_nat <$> idx) a), ((λ i, a !!! Z.to_nat i) <$> idx).
  assert (Hperm : remove_positions (Z.to_nat <$> idx) a ++
                  ((λ i, a !!! Z.to_nat i) <$> idx) ≡ₚ a).
  { rewrite fmap_total_to_nat.
    apply remove_positions_gather_perm.
    - apply NoDup_fmap_2_strong; [|done]. intros x y Hx Hy Hxy.
      rewrite List.Forall_forall in Hidx. setoid_rewrite <-list_elem_of_In in Hidx.
      apply Hidx in Hx, Hy. lia.
    - apply Forall_fmap. eapply Forall_impl; [done|]. simpl. lia. }
  split; [apply np_delete_spec; by exists (Z.to_nat <$> idx)|].
  split; [apply fancy_index_spec; exists (Z.to_nat <$> idx); split; [done|]|].
  { apply fmap_total_to_nat. }
  split; [done|]. split; [done|].
  rewrite <-length_app. by apply Permutation_length.
Qed.

(** C10.  A repeated index is removed once by [np.delete] but gathered
    twice by fancy indexing: the sizes no longer add up. *)
Theorem holdout_duplicate_index (x : A) (a : list A) :
  np_delete (x :: a) [0; 0]%Z = Ok a ∧ fancy_index (x :: a) [0; 0]%Z = Ok [x; x].
Proof.
  assert (Hn : mapM (normalize_index (length (x :: a))) [0; 0]%Z = Ok [0; 0]).
  { apply (mapM_normalize_nonneg _ [0; 0]%Z). repeat constructor; simpl; lia. }
  split.
  - apply np_delete_spec. exists [0; 0]. split; [done|].
    unfold remove_positions. cbn [length].
    change (seq 0 (S (length a))) with (0 :: seq 1 (length a)).
    rewrite filter_cons_False by set_solver. rewrite filter_Forall_id.
    + rewrite <-fmap_S_seq, <-list_fmap_compose. symmetry. exact (fmap_lookup_total_seq a).
    + apply Forall_forall. intros k ?%elem_of_seq. set_solver by lia.
  - apply fancy_index_spec. by exists [0; 0].
Qed.

(** C12.  Both operations raise the same [IndexError], the one of the
    first index outside [-n, n). *)
Theorem holdout_index_error (a : list A) idx e :
  (np_delete a idx = Err e ↔ fancy_index a idx = Err e) ∧
  (np_delete a idx = Err e ↔
     ∃ l1 i l2, idx = l1 ++ i :: l2 ∧ Forall (in_range (length a)) l1 ∧
                ¬ in_range (length a) i ∧ e = index_error i (length a)).
Proof.
  rewrite <-mapM_normalize_Err. unfold np_delete. rewrite fancy_index_alt.
  destruct (mapM (normalize_index (length a)) idx); naive_solver.
Qed.
End indexing.

Lemma holdout_partition_witness :
  Forall (λ i, 0 ≤ i < Z.of_nat (length [10; 20; 30; 40]%Z))%Z [0; 2]%Z ∧ NoDup [0; 2]%Z ∧
  ∃ tr te, np_delete [10; 20; 30; 40]%Z [0; 2]%Z = Ok tr ∧
           fancy_index [10; 20; 30; 40]%Z [0; 2]%Z = Ok te ∧
           te = (λ i, [10; 20; 30; 40]%Z !!! Z.to_nat i) <$> [0; 2]%Z ∧
           tr ++ te ≡ₚ [10; 20; 30; 40]%Z ∧ length tr + length te = length [10; 20; 30; 40]%Z.
Proof.
  assert (H1 : Forall (λ i, 0 ≤ i < Z.of_nat (length [10; 20; 30; 40]%Z))%Z [0; 2]%Z)
    by (repeat constructor; simpl; lia).
  assert (H2 : NoDup [0; 2]%Z) by (repeat constructor; set_solver).
  split; [exact H1|]. split; [exact H2|]. exact (holdout_partition _ _ H1 H2).
Defined.

(** ** Two-dimensional integer arrays

    A numpy 2-D array keeps its shape even when it has no rows
    ([iris.data[[]]] has shape (0, 4)), so a matrix is its column count
    together with its rows. *)

Record matrix := mk_matrix { ncols : nat; rows : list (list Z) }.

(** The ndarray invariant: every row has [ncols] entries. *)
Definition matrix_wf (m : matrix) : Prop := Forall (λ r, length r = ncols m) (rows m).

(** [np.delete(m, idx, axis=0)] and [m[idx]] on a matrix. *)
Definition delete_rows (m : matrix) (idx : list Z) : result matrix :=
  rs ← np_delete (rows m) idx; Ok (mk_matrix (ncols m) rs).

Definition take_rows (m : matrix) (idx : list Z) : result matrix :=
  rs ← fancy_index (rows m) idx; Ok (mk_matrix (ncols m) rs).

Lemma delete_rows_wf m idx m' : matrix_wf m → delete_rows m idx = Ok m' → matrix_wf m'.
Proof.
  unfold delete_rows, matrix_wf. intros Hwf (rs & (js & _ & ->)%np_delete_spec & [= <-])%bind_Ok.
  simpl. unfold remove_positions. apply Forall_fmap, Forall_forall.
  intros k [_ Hk%elem_of_seq]%list_elem_of_filter.
  apply (Forall_lookup_total (λ r, length r = _)); [done|lia].
Qed.

Lemma take_rows_wf m idx m' : matrix_wf m → take_rows m idx = Ok m' → matrix_wf m'.
Proof.
  unfold take_rows, matrix_wf. intros Hwf (rs & (js & Hjs & ->)%fancy_index_spec & [= <-])%bind_Ok.
  simpl. apply mapM_normalize_lt in Hjs. apply Forall_fmap.
  eapply Forall_impl; [done|]. intros k Hk.
  by apply (Forall_lookup_total (λ r, length r = _)).
Qed.

End NumpyIndex.
