(* ===== verification/PyText.v ===== *)
(** * Reading a text file with Python's [csv] module

    [load_iris()] (line 8) reads the data file of scikit-learn through
    [csv.reader(open(path, "r", encoding="utf-8"))].  This file models the
    three layers of that read:

    - the text file object in universal-newline mode ([newline=None]):
      ["\r\n"] and a lone ["\r"] are read as ["\n"], and iteration yields
      lines that end with ["\n"] (the last one may not)
      ([translate_newlines], [split_lines]);
    - [csv.reader] with the [excel] dialect (delimiter [','], quote
      character the double quote, [doublequote=True], [skipinitialspace=False],
      [strict=False], no escape character): the state machine of
      CPython's [_csv.c] ([cstate], [process]), fed one character at a
      time and an end-of-line mark after each line ([feed_line]); a
      record is returned when a line leaves the machine in
      [START_RECORD]; at the end of the input a pending quoted field is
      saved and returned ([read_lines]); fields longer than the field
      limit [131072] raise [_csv.Error];
    - [csv_records], which runs the reader over a whole text: the records
      in order and the error raised after them, if any; since records are
      consumed in order, this list and trailing error give the same
      interleaving of records and errors as the lazy iterator.

    - [int()] and [float()] of a field ([py_int], [py_float]), whose
      [ValueError] messages hold the field's [repr] ([py_repr]);
      [float()] scans the literal ([scan_float_body]) and rounds its
      decimal value [M * 10^E] to the nearest IEEE 754 binary64 float,
      ties to even ([f64_round], the result of [_Py_dg_strtod]): the
      binary exponent is [floor(log2)] of the value ([floor_log2]) less
      52, at least [-1074] (subnormals); the mantissa is the value scaled
      by that power of two ([scaled]) and rounded ([round_scaled]); a
      mantissa rounded up to [2^53] is renormalised, and an exponent
      above [971] overflows to [inf].  A float is its sign, mantissa and
      exponent ([pyfloat]).

    Theorems: [int(str(z)) = z] (C37); the float of a one-decimal
    literal of [v] tenths gives back [v] when rounded in tenths, for
    [|v| < 2^48] (C38); [f64_round] returns a binary64 float within half
    a unit in the last place of the decimal (C39); records [csv.writer]
    writes without quotes read back unchanged (C30); the reader can stop
    only with the field-limit error (C34).  Characters are ASCII; NUL is read as an ordinary
    character (Python 3.11 and later). *)

From Stdlib Require Import Ascii.
From S2P Require Import Prelude.

Module PyText.

Definition LF : ascii := ascii_of_nat 10.
Definition CR : ascii := ascii_of_nat 13.
Definition QUOTE : ascii := ascii_of_nat 34.
Definition COMMA : ascii := ascii_of_nat 44.

(** ** The text file object *)

(** Universal newlines: ["\r\n"] and ["\r"] become ["\n"]. *)
Fixpoint translate_newlines (l : list ascii) : list ascii :=
  match l with
  | [] => []
  | c :: l' =>
      if Ascii.eqb c CR then
        LF :: match l' with
              | d :: l'' => if Ascii.eqb d LF then translate_newlines l'' else translate_newlines l'
              | [] => []
              end
      else c :: translate_newlines l'
  end.

(** Iteration over the file: lines with their ["\n"]; [cur] is the
    current line, reversed. *)
Fixpoint split_lines_from (cur : list ascii) (l : list ascii) : list (list ascii) :=
  match l with
  | [] => match cur with [] => [] | _ => [rev cur] end
  | c :: l' =>
      if Ascii.eqb c LF then rev (c :: cur) :: split_lines_from [] l'
      else split_lines_from (c :: cur) l'
  end.

Definition split_lines (l : list ascii) : list (list ascii) := split_lines_from [] l.

(** ** [csv.reader] *)

Inductive cstate := START_RECORD | START_FIELD | IN_FIELD | IN_QUOTED_FIELD | QUOTE_IN_QUOTED_FIELD | EAT_CRNL.

#[export] Instance cstate_eq_dec : EqDecision cstate.
Proof. solve_decision. Defined.

(** A character of the line, or the end-of-line mark [EOL] the reader
    processes after each line. *)
Inductive sym := Chr (c : ascii) | EOL.

(** The reader: its state, the fields of the current record and the
    current field (reversed). *)
Record reader := mk_reader { rstate : cstate; rfields : list string; rfield : list ascii }.

Definition field_limit : N := 131072.

Definition reader_reset : reader := mk_reader START_RECORD [] [].

Definition set_state (st : cstate) (r : reader) : reader := mk_reader st (rfields r) (rfield r).

(** [parse_save_field]. *)
Definition save_field (r : reader) : reader :=
  mk_reader (rstate r) (rfields r ++ [String.string_of_list_ascii (rev (rfield r))]) [].

Definition field_limit_error : exc :=
  CsvError ("field larger than field limit (" +:+ py_str_int (Z.of_N field_limit) +:+ ")").

(** [parse_add_char]: fails when the field has reached the limit. *)
Definition add_char (c : ascii) (r : reader) : result reader :=
  if (field_limit <=? N.of_nat (length (rfield r)))%N then raise! field_limit_error
  else Ok (mk_reader (rstate r) (rfields r) (c :: rfield r)).

Definition is_nl (c : ascii) : bool := Ascii.eqb c LF || Ascii.eqb c CR.

(** The end of a record: [EOL] returns to [START_RECORD], a newline
    character waits for the end of the line. *)
Definition end_record (s : sym) (r : reader) : reader :=
  set_state (match s with EOL => START_RECORD | Chr _ => EAT_CRNL end) (save_field r).

(** The [START_FIELD] case of [parse_process_char]. *)
Definition start_field (s : sym) (r : reader) : result reader :=
  match s with
  | EOL => Ok (end_record EOL r)
  | Chr c =>
      if is_nl c then Ok (end_record s r)
      else if Ascii.eqb c QUOTE then Ok (set_state IN_QUOTED_FIELD r)
      else if Ascii.eqb c COMMA then Ok (save_field r)
      else set_state IN_FIELD <$> add_char c r
  end.

(** [parse_process_char]. *)
Definition process (r : reader) (s : sym) : result reader :=
  match rstate r with
  | START_RECORD =>
      match s with
      | EOL => Ok r
      | Chr c => if is_nl c then Ok (set_state EAT_CRNL r) else start_field s (set_state START_FIELD r)
      end
  | START_FIELD => start_field s r
  | IN_FIELD =>
      match s with
      | EOL => Ok (end_record EOL r)
      | Chr c =>
          if is_nl c then Ok (end_record s r)
          else if Ascii.eqb c COMMA then Ok (set_state START_FIELD (save_field r))
          else add_char c r
      end
  | IN_QUOTED_FIELD =>
      match s with
      | EOL => Ok r
      | Chr c => if Ascii.eqb c QUOTE then Ok (set_state QUOTE_IN_QUOTED_FIELD r) else add_char c r
      end
  | QUOTE_IN_QUOTED_FIELD =>
      match s with
      | EOL => Ok (end_record EOL r)
      | Chr c =>
          if Ascii.eqb c QUOTE then set_state IN_QUOTED_FIELD <$> add_char c r
          else if Ascii.eqb c COMMA then Ok (set_state START_FIELD (save_field r))
          else if is_nl c then Ok (end_record s r)
          else set_state IN_FIELD <$> add_char c r
      end
  | EAT_CRNL =>
      match s with
      | EOL => Ok (set_state START_RECORD r)
      | Chr c =>
          if is_nl c then Ok r
          else raise! (CsvError ("new-line character seen in unquoted field - " +:+
                                 "do you need to open the file with newline=''?"))
      end
  end.

(** The characters of a line, one at a time, up to the first error. *)
Fixpoint feed_chars (r : reader) (cs : list ascii) : result reader :=
  match cs with
  | [] => Ok r
  | c :: cs' => r' ← process r (Chr c); feed_chars r' cs'
  end.

(** One line: its characters, then [EOL]. *)
Definition feed_line (r : reader) (line : list ascii) : result reader :=
  r' ← feed_chars r line; process r' EOL.

(** [Reader_iternext] repeated: a record is complete when a line leaves
    the reader in [START_RECORD]; at the end of the input, a field still
    being read ([field_len != 0]) or an open quoted field is saved and
    returned. *)
Fixpoint read_lines (r : reader) (lines : list (list ascii)) : list (list string) * option exc :=
  match lines with
  | [] =>
      if bool_decide (rfield r ≠ []) || bool_decide (rstate r = IN_QUOTED_FIELD)
      then ([rfields (save_field r)], None) else ([], None)
  | line :: lines' =>
      match feed_line r line with
      | Err e => ([], Some e)
      | Ok r' =>
          if bool_decide (rstate r' = START_RECORD) then
            let '(recs, e) := read_lines reader_reset lines' in (rfields r' :: recs, e)
          else read_lines r' lines'
      end
  end.

(** [list(csv.reader(open(path)))], with the error that stops it. *)
Definition csv_records (text : string) : list (list string) * option exc :=
  read_lines reader_reset (split_lines (translate_newlines (String.list_ascii_of_string text))).

(** ** [repr], [int()] and [float()] of a string *)

Definition BSLASH : ascii := ascii_of_nat 92.
Definition APOS : ascii := ascii_of_nat 39.

Definition hex_char (d : nat) : ascii := ascii_of_nat (if d <? 10 then 48 + d else 87 + d).

(** One character of [repr(s)] with the quote [q]. *)
Definition repr_char (q c : ascii) : list ascii :=
  let n := nat_of_ascii c in
  if Ascii.eqb c q || Ascii.eqb c BSLASH then [BSLASH; c]
  else if n =? 9 then [BSLASH; "t"%char]
  else if n =? 10 then [BSLASH; "n"%char]
  else if n =? 13 then [BSLASH; "r"%char]
  else if (n <? 32) || (n =? 127) then [BSLASH; "x"%char; hex_char (n / 16); hex_char (n mod 16)]
  else [c].

(** [repr(s)] of an ASCII string: single quotes, unless the string holds
    a single quote and no double quote. *)
Definition py_repr (s : string) : string :=
  let l := String.list_ascii_of_string s in
  let q := if existsb (Ascii.eqb APOS) l && negb (existsb (Ascii.eqb QUOTE) l) then QUOTE else APOS in
  String.string_of_list_ascii (q :: mjoin (repr_char q <$> l) ++ [q]).

(** Python's whitespace ([str.isspace]) among ASCII characters. *)
Definition is_space (c : ascii) : bool :=
  let n := nat_of_ascii c in ((9 <=? n) && (n <=? 13)) || ((28 <=? n) && (n <=? 32)).

(** [str.lstrip()]: leading whitespace removed. *)
Fixpoint lstrip (l : list ascii) : list ascii :=
  match l with c :: l' => if is_space c then lstrip l' else l | [] => [] end.

Definition digit_val (c : ascii) : option nat :=
  let n := nat_of_ascii c in if (48 <=? n) && (n <=? 57) then Some (n - 48) else None.

Definition UNDERSCORE : ascii := ascii_of_nat 95.

(** Decimal digits, with single underscores between digits: the value
    accumulated onto [acc], the number of digits read, and the rest. *)
Fixpoint scan_digits (acc : Z) (n : nat) (l : list ascii) : Z * nat * list ascii :=
  match l with
  | [] => (acc, n, [])
  | c :: l' =>
      match digit_val c with
      | Some d => scan_digits (10 * acc + Z.of_nat d)%Z (S n) l'
      | None =>
          if Ascii.eqb c UNDERSCORE && bool_decide (n ≠ 0) then
            match l' with
            | c' :: l'' =>
                match digit_val c' with
                | Some d => scan_digits (10 * acc + Z.of_nat d)%Z (S n) l''
                | None => (acc, n, l)
                end
            | [] => (acc, n, l)
            end
          else (acc, n, l)
      end
  end.

(** An optional sign: [true] for minus. *)
Definition scan_sign (l : list ascii) : bool * list ascii :=
  match l with
  | c :: l' => if Ascii.eqb c "-"%char then (true, l') else if Ascii.eqb c "+"%char then (false, l') else (false, l)
  | [] => (false, l)
  end.

(** [int(s)] (base 10): surrounding whitespace, a sign, digits with
    single underscores between them. *)
Definition py_int (s : string) : result Z :=
  let l := String.list_ascii_of_string s in
  let '(neg, l1) := scan_sign (lstrip l) in
  let '(v, nd, rest) := scan_digits 0 0 l1 in
  if bool_decide (nd ≠ 0) && forallb is_space rest then Ok (if neg then - v else v)%Z
  else raise! (ValueError ("invalid literal for int() with base 10: " +:+ py_repr s)).

(** A Python float (IEEE 754 binary64): the sign and the value
    [m * 2^e] of a finite float, [m] below [2^53] and [e] between [-1074]
    and [971] ([-0.0] is [PFin true 0 (-1074)]), an infinity, or NaN. *)
Inductive pyfloat := PFin (neg : bool) (m e : Z) | PInf (neg : bool) | PNaN.

#[export] Instance pyfloat_eq_dec : EqDecision pyfloat.
Proof. solve_decision. Defined.

(** An unsigned float literal: the decimal [m * 10^e] of its digits and
    exponent, [inf] or [infinity], or [nan]. *)
Inductive literal := LDec (m e : Z) | LInf | LNaN.

Definition lower (c : ascii) : ascii :=
  let n := nat_of_ascii c in if (65 <=? n) && (n <=? 90) then ascii_of_nat (n + 32) else c.

(** A case-insensitive prefix. *)
Fixpoint strip_word (w : list ascii) (l : list ascii) : option (list ascii) :=
  match w, l with
  | [], _ => Some l
  | a :: w', c :: l' => if Ascii.eqb a (lower c) then strip_word w' l' else None
  | _ :: _, [] => None
  end.

(** The exponent of a literal: [e] or [E], a sign, digits; none when
    there is no [e]; [None] when [e] has no digits. *)
Definition scan_exponent (l : list ascii) : option (Z * list ascii) :=
  match l with
  | c :: l' =>
      if Ascii.eqb (lower c) "e"%char then
        let '(neg, l1) := scan_sign l' in
        let '(v, nd, rest) := scan_digits 0 0 l1 in
        if bool_decide (nd = 0) then None else Some ((if neg then - v else v)%Z, rest)
      else Some (0%Z, l)
  | [] => Some (0%Z, l)
  end.

(** The unsigned body of a float literal and what follows it. *)
Definition scan_float_body (l : list ascii) : option (literal * list ascii) :=
  match strip_word (String.list_ascii_of_string "infinity") l with
  | Some rest => Some (LInf, rest)
  | None =>
  match strip_word (String.list_ascii_of_string "inf") l with
  | Some rest => Some (LInf, rest)
  | None =>
  match strip_word (String.list_ascii_of_string "nan") l with
  | Some rest => Some (LNaN, rest)
  | None =>
      let '(ip, ni, r1) := scan_digits 0 0 l in
      let '(m, nf, r2) :=
        match r1 with
        | c :: r => if Ascii.eqb c "."%char then scan_digits ip 0 r else (ip, 0, r1)
        | [] => (ip, 0, r1)
        end in
      if bool_decide (ni + nf = 0) then None else
      match scan_exponent r2 with
      | Some (ex, rest) => Some (LDec m (ex - Z.of_nat nf), rest)
      | None => None
      end
  end end end.

(** Python's [round(x)] ([round(x, 0)]) of the rational [p / q], [q > 0]:
    to the nearest integer, ties to even. *)
Definition round_half_even (p q : Z) : Z :=
  let '(d, r) := Z.div_eucl p q in
  match Z.compare (2 * r) q with
  | Lt => d
  | Gt => d + 1
  | Eq => if Z.even d then d else d + 1
  end%Z.

(** [num / (den * 2^k)] as a fraction [(a, b)]. *)
Definition scaled (num den k : Z) : Z * Z :=
  if (0 <=? k)%Z then (num, den * 2 ^ k)%Z else (num * 2 ^ (- k), den)%Z.

(** [M * 10^E] as a fraction [(num, den)]. *)
Definition decimal_frac (M E : Z) : Z * Z :=
  if (0 <=? E)%Z then (M * 10 ^ E, 1)%Z else (M, 10 ^ (- E))%Z.

(** [floor(log2(num / den))] for [num, den > 0]: [log2 num - log2 den]
    or one less. *)
Definition floor_log2 (num den : Z) : Z :=
  let lg := (Z.log2 num - Z.log2 den)%Z in
  let '(a, b) := scaled num den lg in if (b <=? a)%Z then lg else (lg - 1)%Z.

(** [num / (den * 2^k)] rounded to an integer, ties to even. *)
Definition round_scaled (num den k : Z) : Z :=
  let '(a, b) := scaled num den k in round_half_even a b.

(** The binary64 float nearest the decimal [M * 10^E] ([M >= 0]), ties
    to even, as [dtoa.c]'s [_Py_dg_strtod] computes it: the mantissa [m]
    and exponent [e] of [m * 2^e], or [None] when it overflows.  The
    mantissa has 53 bits ([e = floor(log2(M * 10^E)) - 52]), fewer for a
    subnormal ([e = -1074]); a mantissa rounded up to [2^53] is
    renormalised. *)
Definition f64_round (M E : Z) : option (Z * Z) :=
  if (M =? 0)%Z then Some (0, -1074)%Z else
  let '(num, den) := decimal_frac M E in
  let e2 := Z.max (-1074) (floor_log2 num den - 52) in
  let m := round_scaled num den e2 in
  let '(m', e') := if (m =? 2 ^ 53)%Z then (2 ^ 52, e2 + 1)%Z else (m, e2) in
  if (971 <? e')%Z then None else Some (m', e').

(** The float of a signed literal; a decimal too large is an infinity. *)
Definition float_of_literal (neg : bool) (lit : literal) : pyfloat :=
  match lit with
  | LDec M E => match f64_round M E with Some (m, e) => PFin neg m e | None => PInf neg end
  | LInf => PInf neg
  | LNaN => PNaN
  end.

(** [float(s)], as numpy's cast of a string element to [float64] calls
    it: surrounding whitespace, a sign, a decimal literal with an
    optional exponent or [inf], [infinity], [nan] in any case. *)
Definition py_float (s : string) : result pyfloat :=
  let l := String.list_ascii_of_string s in
  let '(neg, l1) := scan_sign (lstrip l) in
  match scan_float_body l1 with
  | Some (lit, rest) =>
      if forallb is_space rest then Ok (float_of_literal neg lit)
      else raise! (ValueError ("could not convert string to float: " +:+ py_repr s))
  | None => raise! (ValueError ("could not convert string to float: " +:+ py_repr s))
  end.

(** ** Printing numbers: the decimal text of the data file *)

(** A value in tenths, as the data file writes it: [5.1] for [51]. *)
Definition render_tenths (v : Z) : string :=
  (if (v <? 0)%Z then "-" else "") +:+ pretty (Z.abs_N v `div` 10)%N +:+ "." +:+
  String (pretty_N_char (Z.abs_N v `mod` 10)%N) "".

(** The float [float()] reads from [v] tenths written with one decimal. *)
Definition tenths_float (v : Z) : pyfloat := float_of_literal (v <? 0)%Z (LDec (Z.abs v) (-1)).

(** The value in tenths a float stands for: [10 * x] rounded to an
    integer [v], when [x] is the float [float()] reads from [v] written
    with one decimal. *)
Definition to_tenths (x : pyfloat) : option Z :=
  match x with
  | PFin neg m e =>
      let v := round_scaled (10 * m) 1 (- e) in
      let v := if neg then (- v)%Z else v in
      if bool_decide (tenths_float v = x) then Some v else None
  | _ => None
  end.

(** ** Laws of the digit scanner *)

Lemma list_ascii_of_string_app (s1 s2 : string) :
  String.list_ascii_of_string (s1 +:+ s2) = String.list_ascii_of_string s1 ++ String.list_ascii_of_string s2.
Proof. induction s1 as [|a s1 IH]; [done|]. simpl. by rewrite IH. Qed.

Lemma digit_val_pretty_N_char (d : N) :
  (d < 10)%N → digit_val (pretty_N_char d) = Some (N.to_nat d).
Proof.
  intros Hd. assert (d = 0 ∨ d = 1 ∨ d = 2 ∨ d = 3 ∨ d = 4 ∨ d = 5 ∨ d = 6 ∨ d = 7 ∨ d = 8 ∨ d = 9)%N
    as Hcases by lia.
  by repeat destruct Hcases as [->|Hcases]; [..|subst].
Qed.

Lemma scan_digits_digit acc n c d l :
  digit_val c = Some d → scan_digits acc n (c :: l) = scan_digits (10 * acc + Z.of_nat d)%Z (S n) l.
Proof. intros Hc. simpl. by rewrite Hc. Qed.

(** The scanner stops at a character that is neither a digit nor an
    underscore. *)
Lemma scan_digits_stop acc n c l :
  digit_val c = None → Ascii.eqb c UNDERSCORE = false → scan_digits acc n (c :: l) = (acc, n, c :: l).
Proof. intros Hc Hu. simpl. by rewrite Hc, Hu. Qed.

Lemma scan_digits_pretty_N_go x s acc n r :
  ∃ d, ((0 < x)%N → d ≠ 0) ∧
    scan_digits acc n (String.list_ascii_of_string (pretty_N_go x s) ++ r)
    = scan_digits (acc * 10 ^ Z.of_nat d + Z.of_N x)%Z (n + d) (String.list_ascii_of_string s ++ r).
Proof.
  revert s acc n. induction (N.lt_wf_0 x) as [x _ IH]; intros s acc n.
  destruct (decide (x = 0%N)) as [->|Hx].
  { exists 0. rewrite pretty_N_go_0, Nat.add_0_r. split; [lia|]. do 2 f_equal. lia. }
  rewrite pretty_N_go_step by lia.
  destruct (IH (x `div` 10)%N ltac:(apply N.div_lt; lia) (String (pretty_N_char (x `mod` 10)) s) acc n)
    as (d & _ & ->).
  exists (S d). split; [lia|]. simpl.
  rewrite digit_val_pretty_N_char by (apply N.mod_lt; lia).
  replace (n + S d) with (S (n + d)) by lia. f_equal.
  rewrite Nat2Z.inj_succ, Z.pow_succ_r by lia.
  pose proof (N.div_mod x 10 ltac:(lia)). lia.
Qed.

Lemma pretty_N_go_head x s :
  (0 < x)%N → ∃ c l d, String.list_ascii_of_string (pretty_N_go x s) = c :: l ∧ digit_val c = Some d.
Proof.
  revert s. induction (N.lt_wf_0 x) as [x _ IH]; intros s Hx.
  rewrite pretty_N_go_step by lia.
  destruct (decide (x `div` 10 = 0)%N) as [->|Hq].
  - rewrite pretty_N_go_0.
    exists (pretty_N_char (x `mod` 10)%N), (String.list_ascii_of_string s), (N.to_nat (x `mod` 10)).
    split; [done|]. apply digit_val_pretty_N_char, N.mod_lt; lia.
  - apply IH; [apply N.div_lt; lia|]. revert Hq. generalize (x `div` 10)%N. lia.
Qed.

(** [str(x)] of a natural number scans back as [x]: at least one
    digit, starting with a digit. *)
Lemma scan_digits_pretty_N (x : N) acc n r :
  ∃ d c l dv, d ≠ 0 ∧ String.list_ascii_of_string (pretty x) = c :: l ∧ digit_val c = Some dv ∧
    scan_digits acc n (String.list_ascii_of_string (pretty x) ++ r)
    = scan_digits (acc * 10 ^ Z.of_nat d + Z.of_N x)%Z (n + d) r.
Proof.
  unfold pretty, pretty_N. case_decide as Hx.
  - subst. exists 1. eexists _, _, _. split_and!; [done..|]. simpl. do 2 f_equal; lia.
  - destruct (scan_digits_pretty_N_go x "" acc n r) as (d & Hd & Hscan).
    destruct (pretty_N_go_head x "") as (c & l & dv & Hcl & Hc); [lia|].
    exists d, c, l, dv. split_and!; [lia|done..].
Qed.

Ltac leb_cases :=
  repeat match goal with
  | |- context [Nat.leb ?a ?b] => destruct (Nat.leb_spec a b)
  | H : context [Nat.leb ?a ?b] |- _ => destruct (Nat.leb_spec a b)
  end.

(** A digit is not whitespace, not a sign and not a letter. *)
Lemma digit_not_space c d : digit_val c = Some d → is_space c = false.
Proof. unfold digit_val, is_space. leb_cases; simpl; intros; congruence || lia. Qed.

Lemma digit_lower c d : digit_val c = Some d → lower c = c.
Proof. unfold digit_val, lower. leb_cases; simpl; intros; congruence || lia. Qed.

Lemma digit_neq c d a : digit_val c = Some d → digit_val a = None → Ascii.eqb a c = false.
Proof. intros Hc Ha. destruct (Ascii.eqb_spec a c); congruence. Qed.

Lemma scan_sign_digit c l d : digit_val c = Some d → scan_sign (c :: l) = (false, c :: l).
Proof.
  intros Hc. unfold scan_sign.
  by rewrite (Ascii.eqb_sym c), (Ascii.eqb_sym c), (digit_neq c d), (digit_neq c d).
Qed.

Lemma strip_word_digit a w c l d :
  digit_val c = Some d → digit_val a = None → strip_word (a :: w) (c :: l) = None.
Proof. intros Hc Ha. simpl. by rewrite (digit_lower c d), (digit_neq c d a). Qed.

(** The whole of [str(x)] scans as [x]. *)
Lemma scan_digits_pretty_N_all (x : N) :
  ∃ d c l dv, d ≠ 0 ∧ String.list_ascii_of_string (pretty x) = c :: l ∧ digit_val c = Some dv ∧
    scan_digits 0 0 (String.list_ascii_of_string (pretty x)) = (Z.of_N x, d, []).
Proof.
  destruct (scan_digits_pretty_N x 0 0 []) as (d & c & l & dv & Hd & Hcl & Hc & Hscan).
  exists d, c, l, dv. split_and!; [done..|]. rewrite app_nil_r in Hscan. rewrite Hscan. done.
Qed.

(** [int(str(z)) = z]. *)
Lemma py_int_str (z : Z) : py_int (py_str_int z) = Ok z.
Proof.
  unfold py_int, py_str_int, pretty, pretty_Z.
  destruct z as [|p|p]; [done| |].
  - change (pretty p) with (pretty (Npos p)).
    destruct (scan_digits_pretty_N_all (Npos p)) as (d & c & l & dv & Hd & Hcl & Hc & Hscan).
    rewrite Hcl. simpl lstrip. rewrite (digit_not_space c dv Hc), (scan_sign_digit c l dv Hc), <- Hcl, Hscan.
    by rewrite bool_decide_true.
  - change (pretty p) with (pretty (Npos p)).
    destruct (scan_digits_pretty_N_all (Npos p)) as (d & c & l & dv & Hd & Hcl & Hc & Hscan).
    rewrite list_ascii_of_string_app. cbn [String.list_ascii_of_string app].
    change (scan_sign (lstrip ("-"%char :: ?l))) with (true, l). cbv beta iota. rewrite Hscan.
    by rewrite bool_decide_true.
Qed.

(** The unsigned literal [q.m] scans as [10 q + m] tenths. *)
Lemma scan_float_body_tenths (q m : N) :
  (m < 10)%N →
  scan_float_body (String.list_ascii_of_string (pretty q) ++ ["."%char; pretty_N_char m])
    = Some (LDec (10 * Z.of_N q + Z.of_N m) (-1), []).
Proof.
  intros Hm.
  destruct (scan_digits_pretty_N q 0 0 ["."%char; pretty_N_char m]) as (d & c & l & dv & Hd & Hcl & Hc & Hscan).
  unfold scan_float_body. rewrite Hcl in Hscan |- *. cbn [String.list_ascii_of_string app] in Hscan |- *.
  rewrite !(strip_word_digit _ _ c _ dv) by done. rewrite Hscan.
  rewrite scan_digits_stop by done. cbn -[scan_digits].
  rewrite (scan_digits_digit _ _ _ (N.to_nat m)) by (by apply digit_val_pretty_N_char). cbn.
  rewrite bool_decide_false by lia. do 3 f_equal; lia.
Qed.

(** [float(s)] of the text the data file holds for [v] tenths is the
    float of the decimal [v / 10]. *)
Lemma py_float_render_tenths (v : Z) : py_float (render_tenths v) = Ok (tenths_float v).
Proof.
  assert (Hm : (Z.abs_N v `mod` 10 < 10)%N) by (apply N.mod_lt; lia).
  pose proof (N.div_mod (Z.abs_N v) 10 ltac:(lia)) as Hdm.
  destruct (scan_digits_pretty_N_all (Z.abs_N v `div` 10)%N) as (d & c & l & dv & Hd & Hcl & Hc & _).
  assert (Habs : (10 * Z.of_N (Z.abs_N v `div` 10) + Z.of_N (Z.abs_N v `mod` 10))%Z = Z.abs v) by lia.
  unfold py_float, render_tenths, tenths_float.
  rewrite !list_ascii_of_string_app. cbn [String.list_ascii_of_string app].
  destruct (Z.ltb_spec v 0); cbn [String.list_ascii_of_string app].
  - change (scan_sign (lstrip ("-"%char :: ?l))) with (true, l). cbv beta iota.
    by rewrite scan_float_body_tenths, Habs by done.
  - assert (∀ r, lstrip (String.list_ascii_of_string (pretty (Z.abs_N v `div` 10)%N) ++ r)
                  = String.list_ascii_of_string (pretty (Z.abs_N v `div` 10)%N) ++ r) as ->.
    { intros r. rewrite Hcl. simpl. by rewrite (digit_not_space c dv Hc). }
    assert (∀ r, scan_sign (String.list_ascii_of_string (pretty (Z.abs_N v `div` 10)%N) ++ r)
                  = (false, String.list_ascii_of_string (pretty (Z.abs_N v `div` 10)%N) ++ r)) as ->.
    { intros r. rewrite Hcl. apply (scan_sign_digit _ _ dv Hc). }
    cbv beta iota. by rewrite scan_float_body_tenths, Habs by done.
Qed.

(** ** Rounding to binary64 *)

(** [round_half_even a b] is within half of [b] of [a], scaled by [b]. *)
Lemma round_half_even_error a b :
  (0 < b)%Z → (2 * Z.abs (round_half_even a b * b - a) ≤ b)%Z.
Proof.
  intros Hb. unfold round_half_even. pose proof (Z_div_mod a b ltac:(lia)) as Hdm.
  destruct (Z.div_eucl a b) as [q r]. destruct Hdm as [-> Hr].
  destruct (Z.compare_spec (2 * r) b); [destruct (Z.even q)|..]; lia.
Qed.

(** An integer within less than half of [b] of [a] is the rounding. *)
Lemma round_half_even_unique a b q :
  (0 < b)%Z → (2 * Z.abs (q * b - a) < b)%Z → round_half_even a b = q.
Proof.
  intros Hb Hq. pose proof (round_half_even_error a b Hb) as He.
  set (x := round_half_even a b) in *.
  assert (Hlt : (Z.abs ((x - q) * b) < b)%Z) by (rewrite Z.mul_sub_distr_r; lia).
  rewrite Z.abs_mul, (Z.abs_eq b) in Hlt by lia.
  assert (Z.abs (x - q) < 1)%Z by nia. lia.
Qed.

Lemma floor_log2_le num den : (floor_log2 num den ≤ Z.log2 num - Z.log2 den)%Z.
Proof. unfold floor_log2. destruct (scaled _ _ _). case_match; lia. Qed.

Lemma round_scaled_neg num den k :
  (k < 0)%Z → round_scaled num den k = round_half_even (num * 2 ^ (- k)) den.
Proof. intros Hk. unfold round_scaled, scaled. by rewrite (proj2 (Z.leb_gt 0 k)) by lia. Qed.

Lemma round_scaled_nonneg num den k :
  (0 ≤ k)%Z → round_scaled num den k = round_half_even num (den * 2 ^ k).
Proof. intros Hk. unfold round_scaled, scaled. by rewrite (proj2 (Z.leb_le 0 k)) by lia. Qed.

(** A value of fewer than [2^48] tenths gets an exponent of at most [-7]
    and lies within [5 / 2^-e] of [10 m]. *)
Lemma f64_round_tenths M :
  (0 < M < 2 ^ 48)%Z →
  ∃ m e, f64_round M (-1) = Some (m, e) ∧ (e ≤ -7)%Z ∧ (Z.abs (10 * m - M * 2 ^ (- e)) ≤ 5)%Z.
Proof.
  intros HM. unfold f64_round. rewrite (proj2 (Z.eqb_neq M 0)) by lia.
  change (decimal_frac M (-1)) with (M, 10)%Z. cbv beta iota.
  assert (Hl : (floor_log2 M 10 ≤ 44)%Z).
  { pose proof (floor_log2_le M 10). assert (Z.log2 M < 48)%Z by (apply Z.log2_lt_pow2; lia).
    change (Z.log2 10) with 3%Z in *. lia. }
  set (e2 := Z.max (-1074) (floor_log2 M 10 - 52)). assert (He2 : (e2 ≤ -8)%Z) by lia.
  rewrite round_scaled_neg by lia.
  pose proof (round_half_even_error (M * 2 ^ (- e2)) 10 ltac:(lia)) as Herr.
  set (m := round_half_even (M * 2 ^ (- e2)) 10) in *.
  destruct (Z.eqb_spec m (2 ^ 53)) as [Hm|Hm]; cbv beta iota.
  - rewrite (proj2 (Z.ltb_ge 971 (e2 + 1))) by lia. exists (2 ^ 52)%Z, (e2 + 1)%Z. split_and!; [done|lia|].
    replace (- e2)%Z with (Z.succ (- (e2 + 1)))%Z in Herr by lia.
    rewrite Z.pow_succ_r in Herr by lia. rewrite Hm in Herr. change (2 ^ 53)%Z with (2 * 2 ^ 52)%Z in Herr. lia.
  - rewrite (proj2 (Z.ltb_ge 971 e2)) by lia. exists m, e2. split_and!; [done|lia|lia].
Qed.

(** The float of [v] tenths stands for [v]. *)
Lemma to_tenths_tenths_float v : (Z.abs v < 2 ^ 48)%Z → to_tenths (tenths_float v) = Some v.
Proof.
  intros Hv. destruct (Z.eq_dec v 0) as [->|Hv0]; [vm_compute; reflexivity|].
  destruct (f64_round_tenths (Z.abs v)) as (m & e & Hr & He & Herr); [lia|].
  assert (Hx : tenths_float v = PFin (v <? 0)%Z m e) by (unfold tenths_float, float_of_literal; by rewrite Hr).
  assert (Hround : round_scaled (10 * m) 1 (- e) = Z.abs v).
  { rewrite round_scaled_nonneg by lia. apply round_half_even_unique; [lia|].
    assert (2 ^ 7 ≤ 2 ^ (- e))%Z by (apply Z.pow_le_mono_r; lia). lia. }
  rewrite Hx. unfold to_tenths. rewrite Hround.
  assert (Hs : (if (v <? 0)%Z then - Z.abs v else Z.abs v)%Z = v) by (destruct (Z.ltb_spec v 0); lia).
  rewrite Hs, bool_decide_true by exact Hx. done.
Qed.

(** Rounding a value between [lo] and [hi] stays between them. *)
Lemma round_half_even_bounds p d lo hi :
  (0 < d)%Z → (lo * d ≤ p ≤ hi * d)%Z → (lo ≤ round_half_even p d ≤ hi)%Z.
Proof.
  intros Hd Hp. unfold round_half_even. pose proof (Z_div_mod p d ltac:(lia)) as Hdm.
  destruct (Z.div_eucl p d) as [q r]. destruct Hdm as [-> Hr].
  assert (lo ≤ q)%Z by nia. assert (q ≤ hi)%Z by nia.
  destruct (Z.compare_spec (2 * r) d); [destruct (Z.even q)|..]; try lia.
  all: assert (q < hi)%Z by nia; lia.
Qed.

Lemma scaled_pos num den k : (0 ≤ num)%Z → (0 < den)%Z →
  (0 ≤ (scaled num den k).1)%Z ∧ (0 < (scaled num den k).2)%Z.
Proof.
  intros. unfold scaled. destruct (Z.leb_spec 0 k); cbn [fst snd].
  - assert (0 < 2 ^ k)%Z by (apply Z.pow_pos_nonneg; lia). split; nia.
  - assert (0 < 2 ^ (- k))%Z by (apply Z.pow_pos_nonneg; lia). split; nia.
Qed.

(** The value at [k - j] is [2^j] times the value at [k]. *)
Lemma scaled_shift num den k j :
  (0 ≤ j)%Z →
  ((scaled num den (k - j)).1 * (scaled num den k).2 =
     2 ^ j * (scaled num den k).1 * (scaled num den (k - j)).2)%Z.
Proof.
  intros Hj. unfold scaled.
  destruct (Z.leb_spec 0 (k - j)), (Z.leb_spec 0 k); cbn [fst snd]; try lia.
  - replace k with (k - j + j)%Z at 1 by lia. rewrite Z.pow_add_r by lia. ring.
  - replace j with (- (k - j) + k)%Z at 2 by lia. rewrite Z.pow_add_r by lia. ring.
  - replace (- (k - j))%Z with (j + - k)%Z by lia. rewrite Z.pow_add_r by lia. ring.
Qed.

Lemma decimal_frac_pos M E : (0 < M)%Z → (0 < (decimal_frac M E).1)%Z ∧ (0 < (decimal_frac M E).2)%Z.
Proof.
  intros. unfold decimal_frac. destruct (Z.leb_spec 0 E); cbn [fst snd].
  - split; [apply Z.mul_pos_pos; [lia|apply Z.pow_pos_nonneg; lia]|lia].
  - split; [lia|apply Z.pow_pos_nonneg; lia].
Qed.

(** [floor_log2] is the floor of the binary logarithm: the value at it
    lies in [[1, 2)]. *)
Lemma floor_log2_spec num den :
  (0 < num)%Z → (0 < den)%Z →
  let '(a, b) := scaled num den (floor_log2 num den) in (b ≤ a < 2 * b)%Z.
Proof.
  intros Hn Hd. destruct (Z.log2_spec num Hn) as [Ln Un]. destruct (Z.log2_spec den Hd) as [Ld Ud].
  set (lg := (Z.log2 num - Z.log2 den)%Z).
  (* the value at [lg] lies in (1/2, 2) *)
  assert (Hlg : ((scaled num den lg).2 < 2 * (scaled num den lg).1 ∧
                 (scaled num den lg).1 < 2 * (scaled num den lg).2)%Z).
  { unfold scaled, lg. destruct (Z.leb_spec 0 (Z.log2 num - Z.log2 den)); cbn [fst snd].
    - assert (E : (2 ^ Z.log2 num = 2 ^ (Z.log2 num - Z.log2 den) * 2 ^ Z.log2 den)%Z)
        by (rewrite <-Z.pow_add_r by (pose proof (Z.log2_nonneg den); lia); f_equal; lia).
      rewrite Z.pow_succ_r in Un, Ud by apply Z.log2_nonneg. nia.
    - assert (E : (2 ^ Z.log2 den = 2 ^ (- (Z.log2 num - Z.log2 den)) * 2 ^ Z.log2 num)%Z)
        by (rewrite <-Z.pow_add_r by (pose proof (Z.log2_nonneg num); lia); f_equal; lia).
      rewrite Z.pow_succ_r in Un, Ud by apply Z.log2_nonneg. nia. }
  unfold floor_log2. fold lg. destruct (scaled num den lg) as [a b] eqn:Hs. cbn [fst snd] in Hlg.
  destruct (Z.leb_spec b a); [rewrite Hs; lia|].
  pose proof (scaled_shift num den lg 1 ltac:(lia)) as Hsh. rewrite Hs in Hsh. cbn [fst snd] in Hsh.
  destruct (scaled num den (lg - 1)) as [a' b'] eqn:Hs'. cbn [fst snd] in Hsh.
  pose proof (scaled_pos num den (lg - 1) ltac:(lia) Hd) as [_ Hb']. rewrite Hs' in Hb'. cbn [snd] in Hb'.
  change (2 ^ 1)%Z with 2%Z in Hsh. nia.
Qed.

(** At the exponent [f64_round] picks, the value lies in [[2^52, 2^53)],
    or below [2^52] at the subnormal exponent [-1074]. *)
Lemma scaled_at_exponent num den :
  (0 < num)%Z → (0 < den)%Z →
  let e2 := Z.max (-1074) (floor_log2 num den - 52) in
  let '(a, b) := scaled num den e2 in
  (0 < b)%Z ∧ (0 ≤ a)%Z ∧ ((2 ^ 52 * b ≤ a < 2 ^ 53 * b)%Z ∨ e2 = (-1074)%Z ∧ (a < 2 ^ 52 * b)%Z).
Proof.
  intros Hn Hd e2. pose proof (floor_log2_spec num den Hn Hd) as Hfl.
  set (fl2 := floor_log2 num den) in *.
  destruct (scaled num den fl2) as [a0 b0] eqn:H0. destruct Hfl as [Lo Up].
  pose proof (scaled_pos num den fl2 ltac:(lia) Hd) as [_ Hb0]. rewrite H0 in Hb0. cbn [snd] in Hb0.
  pose proof (scaled_pos num den e2 ltac:(lia) Hd) as [Ha Hb].
  destruct (scaled num den e2) as [a b] eqn:H2. cbn [fst snd] in Ha, Hb. split_and!; [done|done|].
  destruct (Z.leb_spec (-1074) (fl2 - 52)) as [Hnorm|Hsub].
  - left. pose proof (scaled_shift num den fl2 52 ltac:(lia)) as Hsh.
    replace (fl2 - 52)%Z with e2 in Hsh by lia. rewrite H0, H2 in Hsh. cbn [fst snd] in Hsh.
    change (2 ^ 53)%Z with (2 * 2 ^ 52)%Z. split; nia.
  - right. split; [lia|]. destruct (Z.leb_spec 0 (fl2 - e2)) as [Hj|Hj].
    + pose proof (scaled_shift num den fl2 (fl2 - e2) Hj) as Hsh.
      replace (fl2 - (fl2 - e2))%Z with e2 in Hsh by lia. rewrite H0, H2 in Hsh. cbn [fst snd] in Hsh.
      assert (2 ^ (fl2 - e2 + 1) ≤ 2 ^ 52)%Z by (apply Z.pow_le_mono_r; lia).
      rewrite Z.pow_add_r in * by lia. change (2 ^ 1)%Z with 2%Z in *.
      assert (0 < 2 ^ (fl2 - e2))%Z by (apply Z.pow_pos_nonneg; lia).
      set (P := (2 ^ (fl2 - e2))%Z) in *. set (Q := (2 ^ 52)%Z) in *.
      assert (Hlt1 : (P * a0 * b < P * (2 * b0) * b)%Z) by (apply Z.mul_lt_mono_pos_r; nia).
      assert (Hlt2 : (P * (2 * b0) * b ≤ Q * b0 * b)%Z) by nia.
      apply (Z.mul_lt_mono_pos_r b0); [done|]. nia.
    + pose proof (scaled_shift num den e2 (e2 - fl2) ltac:(lia)) as Hsh.
      replace (e2 - (e2 - fl2))%Z with fl2 in Hsh by lia. rewrite H0, H2 in Hsh. cbn [fst snd] in Hsh.
      assert (0 < 2 ^ (e2 - fl2))%Z by (apply Z.pow_pos_nonneg; lia).
      set (P := (2 ^ (e2 - fl2))%Z) in *.
      assert (Hlt1 : (a * b0 ≤ P * a * b0)%Z) by nia.
      assert (Hlt2 : (a0 * b < 2 * b0 * b)%Z) by nia.
      assert (a < 2 * b)%Z by (apply (Z.mul_lt_mono_pos_r b0); [done|]; nia). lia.
Qed.

(** A mantissa rounded up to [2^53] at [e2] is [2^52] at [e2 + 1], as
    close to the value. *)
Lemma renormalise_error num den e2 :
  (0 < num)%Z → (0 < den)%Z →
  (2 * Z.abs (2 ^ 53 * (scaled num den e2).2 - (scaled num den e2).1) ≤ (scaled num den e2).2)%Z →
  (2 * Z.abs (2 ^ 52 * (scaled num den (e2 + 1)).2 - (scaled num den (e2 + 1)).1) ≤ (scaled num den (e2 + 1)).2)%Z.
Proof.
  intros Hn Hd. pose proof (scaled_shift num den (e2 + 1) 1 ltac:(lia)) as Hsh.
  replace (e2 + 1 - 1)%Z with e2 in Hsh by lia.
  pose proof (scaled_pos num den e2 ltac:(lia) Hd) as [_ Hb].
  pose proof (scaled_pos num den (e2 + 1) ltac:(lia) Hd) as [_ Hb1].
  destruct (scaled num den e2) as [a b], (scaled num den (e2 + 1)) as [a1 b1]. cbn [fst snd] in *.
  intros Herr. change (2 ^ 1)%Z with 2%Z in Hsh.
  assert (HY : ((2 ^ 53 * b - a) * b1 = 2 * b * (2 ^ 52 * b1 - a1))%Z).
  { change (2 ^ 53)%Z with (2 * 2 ^ 52)%Z. lia. }
  apply (f_equal Z.abs) in HY. rewrite !Z.abs_mul, (Z.abs_eq b1), (Z.abs_eq 2), (Z.abs_eq b) in HY by lia.
  nia.
Qed.

(** ** Reading back what [csv.writer] writes *)

(** A character [csv.writer] (quoting [QUOTE_MINIMAL]) writes without
    quoting the field: not the delimiter, the quote or a line end. *)
Definition plain_char (c : ascii) : bool :=
  negb (Ascii.eqb c COMMA || Ascii.eqb c QUOTE || is_nl c).

Definition plain_field (f : string) : Prop :=
  Forall (λ c, plain_char c = true) (String.list_ascii_of_string f) ∧
  (N.of_nat (length (String.list_ascii_of_string f)) ≤ field_limit)%N.

(** [writer.writerow(fs)] for unquoted fields, without the line end. *)
Fixpoint csv_line (fs : list string) : list ascii :=
  match fs with
  | [] => []
  | f :: fs' => String.list_ascii_of_string f ++ match fs' with [] => [] | _ => COMMA :: csv_line fs' end
  end.

(** The text of a file of records, each line ended by [eol]. *)
Definition render_csv (eol : list ascii) (recs : list (list string)) : string :=
  String.string_of_list_ascii (mjoin ((λ r, csv_line r ++ eol) <$> recs)).

Lemma plain_char_spec c :
  plain_char c = true → Ascii.eqb c COMMA = false ∧ Ascii.eqb c QUOTE = false ∧ is_nl c = false.
Proof. unfold plain_char. by destruct (Ascii.eqb c COMMA), (Ascii.eqb c QUOTE), (is_nl c). Qed.

Lemma feed_chars_app r l1 l2 : feed_chars r (l1 ++ l2) = feed_chars r l1 ≫= λ r', feed_chars r' l2.
Proof.
  revert r. induction l1 as [|c l1 IH]; intros r; [done|]. simpl.
  destruct (process r (Chr c)); [apply IH|done].
Qed.

(** Plain characters inside a field are appended to it. *)
Lemma feed_chars_in_field fs acc cs :
  Forall (λ c, plain_char c = true) cs → (N.of_nat (length acc + length cs) ≤ field_limit)%N →
  feed_chars (mk_reader IN_FIELD fs acc) cs = Ok (mk_reader IN_FIELD fs (rev cs ++ acc)).
Proof.
  revert acc. induction cs as [|c cs IH]; intros acc Hp Hlen; [done|].
  apply Forall_cons in Hp as [(Hcm & _ & Hnl)%plain_char_spec Hp].
  cbn [feed_chars process rstate]. rewrite Hnl, Hcm.
  unfold add_char. cbn [rfield rstate rfields]. rewrite (proj2 (N.leb_gt _ _)) by (simpl in Hlen; lia).
  cbn [mbind result_bind]. rewrite IH by (done || simpl in *; lia). cbn [rev]. by rewrite <- app_assoc.
Qed.

(** The state the reader is in after the characters of a field. *)
Definition fld_state (f : string) : cstate :=
  match f with EmptyString => START_FIELD | _ => IN_FIELD end.

Lemma feed_chars_field fs f :
  plain_field f →
  feed_chars (mk_reader START_FIELD fs []) (String.list_ascii_of_string f)
  = Ok (mk_reader (fld_state f) fs (rev (String.list_ascii_of_string f))).
Proof.
  destruct f as [|c f]; [done|]. intros [Hp Hlen].
  cbn [String.list_ascii_of_string] in Hp, Hlen |- *.
  apply Forall_cons in Hp as [(Hcm & Hq & Hnl)%plain_char_spec Hp].
  cbn [feed_chars process rstate start_field]. rewrite Hnl, Hq, Hcm.
  unfold add_char. cbn [rfield rstate rfields length]. rewrite (proj2 (N.leb_gt _ _)) by done.
  cbn [mbind result_bind fmap result_fmap set_state rstate rfields rfield].
  unfold set_state; cbn [rfields rfield].
  rewrite feed_chars_in_field by (done || simpl in Hlen; lia). done.
Qed.

Lemma save_field_rev st fs f :
  save_field (mk_reader st fs (rev (String.list_ascii_of_string f))) = mk_reader st (fs ++ [f]) [].
Proof. unfold save_field. simpl. by rewrite rev_involutive, String.string_of_list_ascii_of_string. Qed.

(** After a field, the delimiter saves it and starts the next one. *)
Lemma process_comma_after_field fs f :
  process (mk_reader (fld_state f) fs (rev (String.list_ascii_of_string f))) (Chr COMMA)
  = Ok (mk_reader START_FIELD (fs ++ [f]) []).
Proof.
  destruct f as [|c f]; cbn [fld_state process rstate start_field]; unfold end_record;
    rewrite !save_field_rev; reflexivity.
Qed.

(** After a field, a newline saves it and ends the record. *)
Lemma process_lf_after_field fs f :
  process (mk_reader (fld_state f) fs (rev (String.list_ascii_of_string f))) (Chr LF)
  = Ok (mk_reader EAT_CRNL (fs ++ [f]) []).
Proof.
  destruct f as [|c f]; cbn [fld_state process rstate start_field]; unfold end_record;
    rewrite !save_field_rev; reflexivity.
Qed.

Lemma feed_chars_record fs0 f fs :
  Forall plain_field (f :: fs) →
  feed_chars (mk_reader START_FIELD fs0 []) (csv_line (f :: fs) ++ [LF])
  = Ok (mk_reader EAT_CRNL (fs0 ++ f :: fs) []).
Proof.
  revert fs0 f. induction fs as [|g fs IH]; intros fs0 f Hp; apply Forall_cons in Hp as [Hf Hp].
  - cbn [csv_line]. rewrite app_nil_r, feed_chars_app, feed_chars_field by done.
    cbn [mbind result_bind feed_chars]. by rewrite process_lf_after_field.
  - change (csv_line (f :: g :: fs)) with (String.list_ascii_of_string f ++ COMMA :: csv_line (g :: fs)).
    rewrite <- app_assoc, feed_chars_app, feed_chars_field by done.
    cbn [mbind result_bind feed_chars app]. rewrite process_comma_after_field.
    cbn [mbind result_bind]. rewrite IH by done. by rewrite <- app_assoc.
Qed.

(** A written line holds no line-end character. *)
Lemma csv_line_no_nl fs :
  Forall plain_field fs → Forall (λ c, is_nl c = false) (csv_line fs).
Proof.
  induction fs as [|f fs IH]; intros Hp; [constructor|]. apply Forall_cons in Hp as [[Hf _] Hp].
  cbn [csv_line]. apply Forall_app. split.
  - eapply Forall_impl; [done|]. intros c Hc. apply plain_char_spec in Hc. tauto.
  - destruct fs; [done|]. constructor; [done|]. by apply IH.
Qed.

Lemma csv_line_nil fs : csv_line fs = [] → fs = [] ∨ fs = [""].
Proof.
  destruct fs as [|f [|g fs]]; cbn [csv_line]; [auto| |].
  - rewrite app_nil_r. destruct f; [auto|done].
  - intros []%app_eq_nil. done.
Qed.

(** A line that starts with an ordinary character starts a field. *)
Lemma feed_chars_reset c l :
  is_nl c = false →
  feed_chars reader_reset (c :: l) = feed_chars (mk_reader START_FIELD [] []) (c :: l).
Proof. intros Hc. cbn [feed_chars process rstate reader_reset]. by rewrite Hc. Qed.

(** The line [csv.writer] writes for a record is read back as that
    record; [[""]] is the one record written as an empty line, which the
    reader reads as [[]] (the writer quotes it for that reason). *)
Lemma feed_line_record fs :
  Forall plain_field fs → fs ≠ [""] →
  feed_line reader_reset (csv_line fs ++ [LF]) = Ok (mk_reader START_RECORD fs []).
Proof.
  intros Hp Hne. unfold feed_line.
  destruct fs as [|f fs]; [done|].
  pose proof (csv_line_no_nl _ Hp) as Hnl.
  destruct (csv_line (f :: fs)) as [|c l] eqn:E.
  { by destruct (csv_line_nil _ E). }
  rewrite <- app_comm_cons, feed_chars_reset by (by apply Forall_cons in Hnl as [??]).
  rewrite app_comm_cons, <- E, feed_chars_record by done. done.
Qed.

Lemma read_lines_render recs :
  Forall (λ r, Forall plain_field r ∧ r ≠ [""]) recs →
  read_lines reader_reset ((λ r, csv_line r ++ [LF]) <$> recs) = (recs, None).
Proof.
  induction recs as [|r recs IH]; intros Hrecs; [done|].
  apply Forall_cons in Hrecs as [[Hp Hne] Hrecs]. cbn [fmap list_fmap read_lines].
  rewrite feed_line_record by done. cbn -[read_lines]. by rewrite IH.
Qed.

Lemma translate_newlines_app l r :
  Forall (λ c, is_nl c = false) l → translate_newlines (l ++ r) = l ++ translate_newlines r.
Proof.
  induction l as [|c l IH]; intros Hl; [done|]. apply Forall_cons in Hl as [Hc Hl].
  unfold is_nl in Hc. apply orb_false_iff in Hc as [_ Hc].
  cbn [app translate_newlines]. rewrite Hc, IH by done. done.
Qed.

(** The line ends the file may use: ["
"] or ["
"]. *)
Definition line_end (eol : list ascii) : Prop := eol = [LF] ∨ eol = [CR; LF].

Lemma translate_newlines_eol eol r :
  line_end eol → translate_newlines (eol ++ r) = LF :: translate_newlines r.
Proof. by intros [-> | ->]. Qed.

Lemma translate_newlines_lines eol recs :
  line_end eol → Forall (Forall plain_field) recs →
  translate_newlines (mjoin ((λ r, csv_line r ++ eol) <$> recs))
  = mjoin ((λ r, csv_line r ++ [LF]) <$> recs).
Proof.
  intros Heol. induction recs as [|r recs IH]; intros Hrecs; [done|].
  apply Forall_cons in Hrecs as [Hr Hrecs]. rewrite !fmap_cons.
  change (mjoin (?x :: ?l)) with (x ++ mjoin l).
  rewrite <- !app_assoc, translate_newlines_app by (by apply csv_line_no_nl).
  rewrite translate_newlines_eol, IH by done. done.
Qed.

Lemma split_lines_from_line cur l r :
  Forall (λ c, is_nl c = false) l →
  split_lines_from cur (l ++ LF :: r) = (rev cur ++ l ++ [LF]) :: split_lines_from [] r.
Proof.
  revert cur. induction l as [|c l IH]; intros cur Hl; [done|].
  apply Forall_cons in Hl as [Hc Hl]. unfold is_nl in Hc. apply orb_false_iff in Hc as [Hc _].
  cbn [app split_lines_from]. rewrite Hc, IH by done. cbn [rev]. by rewrite <- app_assoc.
Qed.

Lemma split_lines_lines recs :
  Forall (Forall plain_field) recs →
  split_lines (mjoin ((λ r, csv_line r ++ [LF]) <$> recs)) = (λ r, csv_line r ++ [LF]) <$> recs.
Proof.
  unfold split_lines. induction recs as [|r recs IH]; intros Hrecs; [done|].
  apply Forall_cons in Hrecs as [Hr Hrecs]. rewrite !fmap_cons.
  change (mjoin (?x :: ?l)) with (x ++ mjoin l).
  rewrite <- app_assoc. cbn [app]. rewrite split_lines_from_line by (by apply csv_line_no_nl).
  by rewrite IH.
Qed.

(** Reading a file of records that [csv.writer] wrote without quotes. *)
Lemma csv_records_render_csv eol recs :
  line_end eol → Forall (λ r, Forall plain_field r ∧ r ≠ [""]) recs →
  csv_records (render_csv eol recs) = (recs, None).
Proof.
  intros Heol Hrecs. assert (Forall (Forall plain_field) recs) by (eapply Forall_impl; [done|]; by intros ? [? _]).
  unfold csv_records, render_csv. rewrite String.list_ascii_of_string_of_list_ascii.
  rewrite translate_newlines_lines, split_lines_lines by done. by apply read_lines_render.
Qed.

(** ** The text of a number is a plain field *)

Definition is_digit (c : ascii) : Prop := ∃ d, digit_val c = Some d.

Lemma pretty_N_go_digits x s :
  Forall is_digit (String.list_ascii_of_string s) →
  Forall is_digit (String.list_ascii_of_string (pretty_N_go x s)).
Proof.
  revert s. induction (N.lt_wf_0 x) as [x _ IH]; intros s Hs.
  destruct (decide (x = 0%N)) as [->|Hx]; [by rewrite pretty_N_go_0|].
  rewrite pretty_N_go_step by lia. apply IH; [apply N.div_lt; lia|].
  constructor; [|done]. eexists. apply digit_val_pretty_N_char, N.mod_lt; lia.
Qed.

Lemma pretty_N_go_length x s k :
  (x < 10 ^ N.of_nat k)%N →
  length (String.list_ascii_of_string (pretty_N_go x s)) ≤ k + length (String.list_ascii_of_string s).
Proof.
  revert s k. induction (N.lt_wf_0 x) as [x _ IH]; intros s k Hk.
  destruct (decide (x = 0%N)) as [->|Hx]; [rewrite pretty_N_go_0; lia|].
  destruct k as [|k]; [simpl in Hk; lia|].
  rewrite pretty_N_go_step by lia.
  etrans; [apply (IH (x `div` 10)%N ltac:(apply N.div_lt; lia) _ k)|simpl; lia].
  rewrite Nat2N.inj_succ, N.pow_succ_r' in Hk. apply N.Div0.div_lt_upper_bound. lia.
Qed.

Lemma pretty_N_digits (x : N) k :
  (x < 10 ^ N.of_nat k)%N → k ≠ 0 →
  Forall is_digit (String.list_ascii_of_string (pretty x)) ∧ length (String.list_ascii_of_string (pretty x)) ≤ k.
Proof.
  intros Hk Hk0. unfold pretty, pretty_N. case_decide.
  - split; [repeat constructor; by eexists|simpl; lia].
  - split; [by apply pretty_N_go_digits|]. etrans; [by apply pretty_N_go_length|]. simpl. lia.
Qed.

Lemma digit_plain c : is_digit c → plain_char c = true.
Proof.
  intros [d Hd]. unfold plain_char, is_nl.
  by rewrite !(Ascii.eqb_sym c), !(digit_neq c d).
Qed.

Lemma plain_field_intro (l : list ascii) :
  Forall (λ c, plain_char c = true) l → (N.of_nat (length l) ≤ field_limit)%N →
  plain_field (String.string_of_list_ascii l).
Proof. intros Hl Hlen. unfold plain_field. by rewrite String.list_ascii_of_string_of_list_ascii. Qed.

(** The text of an integer: a sign, then the digits of its magnitude. *)
Lemma py_str_int_abs (z : Z) :
  String.list_ascii_of_string (py_str_int z)
  = (if (z <? 0)%Z then ["-"%char] else []) ++ String.list_ascii_of_string (pretty (Z.abs_N z)).
Proof. by destruct z. Qed.

(** The text of an integer of at most [1000] digits. *)
Lemma plain_field_str_int (z : Z) :
  (Z.abs z < 10 ^ 1000)%Z → plain_field (py_str_int z).
Proof.
  intros Hz. rewrite <- (String.string_of_list_ascii_of_string (py_str_int z)), py_str_int_abs.
  destruct (pretty_N_digits (Z.abs_N z) 1000) as [Hd Hlen]; [|lia|].
  { apply N2Z.inj_lt. rewrite N2Z.inj_pow, Z_of_N_abs. lia. }
  apply plain_field_intro.
  - apply Forall_app_2; [by destruct (z <? 0)%Z; repeat constructor|].
    apply (Forall_impl _ _ _ Hd), digit_plain.
  - unfold field_limit. rewrite length_app. destruct (z <? 0)%Z; simpl in *; lia.
Qed.

(** The text of a value in tenths of at most [1000] digits. *)
Lemma plain_field_render_tenths (v : Z) :
  (Z.abs v < 10 ^ 1000)%Z → plain_field (render_tenths v).
Proof.
  intros Hv. rewrite <- (String.string_of_list_ascii_of_string (render_tenths v)).
  destruct (pretty_N_digits (Z.abs_N v `div` 10)%N 1000) as [Hd Hlen]; [|lia|].
  { apply N2Z.inj_lt. rewrite N2Z.inj_pow, N2Z.inj_div, Z_of_N_abs. simpl Z.of_N.
    apply Z.div_lt_upper_bound; lia. }
  assert (Hm : is_digit (pretty_N_char (Z.abs_N v `mod` 10)%N)).
  { eexists. apply digit_val_pretty_N_char, N.mod_lt. lia. }
  unfold render_tenths. rewrite !list_ascii_of_string_app. apply plain_field_intro.
  - repeat apply Forall_app_2; [by destruct (v <? 0)%Z; repeat constructor| |by repeat constructor|].
    + apply (Forall_impl _ _ _ Hd), digit_plain.
    + simpl. constructor; [by apply digit_plain|done].
  - unfold field_limit. rewrite !length_app. destruct (v <? 0)%Z; simpl in *; lia.
Qed.

Lemma py_str_int_nonempty (z : Z) : py_str_int z ≠ "".
Proof.
  intros Hz. destruct (scan_digits_pretty_N_all (Z.abs_N z)) as (d & c & l & dv & _ & Hcl & _).
  pose proof (py_str_int_abs z) as Habs. rewrite Hz, Hcl in Habs. by destruct (z <? 0)%Z.
Qed.

(** ** Lines of a text file never end a field with a stray newline *)

(** A line of the file object: characters other than ["\r"] and
    ["\n"], then ["\n"] unless it is the last line. *)
Definition text_line (l : list ascii) : Prop :=
  ∃ body, Forall (λ c, is_nl c = false) body ∧ (l = body ∨ l = body ++ [LF]).

(** A step of the reader that raises only the field-limit error and
    otherwise satisfies [P]. *)
Definition limit_only (P : reader → Prop) (m : result reader) : Prop :=
  match m with Ok r => P r | Err e => e = field_limit_error end.

Lemma add_char_limit_only (P : reader → Prop) c r :
  P (mk_reader (rstate r) (rfields r) (c :: rfield r)) → limit_only P (add_char c r).
Proof. unfold add_char. by case_match. Qed.

Lemma limit_only_fmap (P : reader → Prop) f m :
  limit_only (P ∘ f) m → limit_only P (f <$> m).
Proof. by destruct m. Qed.

Lemma translate_newlines_no_cr l : Forall (λ c, Ascii.eqb c CR = false) (translate_newlines l).
Proof.
  remember (length l) as n eqn:Hn. revert l Hn. induction (lt_wf n) as [n _ IH]. intros l ->.
  destruct l as [|c l]; [constructor|]. cbn [translate_newlines].
  destruct (Ascii.eqb c CR) eqn:Hc.
  - constructor; [done|]. destruct l as [|d l]; [constructor|].
    destruct (Ascii.eqb d LF); (eapply IH; [|done]); simpl; lia.
  - constructor; [done|]. eapply IH; [|done]. simpl; lia.
Qed.

Lemma split_lines_text_lines cur l :
  Forall (λ c, is_nl c = false) cur → Forall (λ c, Ascii.eqb c CR = false) l →
  Forall text_line (split_lines_from cur l).
Proof.
  revert cur. induction l as [|c l IH]; intros cur Hcur Hl; cbn [split_lines_from].
  - destruct cur; repeat constructor. exists (rev (a :: cur)). split; [by apply Forall_rev|by left].
  - apply Forall_cons in Hl as [Hc Hl]. destruct (Ascii.eqb c LF) eqn:HLF.
    + constructor; [|by apply IH]. exists (rev cur). split; [by apply Forall_rev|right].
      apply Ascii.eqb_eq in HLF as ->. done.
    + apply IH; [|done]. constructor; [|done]. unfold is_nl. by rewrite HLF, Hc.
Qed.

Lemma process_char_limit_only r c :
  is_nl c = false → rstate r ≠ EAT_CRNL →
  limit_only (λ r', rstate r' ≠ EAT_CRNL) (process r (Chr c)).
Proof.
  intros Hc Hst. destruct r as [[] fs f]; cbn [process rstate start_field]; rewrite ?Hc; try done;
    repeat case_match; try done; try apply limit_only_fmap; by apply add_char_limit_only.
Qed.

Lemma process_nl_limit_only r c :
  is_nl c = true → limit_only (λ _, True) (process r (Chr c)).
Proof.
  intros Hc. destruct r as [[] fs f]; cbn [process rstate start_field]; rewrite ?Hc; try done;
    repeat case_match; try done; try apply limit_only_fmap; by apply add_char_limit_only.
Qed.

Lemma process_eol r : ∃ r', process r EOL = Ok r' ∧ rstate r' ≠ EAT_CRNL.
Proof. destruct r as [[] fs f]; eexists; split; (reflexivity || done). Qed.

Lemma feed_chars_limit_only r cs :
  Forall (λ c, is_nl c = false) cs → rstate r ≠ EAT_CRNL →
  limit_only (λ r', rstate r' ≠ EAT_CRNL) (feed_chars r cs).
Proof.
  revert r. induction cs as [|c cs IH]; intros r Hcs Hst; [done|].
  apply Forall_cons in Hcs as [Hc Hcs]. cbn [feed_chars].
  pose proof (process_char_limit_only r c Hc Hst) as Hp.
  destruct (process r (Chr c)); [by apply IH|done].
Qed.

(** A line leaves the reader out of [EAT_CRNL], or raises the
    field-limit error. *)
Lemma feed_line_limit_only r l :
  text_line l → rstate r ≠ EAT_CRNL → limit_only (λ r', rstate r' ≠ EAT_CRNL) (feed_line r l).
Proof.
  intros (body & Hbody & Hl) Hst. unfold feed_line.
  assert (Hend : ∀ m : result reader, limit_only (λ _, True) m →
            limit_only (λ r', rstate r' ≠ EAT_CRNL) (m ≫= λ r', process r' EOL)).
  { intros [r'|e] Hm; [|done]. cbn. by destruct (process_eol r') as (? & -> & ?). }
  apply Hend. destruct Hl as [-> | ->].
  - pose proof (feed_chars_limit_only r body Hbody Hst) as Hf. by destruct (feed_chars r body).
  - rewrite feed_chars_app. pose proof (feed_chars_limit_only r body Hbody Hst) as Hf.
    destruct (feed_chars r body) as [r'|e]; [|done]. cbn [mbind result_bind feed_chars].
    pose proof (process_nl_limit_only r' LF eq_refl) as Hp. by destruct (process r' (Chr LF)).
Qed.

Lemma read_lines_limit_only r lines :
  Forall text_line lines → rstate r ≠ EAT_CRNL →
  (read_lines r lines).2 = None ∨ (read_lines r lines).2 = Some field_limit_error.
Proof.
  revert r. induction lines as [|l lines IH]; intros r Hlines Hst; cbn [read_lines].
  - case_match; by left.
  - apply Forall_cons in Hlines as [Hl Hlines].
    pose proof (feed_line_limit_only r l Hl Hst) as Hf.
    destruct (feed_line r l) as [r'|e]; [|right; simpl; by f_equal].
    case_bool_decide.
    + destruct (IH reader_reset) as [He|He]; [done|done|..];
        destruct (read_lines reader_reset lines); simpl in *; auto.
    + by apply IH.
Qed.

(** ** Properties of the reader *)

(** C30. Round trip of the text layer: records whose fields
    [csv.writer] writes without quotes (no delimiter, quote or line
    end, at most [field_limit] characters), each written as a line
    ended by ["\n"] or ["\r\n"], are read back by
    [csv.reader(open(path))] as the same records, with no error; the one
    record excluded is [[""]], whose line is empty. *)
Theorem csv_roundtrip eol recs :
  line_end eol → Forall (λ r, Forall plain_field r ∧ r ≠ [""]) recs →
  csv_records (render_csv eol recs) = (recs, None).
Proof. apply csv_records_render_csv. Qed.

(** C34. With universal newlines the reader meets no stray newline:
    whatever the text, the only error [csv.reader] can stop with is the
    field-limit error; ["new-line character seen in unquoted field"]
    is never raised. *)
Theorem csv_records_only_field_limit_error (text : string) :
  (csv_records text).2 = None ∨ (csv_records text).2 = Some field_limit_error.
Proof.
  unfold csv_records, split_lines. apply read_lines_limit_only; [|done].
  apply split_lines_text_lines; [done|]. apply translate_newlines_no_cr.
Qed.

Lemma csv_roundtrip_witness :
  line_end [CR; LF] ∧ Forall (λ r, Forall plain_field r ∧ r ≠ [""]) [["150"; "4"; "setosa"]; []; [""; "5.1"]] ∧
  csv_records (render_csv [CR; LF] [["150"; "4"; "setosa"]; []; [""; "5.1"]])
  = ([["150"; "4"; "setosa"]; []; [""; "5.1"]], None).
Proof.
  assert (H1 : line_end [CR; LF]) by (right; reflexivity).
  assert (H2 : Forall (λ r, Forall plain_field r ∧ r ≠ [""]) [["150"; "4"; "setosa"]; []; [""; "5.1"]])
    by (apply (bool_decide_unpack _); vm_compute; reflexivity).
  split; [exact H1|]. split; [exact H2|].
  exact (csv_roundtrip [CR; LF] _ H1 H2).
Defined.

(** C37. [int(str(z)) = z]: the text [str] gives an integer is read
    back by [int()] as the same integer, negative ones included. *)
Theorem py_int_roundtrip (z : Z) : py_int (py_str_int z) = Ok z.
Proof. apply py_int_str. Qed.

(** C38. A value [v] in tenths written with one decimal ([5.1] for
    [51], [-0.3] for [-3]) is read by [float()] as a float that stands
    for [v]: the binary64 float nearest [v / 10], from which [v] is
    recovered as [10 * x] rounded, for every [|v| < 2^48]. *)
Theorem py_float_tenths_roundtrip (v : Z) :
  (Z.abs v < 2 ^ 48)%Z → ∃ x, py_float (render_tenths v) = Ok x ∧ to_tenths x = Some v.
Proof.
  intros Hv. exists (tenths_float v).
  split; [apply py_float_render_tenths|by apply to_tenths_tenths_float].
Qed.

Lemma py_float_tenths_roundtrip_witness :
  (Z.abs (-3) < 2 ^ 48)%Z ∧ ∃ x, py_float (render_tenths (-3)) = Ok x ∧ to_tenths x = Some (-3)%Z.
Proof.
  assert (H : (Z.abs (-3) < 2 ^ 48)%Z) by lia.
  split; [exact H|]. exact (py_float_tenths_roundtrip (-3) H).
Defined.

(** C39. [float()] rounds correctly: for a literal with digits [M > 0]
    and decimal exponent [E] whose value does not overflow, the float
    [m * 2^e] it returns is a binary64 float (a mantissa of at most 53
    bits, exactly 53 unless subnormal, an exponent in [[-1074, 971]]),
    and it lies within half a unit in the last place of [M * 10^E]:
    [|m - M * 10^E / 2^e| <= 1/2], written with the fraction
    [M * 10^E / 2^e = a / b]. *)
Theorem f64_round_correct M E m e :
  (0 < M)%Z → f64_round M E = Some (m, e) →
  (0 ≤ m < 2 ^ 53)%Z ∧ (-1074 ≤ e ≤ 971)%Z ∧ (e = -1074 ∨ 2 ^ 52 ≤ m)%Z ∧
  let '(num, den) := decimal_frac M E in
  let '(a, b) := scaled num den e in (2 * Z.abs (m * b - a) ≤ b)%Z.
Proof.
  intros HM. unfold f64_round. rewrite (proj2 (Z.eqb_neq M 0)) by lia.
  pose proof (decimal_frac_pos M E HM) as [Hn Hd].
  destruct (decimal_frac M E) as [num den]. cbn [fst snd] in Hn, Hd.
  pose proof (scaled_at_exponent num den Hn Hd) as Hr. cbv zeta in Hr.
  set (e2 := Z.max (-1074) (floor_log2 num den - 52)) in *.
  assert (He2 : (-1074 ≤ e2)%Z) by lia.
  pose proof (renormalise_error num den e2 Hn Hd) as Hren.
  unfold round_scaled. destruct (scaled num den e2) as [a b] eqn:Hs.
  cbn [fst snd] in Hren. destruct Hr as (Hb & Ha & Hr).
  pose proof (round_half_even_error a b Hb) as Herr.
  set (r := round_half_even a b) in *.
  assert (Hrange : (2 ^ 52 ≤ r ≤ 2 ^ 53)%Z ∨ e2 = (-1074)%Z ∧ (0 ≤ r ≤ 2 ^ 52)%Z).
  { destruct Hr as [Hr|[? Hr]]; [left|right; split; [done|]]; apply round_half_even_bounds; lia. }
  destruct (Z.eqb_spec r (2 ^ 53)) as [Hm|Hm]; cbv beta iota.
  - destruct (Z.ltb_spec 971 (e2 + 1)); [done|]. intros [= <- <-].
    split_and!; [lia|lia|lia|lia|right; lia|]. rewrite Hm in Herr.
    specialize (Hren ltac:(lia)). by destruct (scaled num den (e2 + 1)).
  - destruct (Z.ltb_spec 971 e2); [done|]. intros [= <- <-].
    split_and!; [lia|lia|lia|lia|lia|]. rewrite Hs. lia.
Qed.

Lemma f64_round_correct_witness :
  (0 < 51)%Z ∧ f64_round 51 (-1) = Some (5742089524897382, -50)%Z ∧
  (0 ≤ 5742089524897382 < 2 ^ 53)%Z ∧ (-1074 ≤ -50 ≤ 971)%Z ∧ (-50 = -1074 ∨ 2 ^ 52 ≤ 5742089524897382)%Z ∧
  let '(num, den) := decimal_frac 51 (-1) in
  let '(a, b) := scaled num den (-50) in (2 * Z.abs (5742089524897382 * b - a) ≤ b)%Z.
Proof.
  assert (H1 : (0 < 51)%Z) by lia.
  assert (H2 : f64_round 51 (-1) = Some (5742089524897382, -50)%Z) by (vm_compute; reflexivity).
  split; [exact H1|]. split; [exact H2|]. exact (f64_round_correct 51 (-1) _ _ H1 H2).
Defined.

End PyText.
