(* ===== verification/NumpyPrint.v ===== *)
(** * [str] of a one-dimensional ndarray, as numpy prints it

    [print(test_target)] and [print(clf.predict(test_data))] (lines 26-27)
    print integer arrays; [export_graphviz] prints the class counts of a
    node through [str] of a bytes array.  Both go through numpy's
    [array2string] with [separator=' '], [prefix=''] and [linewidth=75]:
    [_formatArray] starts the line with the hanging indent [' '], wraps
    before an element that would make the line longer than 74 characters
    (75 less the closing bracket) and continues on a new line with the
    indent; the first indent is then replaced by [[].  Integer elements
    are right-justified to the width of the longest one; bytes elements
    are printed by [repr] without padding.  An empty array prints as
    [[]].  An array of more than 1000 elements is summarised: its first
    and last three elements, formatted on their own, around [...].

    Theorems: an array that fits prints on one line (C20); a summarised
    array prints its six edge elements around [...] (C35); every line
    printed is at most 75 characters long (C40). *)

From Stdlib Require Import Ascii.
From S2P Require Import Prelude PyText.
Import PyText.

Module NumpyPrint.

(** ** The formatter *)

Fixpoint spaces (n : nat) : string :=
  match n with 0 => "" | S n' => " " +:+ spaces n' end.

Definition rjust (width : nat) (s : string) : string := spaces (width - String.length s) +:+ s.

Fixpoint drop_spaces (l : list ascii) : list ascii :=
  match l with
  | c :: l' => if Ascii.eqb c " "%char then drop_spaces l' else l
  | [] => []
  end.

(** [line.rstrip()]. *)
Definition rstrip (s : string) : string :=
  String.string_of_list_ascii (rev (drop_spaces (rev (String.list_ascii_of_string s)))).

(** numpy's [_extendLine]: wrap before [word] when the line would get
    longer than [width], unless the line holds no more than the indent. *)
Definition extend_line (s line word : string) (width : nat) (indent : string) : string * string :=
  if bool_decide (width < String.length line + String.length word) &&
     bool_decide (String.length indent < String.length line)
  then (s +:+ rstrip line +:+ nl, indent +:+ word)
  else (s, line +:+ word).

(** The loop of [_formatArray] over the elements of a one-dimensional
    array: every element but the last is followed by the separator. *)
Fixpoint format_elements (s line : string) (words : list string) : string :=
  match words with
  | [] => s +:+ line
  | [w] => let '(s', line') := extend_line s line w 74 " " in s' +:+ line'
  | w :: ws => let '(s', line') := extend_line s line w 74 " " in format_elements s' (line' +:+ " ") ws
  end.

Definition string_tail (s : string) : string :=
  match s with String _ s' => s' | EmptyString => EmptyString end.

(** [array2string] of a one-dimensional array whose elements are
    already formatted: the lines of [_formatArray] inside brackets. *)
Definition array2string (words : list string) : string :=
  match words with
  | [] => "[]"
  | _ => "[" +:+ string_tail (format_elements "" " " words) +:+ "]"
  end.

(** [np.get_printoptions()]: [threshold] and [edgeitems]. *)
Definition threshold : nat := 1000.
Definition edgeitems : nat := 3.

(** [_array2string]: an array of more than [threshold] elements is
    summarised; only its first and last [edgeitems] elements are
    formatted, the element formatter is built from those alone
    ([_leading_trailing]), and [_formatArray] puts the word [...]
    between them.  [formatter d] is the formatter numpy builds for the
    data [d]. *)
Definition format_array {A} (formatter : list A → A → string) (a : list A) : string :=
  if bool_decide (threshold < length a) then
    let lead := take edgeitems a in
    let trail := drop (length a - edgeitems) a in
    let f := formatter (lead ++ trail) in
    array2string ((f <$> lead) ++ ["..."] ++ (f <$> trail))
  else array2string (formatter a <$> a).

(** numpy's [IntegerFormat] for the data [d]: [str(x)] right-justified to
    the width of the longest element of [d]. *)
Definition int_formatter (d : list Z) (z : Z) : string :=
  rjust (max_list ((λ z, String.length (pretty z)) <$> d)) (pretty z).

(** [str] of an integer array. *)
Definition array_str (a : list Z) : string := format_array int_formatter a.

(** ** Arrays that fit on one line *)

Lemma length_spaces n : String.length (spaces n) = n.
Proof. induction n as [|n IH]; [done|]. exact (f_equal S IH). Qed.

Lemma length_rjust w s : String.length s ≤ w → String.length (rjust w s) = w.
Proof. intros. unfold rjust. rewrite string_length_app, length_spaces. lia. Qed.

(** No element is wrapped while the line stays within 74 characters. *)
Lemma format_elements_fit w (words : list string) : ∀ line,
  words ≠ [] → Forall (λ s, String.length s ≤ w) words →
  String.length line + (w + 1) * length words ≤ 75 →
  format_elements "" line words = line +:+ String.concat " " words.
Proof.
  induction words as [|x words IH]; intros line Hne Hw Hlen; [done|].
  apply Forall_cons in Hw as [Hx Hw]. cbn [length] in Hlen. rewrite Nat.mul_succ_r in Hlen.
  assert (Hext : extend_line "" line x 74 " " = ("", line +:+ x)).
  { unfold extend_line. rewrite (bool_decide_eq_false_2 (74 < _)) by lia. done. }
  destruct words as [|y words].
  - cbn [format_elements]. rewrite Hext. done.
  - change (format_elements "" line (x :: y :: words)) with
      (let '(s', line') := extend_line "" line x 74 " " in format_elements s' (line' +:+ " ") (y :: words)).
    rewrite Hext. cbn zeta. rewrite IH; [|done|done|].
    + rewrite <-!string_app_assoc. done.
    + rewrite !string_length_app. cbn [length] in *. simpl. lia.
Qed.

(** Elements of at most [w] characters that fit in 74 characters are
    printed on one line, separated by single spaces. *)
Lemma array2string_one_line w (words : list string) :
  words ≠ [] → Forall (λ s, String.length s ≤ w) words → (w + 1) * length words ≤ 74 →
  array2string words = "[" +:+ String.concat " " words +:+ "]".
Proof.
  intros Hne Hw Hfit. destruct words as [|x words]; [done|].
  unfold array2string. rewrite (format_elements_fit w); [done|done|done|]. simpl in *. lia.
Qed.

(** The words of [int_formatter d] on elements of [d] all have the width
    of the longest element of [d]. *)
Lemma int_formatter_width d (l : list Z) :
  l ⊆ d → Forall (λ s, String.length s ≤ max_list ((λ z, String.length (pretty z)) <$> d)) (int_formatter d <$> l).
Proof.
  intros Hsub. apply Forall_fmap, Forall_forall. intros y Hy. unfold int_formatter; simpl.
  rewrite length_rjust; [done|]. apply max_list_elem_of_le.
  exact (list_elem_of_fmap_2 (λ z, String.length (pretty z)) _ _ (Hsub y Hy)).
Qed.

(** C20.  An integer array whose elements, right-justified to the widest
    one and separated by a space, fit in 74 characters prints on one line:
    [[], the elements separated by single spaces, []]. *)
Theorem array_str_one_line (a : list Z) :
  a ≠ [] →
  (max_list ((λ z, String.length (pretty z)) <$> a) + 1) * length a ≤ 74 →
  array_str a = "[" +:+ String.concat " "
    ((λ z, rjust (max_list ((λ z, String.length (pretty z)) <$> a)) (pretty z)) <$> a) +:+ "]".
Proof.
  intros Hne Hfit. unfold array_str, format_array.
  rewrite bool_decide_false by (unfold threshold; nia).
  apply (array2string_one_line (max_list ((λ z, String.length (pretty z)) <$> a))).
  - by destruct a.
  - by apply int_formatter_width.
  - by rewrite length_fmap.
Qed.

Lemma array_str_one_line_witness :
  [0; 1; 2]%Z ≠ [] ∧
  (max_list ((λ z, String.length (pretty z)) <$> [0; 1; 2]%Z) + 1) * length [0; 1; 2]%Z ≤ 74 ∧
  array_str [0; 1; 2]%Z = "[" +:+ String.concat " "
    ((λ z, rjust (max_list ((λ z, String.length (pretty z)) <$> [0; 1; 2]%Z)) (pretty z)) <$> [0; 1; 2]%Z)
    +:+ "]".
Proof.
  assert (H1 : [0; 1; 2]%Z ≠ []) by discriminate.
  assert (H2 : (max_list ((λ z, String.length (pretty z)) <$> [0; 1; 2]%Z) + 1) * length [0; 1; 2]%Z ≤ 74)
    by (vm_compute; lia).
  split; [exact H1|]. split; [exact H2|]. exact (array_str_one_line _ H1 H2).
Defined.

(** C35.  An integer array of more than [threshold] (1000) elements is
    summarised: it prints as its first three and last three elements,
    right-justified to the widest of these six alone, with [...]
    between them, on one line when these elements have at most nine
    digits. *)
Theorem array_str_summarised (a : list Z) :
  threshold < length a →
  max_list ((λ z, String.length (pretty z)) <$> (take 3 a ++ drop (length a - 3) a)) ≤ 9 →
  array_str a = "[" +:+ String.concat " "
    ((int_formatter (take 3 a ++ drop (length a - 3) a) <$> take 3 a) ++ ["..."] ++
     (int_formatter (take 3 a ++ drop (length a - 3) a) <$> drop (length a - 3) a)) +:+ "]".
Proof.
  intros Hlen Hw. unfold array_str, format_array, edgeitems.
  rewrite bool_decide_true by done. cbn zeta.
  apply (array2string_one_line 9).
  - by destruct (int_formatter _ <$> take 3 a).
  - apply Forall_app; split; [|apply Forall_cons; split; [simpl; lia|]];
      (eapply Forall_impl; [apply int_formatter_width|]; [intros ??; apply elem_of_app; auto|intros ? Hx; cbv beta in Hx; lia]).
  - rewrite !length_app, !length_fmap, length_take, length_drop. cbn [length]. unfold threshold in Hlen. lia.
Qed.

Lemma array_str_summarised_witness :
  let a := Z.of_nat <$> seq 0 1001 in
  threshold < length a ∧
  max_list ((λ z, String.length (pretty z)) <$> (take 3 a ++ drop (length a - 3) a)) ≤ 9 ∧
  array_str a = "[" +:+ String.concat " "
    ((int_formatter (take 3 a ++ drop (length a - 3) a) <$> take 3 a) ++ ["..."] ++
     (int_formatter (take 3 a ++ drop (length a - 3) a) <$> drop (length a - 3) a)) +:+ "]".
Proof.
  intros a.
  assert (H1 : threshold < length a) by (vm_compute; lia).
  assert (H2 : max_list ((λ z, String.length (pretty z)) <$> (take 3 a ++ drop (length a - 3) a)) ≤ 9)
    by (vm_compute; lia).
  split; [exact H1|]. split; [exact H2|]. exact (array_str_summarised a H1 H2).
Defined.

(** ** The width of the printed lines *)

(** [s.split('\n')]. *)
Fixpoint split_nl (s : string) : list string :=
  match s with
  | EmptyString => [""]
  | String c s' =>
      if Ascii.eqb c LF then "" :: split_nl s'
      else match split_nl s' with l :: ls => String c l :: ls | [] => [String c ""] end
  end.

Definition no_nl (s : string) : Prop := Forall (λ c, c ≠ LF) (String.list_ascii_of_string s).

(** A word [_formatArray] may place: one line, not blank, at most 73
    characters, so that with the indent it fits in 74. *)
Definition word_ok (w : string) : Prop :=
  no_nl w ∧ Exists (λ c, c ≠ " "%char) (String.list_ascii_of_string w) ∧ String.length w ≤ 73.

Lemma split_nl_cons s : ∃ l ls, split_nl s = l :: ls.
Proof.
  induction s as [|c s [l [ls IH]]]; [by eexists _, _|]. simpl. rewrite IH.
  case_match; eauto.
Qed.

Lemma split_nl_no_nl s : no_nl s → split_nl s = [s].
Proof.
  unfold no_nl. induction s as [|c s IH]; intros Hs; [done|].
  simpl in Hs. apply Forall_cons in Hs as [Hc Hs]. simpl. rewrite IH by done.
  destruct (Ascii.eqb_spec c LF); [done|]. done.
Qed.

Lemma split_nl_app_nl a b : split_nl (a +:+ String LF b) = split_nl a ++ split_nl b.
Proof.
  induction a as [|c a IH]; [done|]. change (String c a +:+ ?x) with (String c (a +:+ x)).
  cbn [split_nl]. rewrite IH.
  destruct (Ascii.eqb c LF); [done|]. destruct (split_nl_cons a) as (l & ls & ->). done.
Qed.

(** A line of the output is lengthened by at most one character when a
    character other than a newline is appended to the output. *)
Lemma split_nl_snoc s c :
  c ≠ LF → Forall2 (λ l l', String.length l' ≤ S (String.length l)) (split_nl s) (split_nl (s +:+ String c "")).
Proof.
  intros Hc. induction s as [|d s IH]; [|change (String d s +:+ ?x) with (String d (s +:+ x))]; cbn [split_nl].
  - change ("" +:+ ?x) with x. cbn [split_nl].
    destruct (Ascii.eqb c LF) eqn:E; [by apply Ascii.eqb_eq in E|]. repeat constructor.
  - destruct (Ascii.eqb d LF); [constructor; [simpl; lia|done]|].
    destruct (split_nl_cons s) as (l & ls & Hs). destruct (split_nl_cons (s +:+ String c "")) as (l' & ls' & Hs').
    rewrite Hs, Hs' in *. apply Forall2_cons in IH as [Hl Hls]. constructor; [simpl; lia|done].
Qed.

Lemma length_list_ascii_of_string s : length (String.list_ascii_of_string s) = String.length s.
Proof. induction s; simpl; lia. Qed.

Lemma length_string_of_list_ascii l : String.length (String.string_of_list_ascii l) = length l.
Proof. induction l; simpl; lia. Qed.

Lemma drop_spaces_suffix l : ∃ p, l = p ++ drop_spaces l.
Proof.
  induction l as [|c l [p IH]]; [by exists []|]. simpl.
  destruct (Ascii.eqb c " "%char); [exists (c :: p); by rewrite IH at 1|by exists []].
Qed.

Lemma drop_spaces_app l1 l2 :
  Exists (λ c, c ≠ " "%char) l1 → drop_spaces (l1 ++ l2) = drop_spaces l1 ++ l2.
Proof.
  induction l1 as [|c l1 IH]; intros Hl; [inversion Hl|]. simpl.
  destruct (Ascii.eqb_spec c " "%char) as [->|]; [|done].
  apply IH. inversion Hl; subst; [done|done].
Qed.

Lemma rstrip_snoc_space x : rstrip (x +:+ " ") = rstrip x.
Proof. unfold rstrip. rewrite list_ascii_of_string_app, rev_app_distr. done. Qed.

Lemma rstrip_length x : String.length (rstrip x) ≤ String.length x.
Proof.
  unfold rstrip. rewrite length_string_of_list_ascii, length_rev, <- length_list_ascii_of_string.
  destruct (drop_spaces_suffix (rev (String.list_ascii_of_string x))) as [p Hp].
  pose proof (f_equal length Hp) as Hl. rewrite length_app, length_rev in Hl. lia.
Qed.

Lemma rstrip_no_nl x : no_nl x → no_nl (rstrip x).
Proof.
  unfold no_nl, rstrip. intros Hx. rewrite String.list_ascii_of_string_of_list_ascii.
  apply Forall_rev. destruct (drop_spaces_suffix (rev (String.list_ascii_of_string x))) as [p Hp].
  apply Forall_rev in Hx. rewrite Hp in Hx. by apply Forall_app in Hx as [_ ?].
Qed.

(** [rstrip] keeps the indent of a line that is not blank. *)
Lemma rstrip_indent r :
  Exists (λ c, c ≠ " "%char) (String.list_ascii_of_string r) → ∃ r', rstrip (String " " r) = String " " r'.
Proof.
  intros Hr. unfold rstrip. cbn [String.list_ascii_of_string rev].
  rewrite drop_spaces_app by (by apply Exists_rev). rewrite rev_app_distr. simpl. by eexists.
Qed.

Lemma extend_line_prefix s line w :
  extend_line s line w 74 " " = (s +:+ (extend_line "" line w 74 " ").1, (extend_line "" line w 74 " ").2).
Proof. unfold extend_line. case_match; simpl; [done|by rewrite string_app_nil_r]. Qed.

(** What [_formatArray] has written before the current line is a prefix
    of its output. *)
Lemma format_elements_prefix words : ∀ s line,
  format_elements s line words = s +:+ format_elements "" line words.
Proof.
  induction words as [|w [|w' words] IH]; intros s line.
  - done.
  - cbn [format_elements]. rewrite extend_line_prefix. destruct (extend_line "" line w 74 " ") as [x y].
    simpl. by rewrite string_app_assoc.
  - change (format_elements ?s line (w :: w' :: words)) with
      (let '(s', line') := extend_line s line w 74 " " in format_elements s' (line' +:+ " ") (w' :: words)).
    rewrite extend_line_prefix. destruct (extend_line "" line w 74 " ") as [x y]. cbn zeta.
    rewrite (IH (s +:+ x)), (IH x). by rewrite string_app_assoc.
Qed.

(** A line of the output: the indent, then at most 73 characters. *)
Definition out_line (l : string) : Prop := (∃ r, l = String " " r) ∧ String.length l ≤ 74.

(** The current line of [_formatArray] before a separator: the indent
    and at least one word, within 74 characters. *)
Definition body_ok (x : string) : Prop :=
  (∃ r, x = String " " r ∧ Exists (λ c, c ≠ " "%char) (String.list_ascii_of_string r)) ∧
  no_nl x ∧ String.length x ≤ 74.

Lemma no_nl_app x y : no_nl x → no_nl y → no_nl (x +:+ y).
Proof. unfold no_nl. rewrite list_ascii_of_string_app. apply Forall_app_2. Qed.

Lemma no_nl_space : no_nl " ".
Proof. constructor; [|constructor]. vm_compute. intros H. inversion H. Qed.

Lemma body_ok_out x : body_ok x → Forall out_line (split_nl x).
Proof.
  intros ([r [-> _]] & Hnl & Hlen). rewrite split_nl_no_nl by done.
  constructor; [split; [by eexists|done]|constructor].
Qed.

Lemma body_ok_rstrip x : body_ok x → out_line (rstrip (x +:+ " ")) ∧ no_nl (rstrip (x +:+ " ")).
Proof.
  intros ([r [-> Hr]] & Hnl & Hlen). rewrite rstrip_snoc_space.
  destruct (rstrip_indent r Hr) as [r' Hr']. split; [split; [by eexists|]|].
  - pose proof (rstrip_length (String " " r)). lia.
  - by apply rstrip_no_nl.
Qed.

Lemma body_ok_word w : word_ok w → body_ok (" " +:+ w).
Proof.
  intros (Hnl & Hns & Hlen). split_and!.
  - by exists w.
  - apply no_nl_app; [apply no_nl_space|done].
  - rewrite string_length_app. simpl. lia.
Qed.

Lemma body_ok_extend x w :
  body_ok x → word_ok w → String.length (x +:+ " ") + String.length w ≤ 74 → body_ok ((x +:+ " ") +:+ w).
Proof.
  intros ([r [-> Hr]] & Hnl & Hlen) (Hwnl & Hns & Hwlen) Hfit. split_and!.
  - exists ((r +:+ " ") +:+ w). split; [done|]. rewrite !list_ascii_of_string_app. by apply Exists_app; left; apply Exists_app; left.
  - apply no_nl_app; [apply no_nl_app; [done|apply no_nl_space]|done].
  - by rewrite string_length_app.
Qed.

Lemma nl_app a y : (a +:+ nl) +:+ y = a +:+ String LF y.
Proof. by rewrite <- string_app_assoc. Qed.

Lemma body_ok_long x : body_ok x → 2 ≤ String.length (x +:+ " ").
Proof.
  intros ([r [-> Hr]] & _). rewrite string_length_app. destruct r; [inversion Hr|]. simpl. lia.
Qed.

(** The loop of [_formatArray] writes lines of at most 74 characters,
    each starting with the indent, when every word is at most 73
    characters long. *)
Lemma format_elements_width words : ∀ x,
  words ≠ [] → Forall word_ok words → body_ok x →
  Forall out_line (split_nl (format_elements "" (x +:+ " ") words)).
Proof.
  induction words as [|w ws IH]; intros x Hne Hws Hx; [done|].
  apply Forall_cons in Hws as [Hw Hws].
  assert (Hstep : format_elements "" (x +:+ " ") (w :: ws) =
    let '(s', line') := extend_line "" (x +:+ " ") w 74 " " in
    match ws with [] => s' +:+ line' | _ => s' +:+ format_elements "" (line' +:+ " ") ws end).
  { destruct ws as [|w' ws]; [done|].
    change (format_elements "" ?l (w :: w' :: ws)) with
      (let '(s', line') := extend_line "" l w 74 " " in format_elements s' (line' +:+ " ") (w' :: ws)).
    destruct (extend_line _ _ _ _ _). apply format_elements_prefix. }
  rewrite Hstep. unfold extend_line.
  destruct (bool_decide _ && bool_decide _) eqn:Hc.
  - change ("" +:+ ?a) with a.
    destruct (body_ok_rstrip x Hx) as [Hout Hnl].
    destruct ws as [|w' ws]; rewrite nl_app, split_nl_app_nl, (split_nl_no_nl (rstrip _)) by done;
      (apply Forall_app; split; [by constructor|]).
    + by apply body_ok_out, body_ok_word.
    + apply IH; [done|done|]. by apply body_ok_word.
  - apply andb_false_iff in Hc as [Hc|Hc]; apply bool_decide_eq_false in Hc;
      [|pose proof (body_ok_long x Hx); simpl in Hc; lia].
    change ("" +:+ ?a) with a. destruct ws as [|w' ws].
    + apply body_ok_out, body_ok_extend; [done|done|lia].
    + apply IH; [done|done|]. apply body_ok_extend; [done|done|lia].
Qed.

(** Replacing the first indent by [[] and closing with []] keeps every
    line within 75 characters. *)
Lemma bracket_width F :
  Forall out_line (split_nl F) →
  Forall (λ l, String.length l ≤ 75) (split_nl ("[" +:+ string_tail F +:+ "]")).
Proof.
  intros HF. destruct F as [|c F']; [inversion HF as [|? ? [[r Hr] _]]; discriminate|].
  cbn [split_nl] in HF. destruct (Ascii.eqb c LF).
  { inversion HF as [|? ? [[r Hr] _]]; discriminate. }
  destruct (split_nl_cons F') as (l & ls & Hl). rewrite Hl in HF.
  apply Forall_cons in HF as [[[r [= Hc Hr]] Hlen] Hls]. subst c r.
  cbn [string_tail]. change ("[" +:+ ?y) with (String "["%char y). cbn [split_nl].
  pose proof (split_nl_snoc F' "]"%char ltac:(by vm_compute)) as Hsnoc. rewrite Hl in Hsnoc.
  destruct (split_nl (F' +:+ "]")) as [|l' ls'] eqn:E; [inversion Hsnoc|].
  apply Forall2_cons in Hsnoc as [Hl' Hls']. change (Ascii.eqb "[" LF) with false. cbv iota.
  constructor; [simpl in *; lia|].
  clear -Hls Hls'. induction Hls' as [|a b la lb Hab _ IH]; [done|].
  apply Forall_cons in Hls as [[_ Ha] Hls]. constructor; [lia|by apply IH].
Qed.

(** [array2string] of words of at most 73 characters writes lines of
    at most 75 characters. *)
Lemma array2string_width words :
  Forall word_ok words → Forall (λ l, String.length l ≤ 75) (split_nl (array2string words)).
Proof.
  intros Hws. destruct words as [|w ws]; [repeat constructor; simpl; lia|].
  apply Forall_cons in Hws as [Hw Hws]. unfold array2string. apply bracket_width.
  pose proof (body_ok_word w Hw) as Hx.
  assert (Hfirst : extend_line "" " " w 74 " " = ("", " " +:+ w)).
  { unfold extend_line. rewrite (bool_decide_eq_false_2 (1 < _)) by (simpl; lia). by rewrite andb_false_r. }
  destruct ws as [|w' ws].
  - cbn [format_elements]. rewrite Hfirst. by apply body_ok_out.
  - change (format_elements "" " " (w :: w' :: ws)) with
      (let '(s', line') := extend_line "" " " w 74 " " in format_elements s' (line' +:+ " ") (w' :: ws)).
    rewrite Hfirst. cbn zeta. by apply format_elements_width.
Qed.

Lemma no_nl_spaces n : no_nl (spaces n).
Proof. induction n as [|n IH]; [constructor|]. apply no_nl_app; [apply no_nl_space|done]. Qed.

Lemma digit_not_nl_space c : is_digit c → c ≠ LF ∧ c ≠ " "%char.
Proof.
  intros [d Hd]. split; intros ->; vm_compute in Hd; discriminate.
Qed.

Lemma pretty_N_is_digit (x : N) : Forall is_digit (String.list_ascii_of_string (pretty x)).
Proof.
  unfold pretty, pretty_N. case_decide.
  - repeat constructor. by eexists.
  - by apply pretty_N_go_digits.
Qed.

(** [str(z)] is one line and not blank. *)
Lemma pretty_Z_word (z : Z) :
  no_nl (pretty z) ∧ Exists (λ c, c ≠ " "%char) (String.list_ascii_of_string (pretty z)).
Proof.
  change (pretty z) with (py_str_int z). unfold no_nl. rewrite py_str_int_abs.
  pose proof (pretty_N_is_digit (Z.abs_N z)) as Hd.
  destruct (scan_digits_pretty_N_all (Z.abs_N z)) as (_ & c & l & dv & _ & Hcl & Hc & _).
  split.
  - apply Forall_app_2; [destruct (z <? 0)%Z; repeat constructor; by vm_compute|].
    eapply Forall_impl; [done|]. intros ? ?%digit_not_nl_space. tauto.
  - apply Exists_app. right. rewrite Hcl. constructor. apply (digit_not_nl_space c). by exists dv.
Qed.

Lemma max_list_le (l : list nat) k : Forall (λ x, x ≤ k) l → max_list l ≤ k.
Proof. induction 1; simpl; lia. Qed.

(** The word [int_formatter d z] of an element of [d], when every
    element of [d] prints in at most 73 characters. *)
Lemma int_formatter_word d z :
  z ∈ d → max_list ((λ z, String.length (pretty z)) <$> d) ≤ 73 → word_ok (int_formatter d z).
Proof.
  intros Hz Hd. destruct (pretty_Z_word z) as [Hnl Hns]. unfold int_formatter. split_and!.
  - unfold rjust. apply no_nl_app; [apply no_nl_spaces|done].
  - unfold rjust. rewrite list_ascii_of_string_app. by apply Exists_app; right.
  - rewrite length_rjust; [done|]. apply max_list_elem_of_le.
    exact (list_elem_of_fmap_2 (λ z, String.length (pretty z)) _ _ Hz).
Qed.

Lemma int_formatter_words d l :
  l ⊆ d → max_list ((λ z, String.length (pretty z)) <$> d) ≤ 73 → Forall word_ok (int_formatter d <$> l).
Proof.
  intros Hsub Hd. apply Forall_fmap, Forall_forall. intros z Hz. apply int_formatter_word; [|done].
  by apply Hsub.
Qed.

(** C40.  numpy's line width: when every element of an integer array
    prints in at most 73 characters, every line that [print] writes for
    it, summarised or not, is at most 75 characters long. *)
Theorem array_str_line_width (a : list Z) :
  max_list ((λ z, String.length (pretty z)) <$> a) ≤ 73 →
  Forall (λ l, String.length l ≤ 75) (split_nl (array_str a)).
Proof.
  intros Ha. unfold array_str, format_array. case_bool_decide; cbn zeta; apply array2string_width.
  - assert (Hsub : take edgeitems a ++ drop (length a - edgeitems) a ⊆ a).
    { intros z Hz%elem_of_app. destruct Hz as [Hz|Hz].
      - exact (sublist_subseteq _ _ (sublist_take a _) z Hz).
      - exact (sublist_subseteq _ _ (sublist_drop a _) z Hz). }
    assert (Hd : max_list ((λ z, String.length (pretty z)) <$> (take edgeitems a ++ drop (length a - edgeitems) a)) ≤ 73).
    { apply max_list_le, Forall_fmap, Forall_forall. intros z Hz. unfold compose. etrans; [|exact Ha].
      apply max_list_elem_of_le. exact (list_elem_of_fmap_2 (λ z, String.length (pretty z)) _ _ (Hsub z Hz)). }
    apply Forall_app; split; [|apply Forall_cons; split; [split_and!; [by vm_compute; repeat constructor|by repeat constructor|simpl; lia]|]];
      apply int_formatter_words; (done || intros ??; apply elem_of_app; auto).
  - by apply int_formatter_words.
Qed.

Lemma array_str_line_width_witness :
  let a := Z.of_nat <$> seq 0 40 in
  max_list ((λ z, String.length (pretty z)) <$> a) ≤ 73 ∧
  Forall (λ l, String.length l ≤ 75) (split_nl (array_str a)).
Proof.
  intros a. assert (H : max_list ((λ z, String.length (pretty z)) <$> a) ≤ 73) by (vm_compute; lia).
  split; [exact H|]. exact (array_str_line_width a H).
Defined.

End NumpyPrint.
