(* ===== verification/Dataset.v ===== *)
(** * [load_iris()]: the data file and the [Bunch]

    Line 8 of the script calls [sklearn.datasets.load_iris()].  In
    scikit-learn 1.3 it calls [load_csv_data("iris.csv")], which reads
    the header line [n_samples,n_features,class names...], allocates
    [data = np.empty((n_samples, n_features))] and
    [target = np.empty((n_samples,), dtype=int)], and for each further
    row [ir] executes [data[i] = np.asarray(ir[:-1], dtype=np.float64)]
    and [target[i] = np.asarray(ir[-1], dtype=int)]; [load_iris] adds
    the four feature names.  [load_csv_data] and [fill_rows] model this
    with the reader of [PyText], in Python's order of evaluation.

    The abstract [Bunch] the rest of the development uses has the
    measurements in tenths of a centimetre; [load_iris X] is the bunch
    of the table [X], and [bunch_of] reads the loaded arrays as a
    [Bunch], each float standing for the number of tenths [to_tenths]
    recovers from it.  The data file's text for a table is [data_file] (and
    [iris_csv] for the iris header); the theorems say what
    [load_csv_data] does on it, for every table. *)

From Stdlib Require Import Ascii.
From S2P Require Import Prelude NumpyIndex PyText.
Import NumpyIndex PyText.

Module Dataset.

Record Bunch := mk_bunch {
  data : matrix;
  target : list Z;
  feature_names : list string;
  target_names : list string
}.

Definition iris_target : list Z :=
  replicate 50 0%Z ++ replicate 50 1%Z ++ replicate 50 2%Z.

Definition iris_feature_names : list string :=
  ["sepal length (cm)"; "sepal width (cm)"; "petal length (cm)"; "petal width (cm)"].

Definition iris_target_names : list string := ["setosa"; "versicolor"; "virginica"].

(** [load_iris()], for the measurement rows [measurements] of the data file. *)
Definition load_iris (measurements : list (list Z)) : Bunch :=
  mk_bunch (mk_matrix 4 measurements) iris_target iris_feature_names iris_target_names.

(** The shape of the measurement file: 150 rows of 4 values. *)
Definition iris_shape (measurements : list (list Z)) : Prop :=
  length measurements = 150 ∧ Forall (λ r, length r = 4) measurements.

(** A well-formed bunch: one target per row, one name per column, every
    target a valid class index. *)
Definition bunch_wf (b : Bunch) : Prop :=
  matrix_wf (data b) ∧ length (rows (data b)) = length (target b) ∧
  ncols (data b) = length (feature_names b) ∧
  Forall (λ y, 0 ≤ y < Z.of_nat (length (target_names b)))%Z (target b).

(** ** [load_csv_data(data_file_name="iris.csv")] *)

(** What [load_csv_data] returns: the [float64] array of shape
    [(n_samples, n_features)] as rows ([None] for a row [np.empty] left
    uninitialised), the [int] array of targets ([None] likewise) and the
    [target_names]. *)
Record csv_data := mk_csv_data {
  cd_data : list (option (list pyfloat));
  cd_target : list (option Z);
  cd_target_names : list string;
  cd_n_features : nat
}.

(** [l[i]] for [i >= 0]. *)
Definition py_getitem {A} (l : list A) (i : nat) : result A :=
  match l !! i with Some x => Ok x | None => raise! (IndexError "list index out of range") end.

(** [l[-1]]. *)
Definition py_last {A} (l : list A) : result A :=
  match last l with Some x => Ok x | None => raise! (IndexError "list index out of range") end.

(** [l[:-1]]. *)
Definition py_init {A} (l : list A) : list A := take (length l - 1) l.

(** [np.empty((n_samples, n_features))]: rows not yet written. *)
Definition np_empty (n_samples n_features : Z) : result (list (option (list pyfloat))) :=
  if (n_samples <? 0)%Z || (n_features <? 0)%Z then raise! (ValueError "negative dimensions are not allowed")
  else Ok (replicate (Z.to_nat n_samples) None).

(** The index check of [a[i] = ...] on an array of length [n]. *)
Definition np_check_index (n i : nat) : result () :=
  if bool_decide (i < n) then Ok ()
  else raise! (IndexError ("index " +:+ py_str_int (Z.of_nat i) +:+ " is out of bounds for axis 0 with size " +:+
                           py_str_int (Z.of_nat n))).

(** Copying an array of shape [(k,)] into a row of shape [(nf,)]: equal
    shapes, or a single value broadcast. *)
Definition np_broadcast_row (nf : nat) (vals : list pyfloat) : result (list pyfloat) :=
  if bool_decide (length vals = nf) then Ok vals
  else match vals with
       | [v] => Ok (replicate nf v)
       | _ => raise! (ValueError ("could not broadcast input array from shape (" +:+ py_str_int (Z.of_nat (length vals)) +:+
                                  ",) into shape (" +:+ py_str_int (Z.of_nat nf) +:+ ",)"))
       end.

(** [data[i] = vals]: the index first, then the broadcast. *)
Definition np_setitem_row (nf : nat) (data : list (option (list pyfloat))) (i : nat) (vals : list pyfloat)
  : result (list (option (list pyfloat))) :=
  _ ← np_check_index (length data) i;
  row ← np_broadcast_row nf vals;
  Ok (<[i := Some row]> data).

(** The cast of a Python [int] to [int64]. *)
Definition np_int64 (y : Z) : result Z :=
  if (- 2 ^ 63 <=? y)%Z && (y <? 2 ^ 63)%Z then Ok y
  else raise! (OverflowError "Python int too large to convert to C long").

(** [target[i] = y]. *)
Definition np_setitem_target (target : list (option Z)) (i : nat) (y : Z) : result (list (option Z)) :=
  _ ← np_check_index (length target) i; Ok (<[i := Some y]> target).

(** The loop [for i, ir in enumerate(data_file)], from row [i]:
    [data[i] = np.asarray(ir[:-1], dtype=np.float64)] then
    [target[i] = np.asarray(ir[-1], dtype=int)], each right-hand side
    evaluated before its assignment. *)
Fixpoint fill_rows (nf i : nat) (rows : list (list string)) (data : list (option (list pyfloat)))
    (target : list (option Z)) : result (list (option (list pyfloat)) * list (option Z)) :=
  match rows with
  | [] => Ok (data, target)
  | ir :: rows' =>
      vals ← mapM py_float (py_init ir);
      data' ← np_setitem_row nf data i vals;
      y_s ← py_last ir;
      y ← py_int y_s;
      y' ← np_int64 y;
      target' ← np_setitem_target target i y';
      fill_rows nf (S i) rows' data' target'
  end.

(** [load_csv_data]: the header line gives [n_samples], [n_features]
    and the target names; the error the reader stops with is raised
    when the loop asks for the next row after the last good one. *)
Definition load_csv_data (text : string) : result csv_data :=
  let '(recs, err) := csv_records text in
  match recs with
  | [] => raise! (default StopIteration err)
  | temp :: rows =>
      s0 ← py_getitem temp 0; n_samples ← py_int s0;
      s1 ← py_getitem temp 1; n_features ← py_int s1;
      let target_names := drop 2 temp in
      data ← np_empty n_samples n_features;
      let target := replicate (Z.to_nat n_samples) None in
      '(data', target') ← fill_rows (Z.to_nat n_features) 0 rows data target;
      match err with
      | Some e => raise! e
      | None => Ok (mk_csv_data data' target' target_names (Z.to_nat n_features))
      end
  end.

(** [load_iris()]: the arrays of [load_csv_data] and the fixed feature
    names. *)
Record raw_bunch := mk_raw_bunch { raw_data : csv_data; raw_feature_names : list string }.

Definition load_iris_file (text : string) : result raw_bunch :=
  d ← load_csv_data text; Ok (mk_raw_bunch d iris_feature_names).

(** ** From the [float64] arrays to the values in tenths *)

(** The [Bunch] the arrays denote, when every row and target has been
    written and every value is a whole number of tenths. *)
Definition bunch_of (b : raw_bunch) : option Bunch :=
  rows ← mapM (λ r, r ≫= mapM to_tenths) (cd_data (raw_data b));
  target ← mapM id (cd_target (raw_data b));
  Some (mk_bunch (mk_matrix (cd_n_features (raw_data b)) rows) target (raw_feature_names b)
                 (cd_target_names (raw_data b))).

(** ** The data file *)

(** The text of [iris.csv]: a header line [n_samples,n_features,names],
    then one line per sample, its values then its class. *)
Definition data_row (xs : list Z) (y : Z) : list string := (render_tenths <$> xs) ++ [py_str_int y].

Definition data_file (eol : list ascii) (n nf : Z) (names : list string) (X : list (list Z)) (T : list Z) : string :=
  render_csv eol ((py_str_int n :: py_str_int nf :: names) :: zip_with data_row X T).

Definition iris_csv (eol : list ascii) (X : list (list Z)) : string :=
  data_file eol 150 4 iris_target_names X iris_target.

Definition tenths_row (xs : list Z) : list pyfloat := tenths_float <$> xs.

(** A number of at most a thousand digits. *)
Definition small (z : Z) : Prop := (Z.abs z < 10 ^ 1000)%Z.

(** A number of tenths below [2^48] in magnitude, which its float stands
    for ([to_tenths]). *)
Definition tenths_ok (v : Z) : Prop := (Z.abs v < 2 ^ 48)%Z.

#[export] Instance tenths_ok_dec v : Decision (tenths_ok v).
Proof. unfold tenths_ok. apply _. Defined.

#[export] Instance small_dec z : Decision (small z).
Proof. unfold small. apply _. Defined.

(** A table the file can hold: one class per row, [nf] values per row. *)
Definition table_ok (nf : nat) (X : list (list Z)) (T : list Z) : Prop :=
  length T = length X ∧ Forall (λ r, length r = nf ∧ Forall tenths_ok r) X ∧
  Forall (λ y, - 2 ^ 63 ≤ y < 2 ^ 63)%Z T.

Lemma py_init_snoc {A} (l : list A) x : py_init (l ++ [x]) = l.
Proof. unfold py_init. rewrite length_app, take_app_le by (simpl; lia). simpl. rewrite Nat.add_sub. apply take_ge. lia. Qed.

Lemma py_last_snoc {A} (l : list A) x : py_last (l ++ [x]) = Ok x.
Proof. unfold py_last. by rewrite last_snoc. Qed.

Lemma mapM_py_float_tenths xs : mapM py_float (render_tenths <$> xs) = Ok (tenths_row xs).
Proof.
  induction xs as [|v xs IH]; [done|]. rewrite fmap_cons. cbn [mapM].
  by rewrite py_float_render_tenths, IH.
Qed.

Lemma np_check_index_ok n i : i < n → np_check_index n i = Ok ().
Proof. intros. unfold np_check_index. rewrite bool_decide_true; [done|lia]. Qed.

(** A row of the file whose index is in range is written. *)
Lemma fill_rows_cons_ok nf i xs y rows data target :
  length xs = nf → (- 2 ^ 63 ≤ y < 2 ^ 63)%Z → i < length data → i < length target →
  fill_rows nf i (data_row xs y :: rows) data target
  = fill_rows nf (S i) rows (<[i := Some (tenths_row xs)]> data) (<[i := Some y]> target).
Proof.
  intros Hxs Hy Hd Ht. unfold data_row. cbn [fill_rows].
  rewrite py_init_snoc, mapM_py_float_tenths. cbn [mbind result_bind].
  unfold np_setitem_row. rewrite np_check_index_ok by done. cbn [mbind result_bind].
  unfold np_broadcast_row. rewrite bool_decide_true by (unfold tenths_row; by rewrite length_fmap).
  cbn [mbind result_bind]. rewrite py_last_snoc. cbn [mbind result_bind].
  rewrite py_int_str. cbn [mbind result_bind].
  unfold np_int64. rewrite (proj2 (andb_true_iff _ _)) by lia. cbn [mbind result_bind].
  unfold np_setitem_target. by rewrite np_check_index_ok.
Qed.

(** A row of the file past the end of the arrays raises [IndexError]. *)
Lemma fill_rows_cons_out nf i xs y rows data target :
  length data ≤ i →
  fill_rows nf i (data_row xs y :: rows) data target
  = raise! (IndexError ("index " +:+ py_str_int (Z.of_nat i) +:+ " is out of bounds for axis 0 with size " +:+
                        py_str_int (Z.of_nat (length data)))).
Proof.
  intros Hd. unfold data_row. cbn [fill_rows].
  rewrite py_init_snoc, mapM_py_float_tenths. cbn [mbind result_bind].
  unfold np_setitem_row, np_check_index. by rewrite bool_decide_false by lia.
Qed.

Lemma table_ok_cons nf xs X T :
  table_ok nf (xs :: X) T →
  ∃ y T', T = y :: T' ∧ length xs = nf ∧ (- 2 ^ 63 ≤ y < 2 ^ 63)%Z ∧ table_ok nf X T'.
Proof.
  intros (Hlen & HX & HT). destruct T as [|y T']; [done|].
  apply Forall_cons in HX as [[??] ?]. apply Forall_cons in HT as [[??] ?].
  exists y, T'. repeat split; (done || simpl in Hlen; lia).
Qed.

Lemma insert_pad {A} (pre : list A) x y k i :
  i = length pre → <[i := x]> (pre ++ replicate (S k) y) = (pre ++ [x]) ++ replicate k y.
Proof. intros ->. rewrite insert_app_r_alt, Nat.sub_diag by done. by rewrite <- app_assoc. Qed.

(** The rows of the file are written in order into arrays with room for
    them; the rest stays uninitialised. *)
Lemma fill_rows_table nf X T pre_d pre_t k :
  table_ok nf X T → length pre_d = length pre_t → length X ≤ k →
  fill_rows nf (length pre_d) (zip_with data_row X T) (pre_d ++ replicate k None) (pre_t ++ replicate k None)
  = Ok (pre_d ++ ((λ xs, Some (tenths_row xs)) <$> X) ++ replicate (k - length X) None,
        pre_t ++ (Some <$> T) ++ replicate (k - length X) None).
Proof.
  revert T pre_d pre_t k. induction X as [|xs X IH]; intros T pre_d pre_t k Htab Hpre Hk.
  - destruct Htab as [HT _]. destruct T; [|done]. simpl. by rewrite Nat.sub_0_r.
  - destruct (table_ok_cons _ _ _ _ Htab) as (y & T' & -> & Hxs & Hy & Htab').
    destruct k as [|k]; [simpl in Hk; lia|]. cbn [zip_with].
    rewrite fill_rows_cons_ok by (done || rewrite length_app, length_replicate; lia).
    rewrite !(insert_pad _ _ _ _ (length pre_d)) by done.
    replace (S (length pre_d)) with (length (pre_d ++ [Some (tenths_row xs)])) by (rewrite length_app; simpl; lia).
    rewrite IH by (done || rewrite ?length_app; simpl in *; lia).
    by rewrite <- !app_assoc.
Qed.

(** A row past the [n_samples] the header announced raises
    [IndexError]. *)
Lemma fill_rows_table_overflow nf X T pre_d pre_t k :
  table_ok nf X T → length pre_d = length pre_t → k < length X →
  fill_rows nf (length pre_d) (zip_with data_row X T) (pre_d ++ replicate k None) (pre_t ++ replicate k None)
  = raise! (IndexError ("index " +:+ py_str_int (Z.of_nat (length pre_d + k)) +:+
                        " is out of bounds for axis 0 with size " +:+ py_str_int (Z.of_nat (length pre_d + k)))).
Proof.
  revert T pre_d pre_t k. induction X as [|xs X IH]; intros T pre_d pre_t k Htab Hpre Hk; [simpl in Hk; lia|].
  destruct (table_ok_cons _ _ _ _ Htab) as (y & T' & -> & Hxs & Hy & Htab'). cbn [zip_with].
  destruct k as [|k].
  - rewrite fill_rows_cons_out by (rewrite length_app; simpl; lia).
    by rewrite length_app, !Nat.add_0_r.
  - rewrite fill_rows_cons_ok by (done || rewrite length_app, length_replicate; lia).
    rewrite !(insert_pad _ _ _ _ (length pre_d)) by done.
    replace (S (length pre_d)) with (length (pre_d ++ [Some (tenths_row xs)])) by (rewrite length_app; simpl; lia).
    rewrite IH by (done || rewrite ?length_app; simpl in *; lia).
    rewrite length_app. simpl. by replace (length pre_d + 1 + k) with (length pre_d + S k) by lia.
Qed.

Lemma small_int64 (y : Z) : (- 2 ^ 63 ≤ y < 2 ^ 63)%Z → small y.
Proof. unfold small. lia. Qed.

(** Every line of a data file is a record [csv.writer] writes without
    quotes. *)
Lemma data_rows_plain nf X T :
  table_ok nf X T → Forall (λ r, Forall plain_field r ∧ r ≠ [""]) (zip_with data_row X T).
Proof.
  revert T. induction X as [|xs X IH]; intros T Htab; [by destruct T|].
  destruct (table_ok_cons _ _ _ _ Htab) as (y & T' & -> & _ & Hy & Htab').
  destruct Htab as (_ & HX & _). apply Forall_cons in HX as [[_ Hxs] _].
  constructor; [|by apply IH]. split.
  - apply Forall_app_2; [|constructor; [by apply plain_field_str_int, small_int64|done]].
    apply Forall_fmap. eapply Forall_impl; [done|]. intros v Hv. apply plain_field_render_tenths.
    unfold tenths_ok in Hv. assert (2 ^ 48 < 10 ^ 1000)%Z by (apply (Z.lt_trans _ (10 ^ 48)); [apply Z.pow_lt_mono_l|apply Z.pow_lt_mono_r]; lia). lia.
  - unfold data_row. destruct xs as [|v [|w xs]]; [|done|done].
    intros [= ?]. by apply (py_str_int_nonempty y).
Qed.

Lemma csv_records_data_file eol n nf names X T :
  line_end eol → Forall plain_field names → small n → small nf → table_ok (Z.to_nat nf) X T →
  csv_records (data_file eol n nf names X T)
  = ((py_str_int n :: py_str_int nf :: names) :: zip_with data_row X T, None).
Proof.
  intros Heol Hnames Hn Hnf Htab. apply csv_records_render_csv; [done|].
  constructor; [|by eapply data_rows_plain]. split; [|done].
  repeat constructor; [by apply plain_field_str_int..|done].
Qed.

(** The header [n_samples,n_features,names...] is read; the rows are
    then written into arrays of [n_samples] rows. *)
Lemma load_csv_data_header text n nf names rows :
  csv_records text = ((py_str_int n :: py_str_int (Z.of_nat nf) :: names) :: rows, None) → (0 ≤ n)%Z →
  load_csv_data text
  = '(d, t) ← fill_rows nf 0 rows (replicate (Z.to_nat n) None) (replicate (Z.to_nat n) None);
    Ok (mk_csv_data d t names nf).
Proof.
  intros Hrecs Hn0. unfold load_csv_data. rewrite Hrecs. cbn [py_getitem lookup list_lookup mbind result_bind].
  rewrite !py_int_str. cbn [mbind result_bind drop].
  unfold np_empty. rewrite (proj2 (Z.ltb_ge n 0)), (proj2 (Z.ltb_ge (Z.of_nat nf) 0)) by lia.
  cbn [orb mbind result_bind]. rewrite Nat2Z.id.
  by destruct (fill_rows _ _ _ _ _) as [[??]|].
Qed.

Lemma load_csv_data_file eol n nf names X T :
  line_end eol → Forall plain_field names → small n → (0 ≤ n)%Z → small (Z.of_nat nf) → table_ok nf X T →
  load_csv_data (data_file eol n (Z.of_nat nf) names X T)
  = '(d, t) ← fill_rows nf 0 (zip_with data_row X T) (replicate (Z.to_nat n) None) (replicate (Z.to_nat n) None);
    Ok (mk_csv_data d t names nf).
Proof.
  intros Heol Hnames Hn Hn0 Hnf Htab. apply load_csv_data_header; [|done].
  apply csv_records_data_file; rewrite ?Nat2Z.id; done.
Qed.

(** The loop over [rows1 ++ rows2] runs over [rows1], then over [rows2]
    from the next index. *)
Lemma fill_rows_app nf i rows1 rows2 data target :
  fill_rows nf i (rows1 ++ rows2) data target
  = '(d, t) ← fill_rows nf i rows1 data target; fill_rows nf (i + length rows1) rows2 d t.
Proof.
  revert i data target. induction rows1 as [|ir rows1 IH]; intros i data target.
  - cbn. by rewrite Nat.add_0_r.
  - cbn [app fill_rows mbind result_bind].
    repeat match goal with |- context [mbind _ ?m] =>
      lazymatch m with
      | fill_rows _ _ _ _ _ => fail
      | _ => destruct m; cbn [mbind result_bind]; [|done]
      end end.
    rewrite IH. cbn [length]. by rewrite Nat.add_succ_r.
Qed.

(** A data file with at least as many rows as [n_samples] announces:
    the rows are read in order; the arrays' remaining rows stay
    uninitialised. *)
Lemma load_csv_data_padded eol n nf names X T :
  line_end eol → Forall plain_field names → small n → small (Z.of_nat nf) → table_ok nf X T →
  (Z.of_nat (length X) ≤ n)%Z →
  load_csv_data (data_file eol n (Z.of_nat nf) names X T)
  = Ok (mk_csv_data (((λ xs, Some (tenths_row xs)) <$> X) ++ replicate (Z.to_nat n - length X) None)
                    ((Some <$> T) ++ replicate (Z.to_nat n - length X) None) names nf).
Proof.
  intros Heol Hnames Hn Hnf Htab Hlen. rewrite load_csv_data_file by (done || lia).
  pose proof (fill_rows_table nf X T [] [] (Z.to_nat n)) as Hfill. cbn [length app] in Hfill.
  rewrite Hfill by (done || lia). done.
Qed.

Lemma to_tenths_tenths_row xs : Forall tenths_ok xs → mapM to_tenths (tenths_row xs) = Some xs.
Proof.
  induction 1 as [|v xs Hv _ IH]; [done|]. unfold tenths_row in *. rewrite fmap_cons. cbn [mapM].
  by rewrite to_tenths_tenths_float, IH.
Qed.

Lemma mapM_rows_tenths X :
  Forall (Forall tenths_ok) X →
  mapM (λ r : option (list pyfloat), r ≫= mapM to_tenths) ((λ xs, Some (tenths_row xs)) <$> X) = Some X.
Proof.
  induction 1 as [|xs X Hxs _ IH]; [done|]. rewrite fmap_cons. cbn [mapM].
  cbn [mbind option_bind]. by rewrite to_tenths_tenths_row, IH.
Qed.

Lemma mapM_Some_id {A} (T : list A) : mapM id (Some <$> T) = Some T.
Proof. induction T as [|y T IH]; [done|]. rewrite fmap_cons. cbn [mapM]. by rewrite IH. Qed.

Lemma mapM_option_app_None {A B} (f : A → option B) l1 x l2 :
  f x = None → mapM f (l1 ++ x :: l2) = None.
Proof.
  intros Hx. induction l1 as [|a l1 IH]; cbn [app mapM].
  - by rewrite Hx.
  - rewrite IH. cbn [mbind option_bind]. by destruct (f a).
Qed.

Lemma iris_table_ok X : iris_shape X → Forall (Forall tenths_ok) X → table_ok 4 X iris_target.
Proof.
  intros [Hlen Hrows] Hsmall. split_and!.
  - by rewrite Hlen.
  - apply Forall_and; split; done.
  - unfold iris_target. repeat apply Forall_app_2; apply Forall_replicate; lia.
Qed.

Lemma iris_target_names_plain : Forall plain_field iris_target_names.
Proof. repeat constructor; vm_compute; congruence. Qed.

(** ** Properties of the loader *)

(** C29. Loading the data file: when [iris.csv] holds the 150 x 4
    measurement table [X] (values in tenths below [2^48] in magnitude,
    written with one decimal) and the 150 classes, with ["\n"] or
    ["\r\n"] line ends, [load_iris()] returns without raising, and its
    arrays are the [Bunch] [load_iris X] the script is run with: every
    float is the binary64 float nearest its value, which it stands for. *)
Theorem load_iris_file_refines eol X :
  line_end eol → iris_shape X → Forall (Forall tenths_ok) X →
  ∃ b, load_iris_file (iris_csv eol X) = Ok b ∧ bunch_of b = Some (load_iris X).
Proof.
  intros Heol Hshape Hsmall. pose proof (iris_table_ok X Hshape Hsmall) as Htab.
  unfold load_iris_file, iris_csv. change 4%Z with (Z.of_nat 4).
  rewrite load_csv_data_padded by (done || apply iris_target_names_plain || destruct Hshape; lia).
  eexists. split; [done|]. destruct Hshape as [-> _]. change (Z.to_nat 150) with 150.
  rewrite Nat.sub_diag. cbn [replicate]. rewrite !app_nil_r.
  unfold bunch_of. cbn [raw_data cd_data cd_target raw_feature_names cd_target_names cd_n_features].
  by rewrite mapM_rows_tenths, mapM_Some_id by exact Hsmall.
Qed.

(** C31. A data file shorter than its header says: when the header
    announces [n] samples and the file has fewer rows, [load_csv_data]
    raises nothing; the rows after the last one read are the
    uninitialised rows of [np.empty], and the arrays denote no [Bunch]. *)
Theorem load_short_file_uninitialised eol n nf names X T :
  line_end eol → Forall plain_field names → small n → small (Z.of_nat nf) → table_ok nf X T →
  (Z.of_nat (length X) < n)%Z →
  ∃ d, load_csv_data (data_file eol n (Z.of_nat nf) names X T) = Ok d ∧
       drop (length X) (cd_data d) = replicate (Z.to_nat n - length X) None ∧
       ∀ fnames, bunch_of (mk_raw_bunch d fnames) = None.
Proof.
  intros Heol Hnames Hn Hnf Htab Hlen. rewrite load_csv_data_padded by (done || lia).
  eexists. split; [done|]. cbn [cd_data]. split.
  - by rewrite drop_app_length' by (by rewrite length_fmap).
  - intros fnames. unfold bunch_of. cbn [raw_data cd_data].
    destruct (Z.to_nat n - length X) as [|k] eqn:Hk; [lia|].
    by rewrite replicate_S, mapM_option_app_None.
Qed.

(** C32. A data file longer than its header says: when the header
    announces [n] samples and the file has more rows, writing row [n]
    raises [IndexError: index n is out of bounds for axis 0 with size n]. *)
Theorem load_extra_row_index_error eol n nf names X T :
  line_end eol → Forall plain_field names → small n → small (Z.of_nat nf) → table_ok nf X T →
  (0 ≤ n < Z.of_nat (length X))%Z →
  load_csv_data (data_file eol n (Z.of_nat nf) names X T)
  = raise! (IndexError ("index " +:+ py_str_int n +:+ " is out of bounds for axis 0 with size " +:+ py_str_int n)).
Proof.
  intros Heol Hnames Hn Hnf Htab Hlen. rewrite load_csv_data_file by (done || lia).
  pose proof (fill_rows_table_overflow nf X T [] [] (Z.to_nat n)) as Hfill. cbn [length app] in Hfill.
  rewrite Hfill by (done || lia). cbn. by rewrite Z2Nat.id by lia.
Qed.

(** C33. A data file whose first line is blank: [csv.reader] yields
    [[]] for it, and [int(temp[0])] raises [IndexError], whatever
    follows. *)
Theorem load_blank_header_index_error (rest : string) :
  load_csv_data (String LF rest) = raise! (IndexError "list index out of range").
Proof.
  unfold load_csv_data, csv_records. cbn [String.list_ascii_of_string].
  change (translate_newlines (LF :: ?l)) with (LF :: translate_newlines l).
  unfold split_lines. change (split_lines_from [] (LF :: ?l)) with ([LF] :: split_lines_from [] l).
  cbn [read_lines]. change (feed_line reader_reset [LF]) with (Ok (mk_reader START_RECORD [] [])).
  cbv iota beta. rewrite bool_decide_true by done.
  by destruct (read_lines _ _).
Qed.

Lemma load_iris_wf X : iris_shape X → bunch_wf (load_iris X).
Proof.
  intros [Hlen Hrows]. split_and!; [done|simpl; by rewrite Hlen|done|].
  change (Forall (λ y, 0 ≤ y < 3)%Z iris_target). unfold iris_target.
  repeat apply Forall_app_2; apply Forall_replicate; lia.
Qed.


(** C36. Order of evaluation in [data[i] = np.asarray(ir[:-1], ...)]:
    when, after well-formed rows, a row has a measurement [float()]
    rejects, [load_csv_data] raises that conversion's [ValueError], also
    when the row lies past the [n_samples] of the header, since the
    right-hand side is evaluated before the index check of the
    assignment. *)
Theorem load_bad_value_raises eol n nf names X T r e :
  line_end eol → Forall plain_field names → small n → small (Z.of_nat nf) → table_ok nf X T →
  (Z.of_nat (length X) ≤ n)%Z → Forall plain_field r → r ≠ [""] →
  mapM py_float (py_init r) = Err e →
  load_csv_data (render_csv eol ((py_str_int n :: py_str_int (Z.of_nat nf) :: names) ::
                                 zip_with data_row X T ++ [r])) = Err e.
Proof.
  intros Heol Hnames Hn Hnf Htab Hlen Hr Hne He.
  rewrite (load_csv_data_header _ n nf names (zip_with data_row X T ++ [r])); [|apply csv_records_render_csv|lia].
  - rewrite fill_rows_app.
    pose proof (fill_rows_table nf X T [] [] (Z.to_nat n)) as Hfill. cbn [length app] in Hfill.
    rewrite Hfill by (done || lia). cbn [mbind result_bind fill_rows]. by rewrite He.
  - done.
  - constructor; [split; [|done]|].
    { constructor; [by apply plain_field_str_int|]. constructor; [by apply plain_field_str_int|done]. }
    apply Forall_app. split; [by eapply data_rows_plain|by repeat constructor].
Qed.

(** ** Witnesses *)

(** A table of the shape of the iris measurements. *)
Definition toy_iris : list (list Z) :=
  (λ y, [50 + 10 * y; 30; 15 + 30 * y; 2 + 10 * y]%Z) <$> iris_target.

Lemma load_iris_file_refines_witness :
  line_end [LF] ∧ iris_shape toy_iris ∧ Forall (Forall tenths_ok) toy_iris ∧
  ∃ b, load_iris_file (iris_csv [LF] toy_iris) = Ok b ∧ bunch_of b = Some (load_iris toy_iris).
Proof.
  assert (H1 : line_end [LF]) by (left; reflexivity).
  assert (H2 : iris_shape toy_iris) by (apply (bool_decide_unpack _); vm_compute; reflexivity).
  assert (H3 : Forall (Forall tenths_ok) toy_iris) by (apply (bool_decide_unpack _); vm_compute; reflexivity).
  split; [exact H1|]. split; [exact H2|]. split; [exact H3|].
  exact (load_iris_file_refines [LF] toy_iris H1 H2 H3).
Defined.

Lemma load_short_file_uninitialised_witness :
  line_end [CR; LF] ∧ Forall plain_field ["a"; "b"] ∧ small 3 ∧ small (Z.of_nat 2) ∧
  table_ok 2 ([[51; 35]])%Z [1]%Z ∧ (Z.of_nat (length ([[51; 35]])%Z) < 3)%Z ∧
  ∃ d, load_csv_data (data_file [CR; LF] 3 (Z.of_nat 2) ["a"; "b"] ([[51; 35]])%Z [1]%Z) = Ok d ∧
       drop 1 (cd_data d) = replicate 2 None ∧ ∀ fnames, bunch_of (mk_raw_bunch d fnames) = None.
Proof.
  assert (H1 : line_end [CR; LF]) by (right; reflexivity).
  assert (H2 : Forall plain_field ["a"; "b"]) by (apply (bool_decide_unpack _); vm_compute; reflexivity).
  assert (H3 : small 3) by (unfold small; simpl; lia).
  assert (H4 : small (Z.of_nat 2)) by (unfold small; simpl; lia).
  assert (H5 : table_ok 2 ([[51; 35]])%Z [1]%Z) by (apply (bool_decide_unpack _); vm_compute; reflexivity).
  assert (H6 : (Z.of_nat (length ([[51; 35]])%Z) < 3)%Z) by (simpl; lia).
  do 6 (split; [assumption|]).
  exact (load_short_file_uninitialised [CR; LF] 3 2 ["a"; "b"] ([[51; 35]])%Z [1]%Z H1 H2 H3 H4 H5 H6).
Defined.

Lemma load_extra_row_index_error_witness :
  line_end [LF] ∧ Forall plain_field ["a"] ∧ small 1 ∧ small (Z.of_nat 2) ∧
  table_ok 2 ([[51; 35]; [70; 32]])%Z [0; 1]%Z ∧ (0 ≤ 1 < Z.of_nat (length ([[51; 35]; [70; 32]])%Z))%Z ∧
  load_csv_data (data_file [LF] 1 (Z.of_nat 2) ["a"] ([[51; 35]; [70; 32]])%Z [0; 1]%Z)
  = raise! (IndexError ("index " +:+ py_str_int 1 +:+ " is out of bounds for axis 0 with size " +:+ py_str_int 1)).
Proof.
  assert (H1 : line_end [LF]) by (left; reflexivity).
  assert (H2 : Forall plain_field ["a"]) by (apply (bool_decide_unpack _); vm_compute; reflexivity).
  assert (H3 : small 1) by (unfold small; simpl; lia).
  assert (H4 : small (Z.of_nat 2)) by (unfold small; simpl; lia).
  assert (H5 : table_ok 2 ([[51; 35]; [70; 32]])%Z [0; 1]%Z) by (apply (bool_decide_unpack _); vm_compute; reflexivity).
  assert (H6 : (0 ≤ 1 < Z.of_nat (length ([[51; 35]; [70; 32]])%Z))%Z) by (simpl; lia).
  do 6 (split; [assumption|]).
  exact (load_extra_row_index_error [LF] 1 2 ["a"] ([[51; 35]; [70; 32]])%Z [0; 1]%Z H1 H2 H3 H4 H5 H6).
Defined.

Lemma load_bad_value_raises_witness :
  line_end [LF] ∧ Forall plain_field ["a"] ∧ small 1 ∧ small (Z.of_nat 2) ∧
  table_ok 2 ([[51; 35]])%Z [0%Z] ∧ (Z.of_nat (length ([[51; 35]])%Z) ≤ 1)%Z ∧
  Forall plain_field ["5.1"; "x"; "1"] ∧ ["5.1"; "x"; "1"] ≠ [""] ∧
  mapM py_float (py_init ["5.1"; "x"; "1"]) = Err (ValueError "could not convert string to float: 'x'") ∧
  load_csv_data (render_csv [LF] ((py_str_int 1 :: py_str_int (Z.of_nat 2) :: ["a"]) ::
                                  zip_with data_row ([[51; 35]])%Z [0%Z] ++ [["5.1"; "x"; "1"]]))
  = Err (ValueError "could not convert string to float: 'x'").
Proof.
  assert (H1 : line_end [LF]) by (left; reflexivity).
  assert (H2 : Forall plain_field ["a"]) by (apply (bool_decide_unpack _); vm_compute; reflexivity).
  assert (H3 : small 1) by (unfold small; simpl; lia).
  assert (H4 : small (Z.of_nat 2)) by (unfold small; simpl; lia).
  assert (H5 : table_ok 2 ([[51; 35]])%Z [0%Z]) by (apply (bool_decide_unpack _); vm_compute; reflexivity).
  assert (H6 : (Z.of_nat (length ([[51; 35]])%Z) ≤ 1)%Z) by (simpl; lia).
  assert (H7 : Forall plain_field ["5.1"; "x"; "1"]) by (apply (bool_decide_unpack _); vm_compute; reflexivity).
  assert (H8 : ["5.1"; "x"; "1"] ≠ [""]) by discriminate.
  assert (H9 : mapM py_float (py_init ["5.1"; "x"; "1"]) = Err (ValueError "could not convert string to float: 'x'"))
    by (vm_compute; reflexivity).
  do 9 (split; [assumption|]).
  exact (load_bad_value_raises [LF] 1 2 ["a"] _ _ _ _ H1 H2 H3 H4 H5 H6 H7 H8 H9).
Defined.

End Dataset.
