(* ===== verification/Tree.v ===== *)
(** * The fitted decision tree, its prediction, and the estimator interface

    scikit-learn stores a fitted tree in [clf.tree_] (arrays indexed by
    node id: children, feature, threshold, value).  Here a tree is an
    inductive value with the same fields at each node: a split node has
    its feature, its threshold and its class counts ([value]), a leaf its
    class counts.  The threshold is kept doubled ([thr2]): a sample goes
    left when [X[f] <= thr2 / 2], i.e. [2 X[f] <= thr2].

    [predict] (line 27 of the script) is [DecisionTreeClassifier.predict]:
    [_validate_X_predict] (at least one row, the number of features seen by
    [fit]), then [tree_.apply] descends to a leaf, and the answer is
    [classes_.take(np.argmax(value))].

    The script uses the classifier only through [fit] and [predict]; the
    [Estimator] class states these two operations and [EstimatorLaws] the
    properties the script relies on.  [Cart] provides the instance. *)

From S2P Require Import Prelude NumpyIndex.
From stdpp Require Import sorting.
Import NumpyIndex.

Module Tree.

Inductive tree : Type :=
| Leaf (value : list nat)
| Node (feature : nat) (thr2 : Z) (value : list nat) (left right : tree).

(** [tree_.node_count]. *)
Fixpoint node_count (t : tree) : nat :=
  match t with Leaf _ => 1 | Node _ _ _ l r => S (node_count l + node_count r) end.

(** [tree_.value] of the root of [t]. *)
Definition value_of (t : tree) : list nat :=
  match t with Leaf v | Node _ _ v _ _ => v end.

(** The counts of every split node are the sums of its children's counts. *)
Fixpoint value_additive (t : tree) : Prop :=
  match t with
  | Leaf _ => True
  | Node _ _ v l r => v = zip_with plus (value_of l) (value_of r) ∧ value_additive l ∧ value_additive r
  end.

(** [tree_.max_depth]: the depth of the deepest leaf, the root at depth 0. *)
Fixpoint tree_depth (t : tree) : nat :=
  match t with Leaf _ => 0 | Node _ _ _ l r => S (tree_depth l `max` tree_depth r) end.

(** [tree_.n_leaves]. *)
Fixpoint n_leaves (t : tree) : nat :=
  match t with Leaf _ => 1 | Node _ _ _ l r => n_leaves l + n_leaves r end.

(** The arrays of [tree_] agree with a classifier of [nc] classes and [nf]
    features: every node's [value] has one count per class and every
    split node's [feature] indexes a column. *)
Fixpoint tree_wf (nc nf : nat) (t : tree) : Prop :=
  match t with
  | Leaf v => length v = nc
  | Node f _ v l r => f < nf ∧ length v = nc ∧ tree_wf nc nf l ∧ tree_wf nc nf r
  end.

(** [sum c^2] of a class-count vector, in binary integers (the Gini
    impurity is [1 - sum c^2 / n^2]). *)
Definition sq_sum (v : list nat) : Z := foldr (λ c acc, Z.of_nat c * Z.of_nat c + acc)%Z 0%Z v.

(** [X[i, f]] for the row [x]. *)
Definition fval (x : list Z) (f : nat) : Z := x !!! f.

(** The test of a split node: [X[i, feature] <= threshold]. *)
Definition goes_left (f : nat) (thr2 : Z) (x : list Z) : bool :=
  (2 * fval x f <=? thr2)%Z.

(** [tree_.apply]: descend from the root to a leaf and return its class counts. *)
Fixpoint apply (t : tree) (x : list Z) : list nat :=
  match t with
  | Leaf v => v
  | Node f thr2 _ l r => if goes_left f thr2 x then apply l x else apply r x
  end.

(** [np.argmax]: the first index of a maximal entry. *)
Fixpoint argmax_from (l : list nat) (i best bv : nat) : nat :=
  match l with
  | [] => best
  | v :: l' => if bv <? v then argmax_from l' (S i) i v else argmax_from l' (S i) best bv
  end.

Definition argmax (l : list nat) : nat :=
  match l with [] => 0 | v :: l' => argmax_from l' 1 0 v end.

(** The attributes of a fitted [DecisionTreeClassifier]. *)
Record fitted := mk_fitted {
  tree_ : tree;
  classes_ : list Z;
  n_features_in_ : nat
}.

(** The attributes of a fitted classifier agree with each other:
    [classes_] is sorted without repetition and non-empty, and [tree_]
    is a tree over [len(classes_)] classes and [n_features_in_]
    features. *)
Definition fitted_wf (clf : fitted) : Prop :=
  Sorted Z.lt (classes_ clf) ∧ classes_ clf ≠ [] ∧
  tree_wf (length (classes_ clf)) (n_features_in_ clf) (tree_ clf).

(** Python's [str] of a shape tuple [(r, c)]. *)
Definition shape_str (r c : nat) : string :=
  "(" +:+ py_str_int (Z.of_nat r) +:+ ", " +:+ py_str_int (Z.of_nat c) +:+ ")".

(** The two [ValueError]s of [check_array] on a too small array. *)
Definition min_samples_error (X : matrix) : exc :=
  ValueError ("Found array with 0 sample(s) (shape=" +:+
    shape_str (length (rows X)) (ncols X) +:+
    ") while a minimum of 1 is required by DecisionTreeClassifier.").

Definition min_features_error (X : matrix) : exc :=
  ValueError ("Found array with 0 feature(s) (shape=" +:+
    shape_str (length (rows X)) (ncols X) +:+
    ") while a minimum of 1 is required by DecisionTreeClassifier.").

(** [check_array(X)] with [ensure_min_samples = ensure_min_features = 1]. *)
Definition check_array (X : matrix) : result matrix :=
  if bool_decide (length (rows X) = 0) then raise! (min_samples_error X)
  else if bool_decide (ncols X = 0) then raise! (min_features_error X)
  else Ok X.

(** [_validate_X_predict]: [check_array], then [_check_n_features]. *)
Definition validate_X_predict (clf : fitted) (X : matrix) : result matrix :=
  X ← check_array X;
  if bool_decide (ncols X = n_features_in_ clf) then Ok X
  else raise! (ValueError ("X has " +:+ py_str_int (Z.of_nat (ncols X)) +:+
         " features, but DecisionTreeClassifier is expecting " +:+
         py_str_int (Z.of_nat (n_features_in_ clf)) +:+ " features as input.")).

(** [clf.predict(X)]. *)
Definition predict (clf : fitted) (X : matrix) : result (list Z) :=
  X ← validate_X_predict clf X;
  Ok ((λ x, classes_ clf !!! argmax (apply (tree_ clf) x)) <$> rows X).

(** ** The estimator interface used by the script *)

Class Estimator (Model : Type) := {
  est_fit : matrix → list Z → result Model;
  est_predict : Model → matrix → result (list Z)
}.

(** The properties of [fit] and [predict] that the script relies on. *)
Class EstimatorLaws (Model : Type) `{!Estimator Model} := {
  (** [fit] succeeds on a well-formed non-empty training set. *)
  est_fit_ok : ∀ X y, matrix_wf X → length (rows X) = length y →
    length (rows X) ≠ 0 → ncols X ≠ 0 → ∃ m, est_fit X y = Ok m;
  (** [predict] succeeds on non-empty input of the training width. *)
  est_predict_ok : ∀ X y m T, est_fit X y = Ok m →
    length (rows T) ≠ 0 → ncols T = ncols X → ∃ p, est_predict m T = Ok p;
  (** [predict] raises on an input with no rows. *)
  est_predict_empty : ∀ X y m T, est_fit X y = Ok m →
    length (rows T) = 0 → ∃ e, est_predict m T = Err e;
  (** One label per input row, each a label seen in training. *)
  est_predict_labels : ∀ X y m T p, est_fit X y = Ok m →
    est_predict m T = Ok p → length p = length (rows T) ∧ Forall (λ c, c ∈ y) p
}.

(** ** Lemmas on [argmax] *)

Lemma argmax_from_bound l i best bv :
  best < i → argmax_from l i best bv < i + length l.
Proof.
  revert i best bv. induction l as [|v l IH]; intros i best bv Hb; simpl; [lia|].
  destruct (bv <? v); (eapply Nat.lt_le_trans; [apply IH; lia | simpl; lia]).
Qed.

Lemma argmax_lt l : l ≠ [] → argmax l < length l.
Proof.
  destruct l as [|v l]; [done|]. intros _. simpl.
  pose proof (argmax_from_bound l 1 0 v). simpl in *. lia.
Qed.

(** The entry at [argmax_from] is at least every entry, the ones already
    seen ([pre]) and the ones still to scan, and every entry before it
    is smaller. *)
Lemma argmax_from_max l (pre : list nat) best bv :
  pre !! best = Some bv → Forall (λ w, w ≤ bv) pre →
  (∀ j w, j < best → pre !! j = Some w → w < bv) →
  ∃ rv, (pre ++ l) !! argmax_from l (length pre) best bv = Some rv ∧
        Forall (λ w, w ≤ rv) (pre ++ l) ∧
        ∀ j w, j < argmax_from l (length pre) best bv → (pre ++ l) !! j = Some w → w < rv.
Proof.
  revert pre best bv. induction l as [|v l IH]; intros pre best bv Hb Hall Hfirst; simpl.
  - rewrite app_nil_r. eauto.
  - replace (S (length pre)) with (length (pre ++ [v])) by (rewrite length_app; simpl; lia).
    rewrite (cons_middle v pre l), app_assoc.
    pose proof (lookup_lt_Some _ _ _ Hb) as Hbl.
    destruct (Nat.ltb_spec bv v).
    + replace (length pre) with (length pre + 0) at 1 by lia.
      apply IH; [by rewrite lookup_app_r, Nat.sub_diag by lia| |].
      * apply Forall_app; split; [|by repeat constructor].
        eapply Forall_impl; [done|]. simpl. lia.
      * intros j w Hj. rewrite lookup_app_l by lia. intros Hw.
        eapply Forall_lookup_1 in Hall; [|exact Hw]. lia.
    + apply IH; [by apply lookup_app_l_Some| |].
      * apply Forall_app; split; [done|by repeat constructor].
      * intros j w Hj. rewrite lookup_app_l by lia. by apply Hfirst.
Qed.

(** [np.argmax] returns the position of a maximal entry. *)
Lemma argmax_max l : l ≠ [] →
  ∃ rv, l !! argmax l = Some rv ∧ Forall (λ w, w ≤ rv) l.
Proof.
  destruct l as [|v l]; [done|]. intros _.
  destruct (argmax_from_max l [v] 0 v) as (rv & ? & ? & _); [done|by repeat constructor|lia|eauto].
Qed.

(** A count vector with a single positive entry has its argmax there. *)
Lemma argmax_single (l : list nat) c v :
  l !! c = Some v → 0 < v → (∀ k w, k ≠ c → l !! k = Some w → w = 0) →
  argmax l = c.
Proof.
  intros Hc Hv Hz. destruct (argmax_max l) as (rv & Hr & Hall); [by intros ->|].
  destruct (decide (argmax l = c)) as [|Hne]; [done|].
  pose proof (Hz _ _ Hne Hr) as ->.
  rewrite Forall_lookup in Hall. specialize (Hall _ _ Hc). lia.
Qed.

(** C18.  [np.argmax] on a non-empty count vector returns the first
    position of a maximal entry: ties between classes go to the smallest
    class index. *)
Theorem argmax_first l :
  l ≠ [] → ∃ rv, l !! argmax l = Some rv ∧ Forall (λ w, w ≤ rv) l ∧
                 ∀ j w, j < argmax l → l !! j = Some w → w < rv.
Proof.
  destruct l as [|v l]; [done|]. intros _.
  apply (argmax_from_max l [v] 0 v); [done|by repeat constructor|lia].
Qed.

Lemma argmax_first_witness :
  [3; 5; 5] ≠ [] ∧ ∃ rv, [3; 5; 5] !! argmax [3; 5; 5] = Some rv ∧ Forall (λ w, w ≤ rv) [3; 5; 5] ∧
                 ∀ j w, j < argmax [3; 5; 5] → [3; 5; 5] !! j = Some w → w < rv.
Proof. split; [discriminate|]. apply argmax_first. discriminate. Defined.

(** ** [predict] *)

Lemma predict_Ok clf T p :
  predict clf T = Ok p ↔
  length (rows T) ≠ 0 ∧ ncols T ≠ 0 ∧ ncols T = n_features_in_ clf ∧
  p = (λ x, classes_ clf !!! argmax (apply (tree_ clf) x)) <$> rows T.
Proof.
  unfold predict, validate_X_predict, check_array.
  repeat case_bool_decide; cbn [mbind result_bind]; try case_bool_decide; naive_solver.
Qed.

Lemma predict_no_rows clf T :
  length (rows T) = 0 → predict clf T = Err (min_samples_error T).
Proof. intros H. unfold predict, validate_X_predict, check_array. by rewrite bool_decide_eq_true_2. Qed.

End Tree.
