(* ===== verification/Graphviz.v ===== *)
(** * [tree.export_graphviz] (lines 32-36)

    [export_graphviz(clf, out_file=f, feature_names=..., class_names=...,
    filled=True, rounded=True, special_characters=True)] checks the number
    of feature names, then writes, one [out_file.write] call per chunk:
    the header ([head]); for each node in preorder (the node ids of
    [clf.tree_]) a node statement and, for a node with a parent, an edge
    statement from the parent, the two edges out of the root labelled
    [True] (to node 1, the left child) and [False]; and the closing brace
    ([tail]).  It returns [None].

    [export_graphviz] is defined in a Section over the label
    ([node_to_str]) and fill colour ([get_fill_color]) of a node, so that
    the structure theorem (C19) holds for any of them; the definitions of
    the same names below give scikit-learn's: the HTML-like label with
    the split test, [gini], [samples], [value] and [class] fields, and the
    colour of the majority class ([_color_brew]) blended with white by the
    margin of the two largest proportions.  They follow scikit-learn 1.3,
    where [tree_.value] holds class counts.  Float arithmetic is computed
    exactly on rationals: Python's [round] (half to even) of the exact
    value gives the float result except at a rounding tie that the float
    computation misses by an ulp. *)

From Stdlib Require Import Ascii.
From S2P Require Import Prelude NumpyIndex PyText NumpyPrint Tree.
From stdpp Require Import sorting.
Import NumpyIndex PyText NumpyPrint Tree.

Module Graphviz.

(** A graph statement: a node with its id and its subtree, or an edge. *)
Inductive dot_stmt :=
| DNode (node_id : nat) (node : tree)
| DEdge (parent node_id : nat).

(** [_DOTTreeExporter.head] with [filled=True], [rounded=True],
    [fontname="helvetica"], [leaves_parallel=False], [rotate=False]. *)
Definition head : list string :=
  ["digraph Tree {" +:+ nl; "node [shape=box";
   ", style=" +:+ dq +:+ "filled, rounded" +:+ dq +:+ ", color=" +:+ dq +:+ "black" +:+ dq;
   ", fontname=" +:+ dq +:+ "helvetica" +:+ dq; "] ;" +:+ nl;
   "edge [fontname=" +:+ dq +:+ "helvetica" +:+ dq +:+ "] ;" +:+ nl].

(** [_DOTTreeExporter.tail] with [leaves_parallel=False]. *)
Definition tail : list string := ["}"].

(** [_DOTTreeExporter.recurse] from the node [id] of the subtree [t] with
    parent [parent]: the statements in the order they are written, and
    the id after the subtree (ids are given in preorder). *)
Fixpoint recurse (t : tree) (id : nat) (parent : option nat) : list dot_stmt * nat :=
  let here := DNode id t :: match parent with Some p => [DEdge p id] | None => [] end in
  match t with
  | Leaf _ => (here, S id)
  | Node _ _ _ l r =>
      let '(sl, id1) := recurse l (S id) (Some id) in
      let '(sr, id2) := recurse r id1 (Some id) in
      (here ++ sl ++ sr, id2)
  end.

Section export.
(** The label of a node ([node_to_str], with [special_characters=True]
    an HTML-like label [<...>]) for the feature and class names, and its
    fill colour ([get_fill_color]). *)
Context (node_to_str : list string → list string → tree → string).
Context (get_fill_color : tree → string).

(** The write calls of one statement. *)
Definition render (fnames cnames : list string) (s : dot_stmt) : list string :=
  match s with
  | DNode i t =>
      [pretty i +:+ " [label=" +:+ node_to_str fnames cnames t;
       ", fillcolor=" +:+ dq +:+ get_fill_color t +:+ dq; "] ;" +:+ nl]
  | DEdge p i =>
      [pretty p +:+ " -> " +:+ pretty i] ++
      (if bool_decide (p = 0) then
         [" [labeldistance=2.5, labelangle=";
          if bool_decide (i = 1) then "45, headlabel=" +:+ dq +:+ "True" +:+ dq +:+ "]"
          else "-45, headlabel=" +:+ dq +:+ "False" +:+ dq +:+ "]"]
       else []) ++
      [" ;" +:+ nl]
  end.

Definition feature_names_error (got expected : nat) : exc :=
  ValueError ("Length of feature_names, " +:+ py_str_int (Z.of_nat got) +:+
              " does not match number of features, " +:+ py_str_int (Z.of_nat expected)).

(** [export_graphviz(clf, out_file=f, feature_names, class_names, ...)]:
    the chunks written to [out_file], and the exception, if any. *)
Definition export_graphviz (clf : fitted) (fnames cnames : list string) : list string * option exc :=
  if bool_decide (length fnames = n_features_in_ clf) then
    (head ++ mjoin (render fnames cnames <$> (recurse (tree_ clf) 0 None).1) ++ tail, None)
  else ([], Some (feature_names_error (length fnames) (n_features_in_ clf))).
End export.

(** ** Python and numpy helpers of the label text *)

(** [s.replace(old, new)] for a non-empty [old]: left to right, without
    overlaps; [skip] counts the characters of a match still to drop. *)
Fixpoint replace_from (old new : string) (skip : nat) (s : string) : string :=
  match s with
  | EmptyString => EmptyString
  | String c s' =>
      match skip with
      | S k => replace_from old new k s'
      | 0 =>
          if String.prefix old s then new +:+ replace_from old new (String.length old - 1) s'
          else String c (replace_from old new 0 s')
      end
  end.

Definition py_replace (old new s : string) : string := replace_from old new 0 s.

(** [s.endswith(suf)] and [s[:-len(suf)]]. *)
Definition ends_with (suf s : string) : bool :=
  String.eqb (String.substring (String.length s - String.length suf) (String.length suf) s) suf &&
  bool_decide (String.length suf ≤ String.length s).

Definition drop_suffix (suf s : string) : string :=
  String.substring 0 (String.length s - String.length suf) s.

(** The fractional digits of a value rounded to three decimals, without
    trailing zeros, at least one. *)
Definition frac_digits (f : Z) : string :=
  let d1 := (f / 100)%Z in
  let d2 := ((f / 10) mod 10)%Z in
  let d3 := (f mod 10)%Z in
  if (d3 =? 0)%Z then (if (d2 =? 0)%Z then pretty d1 else pretty d1 +:+ pretty d2)
  else pretty d1 +:+ pretty d2 +:+ pretty d3.

(** [str(round(x, 3))] for the float [x] whose value rounded to three
    decimals is [k / 1000]: Python's shortest representation. *)
Definition py_float_milli (k : Z) : string :=
  (if (k <? 0)%Z then "-" else "") +:+ pretty (Z.abs k / 1000)%Z +:+ "." +:+ frac_digits (Z.abs k mod 1000)%Z.

(** ** The node label: [_DOTTreeExporter.node_to_str]

    With [special_characters=True] the characters are [&le;] and [<br/>]
    and the label is HTML-like, between [<] and [>]; [label='all'] writes
    every field name; [impurity=True], [node_ids=False],
    [proportion=False], [precision=3].  The label is read from the
    arrays of [tree_] as scikit-learn 1.3 stores them ([tree_.value]
    holds class counts). *)

(** The split threshold in thousandths: features are in tenths
    ([Dataset]), so the threshold [thr2 / 2] tenths is [50 * thr2]
    thousandths.  scikit-learn computes it in float64 from float32
    features, within [10^-6] of this multiple of [0.05], so [round(., 3)]
    gives it exactly. *)
Definition thr_milli (thr2 : Z) : Z := (50 * thr2)%Z.

(** [str(round(tree_.impurity[node], 3))] for the Gini impurity
    [1 - sum c^2 / n^2]; [nan] for a node without samples. *)
Definition gini_str (v : list nat) : string :=
  let n := Z.of_nat (sum_list v) in
  if (n =? 0)%Z then "nan" else py_float_milli (round_half_even (1000 * (n * n - sq_sum v)) (n * n))%Z.

(** The text of [value]: counts shown as integers ([value.astype(int)]),
    or, for a single class, as the float [round(value, 3)] without
    brackets; printed through [str] of an [S32] bytes array, then
    [replace("b'", "'")], [replace("' '", ", ")], [replace("'", "")] and
    [replace("
 ", "<br/>")]. *)
Definition value_text (v : list nat) : string :=
  let word := λ (_ : list nat) c, "b'" +:+ pretty (Z.of_nat c) +:+
                     (if bool_decide (length v = 1) then ".0'" else "'") in
  let s := py_replace "' '" ", " (py_replace "b'" "'" (format_array word v)) in
  let s := py_replace "'" "" s in
  let s := if bool_decide (length v = 1) then py_replace "]" "" (py_replace "[" "" s) else s in
  py_replace (nl +:+ " ") "<br/>" s.

(** The appends to [node_string], in the order of the code: the split
    test (split nodes only), the impurity, the sample count, the class
    counts and, with more than one class, the majority class; a trailing
    [<br/>] is removed and the label closed. *)
Definition node_to_str (fnames cnames : list string) (t : tree) : string :=
  let v := value_of t in
  let s := "<" in
  let s := s +:+ match t with
                 | Node f thr2 _ _ _ => (fnames !!! f) +:+ " &le; " +:+ py_float_milli (thr_milli thr2) +:+ "<br/>"
                 | Leaf _ => ""
                 end in
  let s := s +:+ ("gini = " +:+ gini_str v +:+ "<br/>") in
  let s := s +:+ ("samples = " +:+ py_str_int (Z.of_nat (sum_list v)) +:+ "<br/>") in
  let s := s +:+ ("value = " +:+ value_text v +:+ "<br/>") in
  let s := if bool_decide (length v = 1) then s else s +:+ ("class = " +:+ (cnames !!! argmax v)) in
  (if ends_with "<br/>" s then drop_suffix "<br/>" s else s) +:+ ">".

(** ** The fill colour: [get_fill_color] *)

(** [_color_brew(n)]: hues [25 + 360 i / n] (as [np.arange(25, 385,
    360 / n).astype(int)]), saturation [0.75], value [0.9]; chroma
    [0.675] and shift [0.225], kept here in 2400ths ([1620], [540]); each
    channel is [int(255 * (r + m))]. *)
Definition color_brew (n : nat) : list (Z * Z * Z) :=
  (λ i,
    let h := 25 + 360 * Z.of_nat i / Z.of_nat n in
    let c := 1620 in
    let x := 27 * (60 - Z.abs (h mod 120 - 60)) in
    let '(r, g, b) :=
      match h / 60 with
      | 0 => (c, x, 0) | 1 => (x, c, 0) | 2 => (0, c, x) | 3 => (0, x, c)
      | 4 => (x, 0, c) | 5 => (c, 0, x) | _ => (c, x, 0)
      end in
    let chan := λ u, 255 * (u + 540) / 2400 in
    (chan r, chan g, chan b))%Z <$> seq 0 n.

(** ["%2x"]: lower-case hexadecimal, right-justified to width 2. *)
Definition hex_digit (d : Z) : ascii := ascii_of_nat (Z.to_nat (if d <? 10 then 48 + d else 87 + d)%Z).

Fixpoint hex_from (fuel : nat) (z : Z) (acc : string) : string :=
  match fuel with
  | 0 => acc
  | S f => let acc' := String (hex_digit (z mod 16)%Z) acc in
           if (z <? 16)%Z then acc' else hex_from f (z / 16)%Z acc'
  end.

Definition pct_2x (z : Z) : string := rjust 2 (hex_from 8 z "").

(** The order of [sorted(value, reverse=True)]. *)
Definition desc : relation nat := λ x y, y ≤ x.

#[export] Instance desc_dec : RelDecision desc.
Proof. intros x y. unfold desc. apply _. Defined.

(** [get_color] on the normalised counts [c / n]: the colour of the
    majority class, blended with white by [alpha = (p1 - p2) / (1 - p2)]
    for the two largest proportions, [int(round(alpha * c + (1 - alpha) *
    255, 0))] per channel; a single class has [alpha = 0]. *)
Definition get_fill_color (t : tree) : string :=
  let v := value_of t in
  let n := Z.of_nat (sum_list v) in
  let '(r, g, b) := color_brew (length v) !!! argmax v in
  let blend := λ col : Z,
    match merge_sort desc v with
    | c1 :: c2 :: _ =>
        round_half_even ((Z.of_nat c1 - Z.of_nat c2) * col + (n - Z.of_nat c1) * 255) (n - Z.of_nat c2)
    | _ => 255
    end%Z in
  "#" +:+ pct_2x (blend r) +:+ pct_2x (blend g) +:+ pct_2x (blend b).

(** ** Node and edge statements *)

Definition node_ids (ss : list dot_stmt) : list nat :=
  omap (λ s, match s with DNode i _ => Some i | DEdge _ _ => None end) ss.

Definition edges (ss : list dot_stmt) : list (nat * nat) :=
  omap (λ s, match s with DEdge p i => Some (p, i) | DNode _ _ => None end) ss.

Lemma recurse_next t : ∀ id parent, (recurse t id parent).2 = id + node_count t.
Proof.
  induction t as [v|f th v l IHl r IHr]; intros id parent; simpl; [lia|].
  destruct (recurse l _ _) as [sl id1] eqn:Hl. destruct (recurse r _ _) as [sr id2] eqn:Hr. simpl.
  pose proof (IHl (S id) (Some id)) as El. pose proof (IHr id1 (Some id)) as Er.
  rewrite Hl in El. rewrite Hr in Er. simpl in *. lia.
Qed.

Lemma node_ids_app ss1 ss2 : node_ids (ss1 ++ ss2) = node_ids ss1 ++ node_ids ss2.
Proof. apply omap_app. Qed.

Lemma edges_app ss1 ss2 : edges (ss1 ++ ss2) = edges ss1 ++ edges ss2.
Proof. apply omap_app. Qed.

Lemma node_ids_node i t ss : node_ids (DNode i t :: ss) = i :: node_ids ss.
Proof. done. Qed.
Lemma node_ids_edge p i ss : node_ids (DEdge p i :: ss) = node_ids ss.
Proof. done. Qed.
Lemma edges_node i t ss : edges (DNode i t :: ss) = edges ss.
Proof. done. Qed.
Lemma edges_edge p i ss : edges (DEdge p i :: ss) = (p, i) :: edges ss.
Proof. done. Qed.

Create Rewrite HintDb dot.
#[local] Hint Rewrite node_ids_app edges_app node_ids_node node_ids_edge edges_node edges_edge
  app_nil_l : dot.

(** The statements of a split node: its own, then its left subtree's,
    then its right subtree's. *)
Lemma recurse_node f th v l r id parent :
  recurse (Node f th v l r) id parent =
  ((DNode id (Node f th v l r) :: match parent with Some p => [DEdge p id] | None => [] end) ++
     (recurse l (S id) (Some id)).1 ++ (recurse r (recurse l (S id) (Some id)).2 (Some id)).1,
   (recurse r (recurse l (S id) (Some id)).2 (Some id)).2).
Proof. simpl. by destruct (recurse l _ _), (recurse r _ _). Qed.

(** The node statements of a subtree number its nodes in preorder. *)
Lemma recurse_node_ids t : ∀ id parent,
  node_ids (recurse t id parent).1 = seq id (node_count t).
Proof.
  induction t as [v|f th v l IHl r IHr]; intros id parent; [by destruct parent|].
  rewrite recurse_node. cbn [fst node_count]. rewrite recurse_next.
  destruct parent; autorewrite with dot; rewrite IHl, IHr; cbn [seq]; rewrite seq_app; done.
Qed.

Lemma seq_split_nodes a nl nr :
  nl ≠ 0 → nr ≠ 0 →
  seq (S a) (nl + nr) = [S a] ++ seq (S (S a)) (nl - 1) ++ [S a + nl] ++ seq (S (S a + nl)) (nr - 1).
Proof.
  intros Hl Hr. replace (nl + nr) with (1 + (nl - 1) + 1 + (nr - 1)) by lia.
  rewrite !seq_app. cbn [seq]. rewrite <-!app_assoc.
  replace (S a + 1) with (S (S a)) by lia. replace (S a + (1 + (nl - 1))) with (S a + nl) by lia.
  by replace (S a + (1 + (nl - 1) + 1)) with (S (S a + nl)) by lia.
Qed.

Lemma node_count_pos t : node_count t ≠ 0.
Proof. by destruct t. Qed.

(** Every node but the root of the subtree gets one incoming edge, from a
    node with a smaller id; the root gets the edge from [parent]. *)
Lemma recurse_edges t : ∀ id parent,
  (∀ p, parent = Some p → p < id) →
  snd <$> edges (recurse t id parent).1 =
    (if parent then [id] else []) ++ seq (S id) (node_count t - 1) ∧
  Forall (λ e, e.1 < e.2) (edges (recurse t id parent).1).
Proof.
  induction t as [v|f th v l IHl r IHr]; intros id parent Hp.
  - destruct parent as [p|]; simpl; [|done]. split; [done|]. constructor; [by apply Hp|done].
  - rewrite recurse_node. cbn [fst node_count]. rewrite recurse_next.
    destruct (IHl (S id) (Some id)) as [Il Fl]; [by intros ? [= <-]; lia|].
    destruct (IHr (S id + node_count l) (Some id)) as [Ir Fr]; [by intros ? [= <-]; lia|].
    pose proof (node_count_pos l). pose proof (node_count_pos r).
    replace (S (node_count l + node_count r) - 1) with (node_count l + node_count r) by lia.
    rewrite seq_split_nodes by done.
    destruct parent as [p|]; autorewrite with dot; rewrite ?fmap_cons, !fmap_app, Il, Ir;
      (split; [done|]); rewrite ?Forall_cons; rewrite !Forall_app; naive_solver.
Qed.

(** ** The exported graph is the tree *)

(** The subtrees of [t] in preorder, left subtree before right: the
    order in which [tree_] numbers its nodes. *)
Fixpoint preorder (t : tree) : list tree :=
  match t with
  | Leaf _ => [t]
  | Node _ _ _ l r => t :: preorder l ++ preorder r
  end.

Definition node_stmts (ss : list dot_stmt) : list (nat * tree) :=
  omap (λ s, match s with DNode i t => Some (i, t) | DEdge _ _ => None end) ss.

(** The edges from each split node to its two children, numbering the
    subtree from [id]: the left child is the next node, the right child
    the node after the whole left subtree. *)
Fixpoint child_edges (t : tree) (id : nat) : list (nat * nat) :=
  match t with
  | Leaf _ => []
  | Node _ _ _ l r =>
      (id, S id) :: child_edges l (S id) ++ (id, S id + node_count l) :: child_edges r (S id + node_count l)
  end.

Lemma length_preorder t : length (preorder t) = node_count t.
Proof. induction t; simpl; rewrite ?length_app; lia. Qed.

Lemma node_stmts_app ss1 ss2 : node_stmts (ss1 ++ ss2) = node_stmts ss1 ++ node_stmts ss2.
Proof. apply omap_app. Qed.

Lemma recurse_preorder t : ∀ id parent,
  node_stmts (recurse t id parent).1 = zip (seq id (node_count t)) (preorder t) ∧
  edges (recurse t id parent).1 = (if parent is Some p then [(p, id)] else []) ++ child_edges t id.
Proof.
  induction t as [v|f th v l IHl r IHr]; intros id parent; [by destruct parent|].
  rewrite recurse_node. cbn [fst node_count preorder child_edges]. rewrite recurse_next.
  destruct (IHl (S id) (Some id)) as [Nl El], (IHr (S id + node_count l) (Some id)) as [Nr Er].
  rewrite !node_stmts_app, !edges_app, Nl, Nr, El, Er. split.
  - rewrite <-length_preorder. cbn [seq]. rewrite seq_app.
    change (zip (?a :: ?x) (?b :: ?y)) with ((a, b) :: zip x y).
    rewrite zip_with_app by apply length_seq. by destruct parent.
  - by destruct parent.
Qed.

Lemma preorder_left f th v l r id k t' :
  S id ≤ k → preorder l !! (k - S id) = Some t' → preorder (Node f th v l r) !! (k - id) = Some t'.
Proof.
  intros Hk H. replace (k - id) with (S (k - S id)) by lia. cbn [preorder].
  change ((?x :: ?l) !! S ?i) with (l !! i). by apply lookup_app_l_Some.
Qed.

Lemma preorder_right f th v l r id k t' :
  S id + node_count l ≤ k → preorder r !! (k - (S id + node_count l)) = Some t' →
  preorder (Node f th v l r) !! (k - id) = Some t'.
Proof.
  intros Hk H. pose proof (length_preorder l).
  replace (k - id) with (S (length (preorder l) + (k - (S id + node_count l)))) by lia.
  cbn [preorder]. change ((?x :: ?l) !! S ?i) with (l !! i).
  by rewrite lookup_app_r, Nat.add_sub' by lia.
Qed.

(** Every edge of [child_edges t id] joins a split node to its left or
    right child, as positions of [preorder t] shifted by [id]. *)
Lemma child_edges_children t : ∀ id i j,
  (i, j) ∈ child_edges t id →
  id ≤ i ∧ ∃ f th v l r, preorder t !! (i - id) = Some (Node f th v l r) ∧
    (j = S i ∧ preorder t !! (j - id) = Some l ∨
     j = S i + node_count l ∧ preorder t !! (j - id) = Some r).
Proof.
  induction t as [v|f th v l IHl r IHr]; intros id i j; [by intros ?%not_elem_of_nil|].
  cbn [child_edges]. pose proof (length_preorder l) as Ll.
  intros [[= -> ->]|[Hl|[[= -> ->]|Hr]%elem_of_cons]%elem_of_app]%elem_of_cons.
  - split; [lia|]. do 5 eexists. rewrite Nat.sub_diag. split; [done|]. left. split; [done|].
    apply (preorder_left _ _ _ _ _ _ _ l); [lia|]. rewrite Nat.sub_diag. by destruct l.
  - destruct (IHl _ _ _ Hl) as (Hi & f' & th' & v' & l' & r' & Hn & Hc). split; [lia|].
    exists f', th', v', l', r'. split; [by apply preorder_left|].
    destruct Hc as [[-> Hc]|[-> Hc]]; [left|right]; (split; [done|]); apply preorder_left; [lia|done|lia|done].
  - split; [lia|]. do 5 eexists. rewrite Nat.sub_diag. split; [done|]. right. split; [done|].
    apply (preorder_right _ _ _ _ _ _ _ r); [lia|]. rewrite Nat.sub_diag. by destruct r.
  - destruct (IHr _ _ _ Hr) as (Hi & f' & th' & v' & l' & r' & Hn & Hc). split; [lia|].
    exists f', th', v', l', r'. split; [by apply preorder_right|].
    destruct Hc as [[-> Hc]|[-> Hc]]; [left|right]; (split; [done|]); apply preorder_right; [lia|done|lia|done].
Qed.

(** C25.  The exported graph is the tree: [recurse], which produces the
    statements [export_graphviz] writes, gives node [i] to the [i]-th
    subtree of the tree in preorder, left subtree before right, and every
    edge goes from a split node [i] to its left child, the next node
    [i + 1] (so the edge [0 -> 1] labelled [True] leads to the samples
    that pass the root's test), or to its right child, the first node
    after the whole left subtree. *)
Theorem recurse_is_tree t :
  let ss := (recurse t 0 None).1 in
  node_stmts ss = zip (seq 0 (node_count t)) (preorder t) ∧
  ∀ i j, (i, j) ∈ edges ss →
    ∃ f th v l r, preorder t !! i = Some (Node f th v l r) ∧
      (j = S i ∧ preorder t !! j = Some l ∨ j = S i + node_count l ∧ preorder t !! j = Some r).
Proof.
  destruct (recurse_preorder t 0 None) as [Hn He]. split; [done|].
  intros i j Hij. rewrite He in Hij. apply child_edges_children in Hij as [_ Hc].
  by rewrite !Nat.sub_0_r in Hc.
Qed.

Lemma recurse_is_tree_witness :
  let t := Node 0 1 [2; 1] (Node 1 3 [2; 0] (Leaf [1; 0]) (Leaf [1; 0])) (Leaf [0; 1]) in
  (0, 4) ∈ edges (recurse t 0 None).1 ∧
  ∃ f th v l r, preorder t !! 0 = Some (Node f th v l r) ∧
    (4 = 1 ∧ preorder t !! 4 = Some l ∨ 4 = 1 + node_count l ∧ preorder t !! 4 = Some r).
Proof.
  intros t. assert (H : (0, 4) ∈ edges (recurse t 0 None).1)
    by (apply (bool_decide_unpack _); vm_compute; reflexivity).
  split; [exact H|]. exact (proj2 (recurse_is_tree t) 0 4 H).
Defined.

(** C19.  For a fitted tree and as many feature names as features,
    [export_graphviz] raises nothing and writes the header, the statements
    of the nodes in preorder and the closing brace; the node statements
    carry the ids [0 .. node_count - 1] in order, every node but the root
    has exactly one incoming edge, and every edge goes from a smaller id
    to a larger one. *)
Theorem export_graphviz_structure node_to_str get_fill_color clf fnames cnames :
  length fnames = n_features_in_ clf →
  let ss := (recurse (tree_ clf) 0 None).1 in
  export_graphviz node_to_str get_fill_color clf fnames cnames =
    (head ++ mjoin (render node_to_str get_fill_color fnames cnames <$> ss) ++ tail, None) ∧
  node_ids ss = seq 0 (node_count (tree_ clf)) ∧
  snd <$> edges ss = seq 1 (node_count (tree_ clf) - 1) ∧
  Forall (λ e, e.1 < e.2) (edges ss).
Proof.
  intros Hn ss. unfold export_graphviz. rewrite bool_decide_eq_true_2 by done.
  destruct (recurse_edges (tree_ clf) 0 None) as [He Hf]; [done|].
  split_and!; [done|apply recurse_node_ids|exact He|exact Hf].
Qed.

Lemma export_graphviz_structure_witness :
  let clf := mk_fitted (Node 0 1 [1; 1] (Leaf [1; 0]) (Leaf [0; 1])) [0; 1]%Z 2 in
  let ss := (recurse (tree_ clf) 0 None).1 in
  length ["a"; "b"] = n_features_in_ clf ∧
  export_graphviz (λ _ _ _, "<n>") (λ _, "#ffffff") clf ["a"; "b"] ["c"; "d"] =
    (head ++ mjoin (render (λ _ _ _, "<n>") (λ _, "#ffffff") ["a"; "b"] ["c"; "d"] <$> ss) ++ tail, None) ∧
  node_ids ss = seq 0 (node_count (tree_ clf)) ∧
  snd <$> edges ss = seq 1 (node_count (tree_ clf) - 1) ∧
  Forall (λ e, e.1 < e.2) (edges ss).
Proof.
  intros clf ss. split; [reflexivity|].
  exact (export_graphviz_structure (λ _ _ _, "<n>") (λ _, "#ffffff") clf ["a"; "b"] ["c"; "d"] eq_refl).
Defined.

(** ** The fill colour is a [#rrggbb] code *)

(** The blend with white of a channel in [[lo, 255]] by the two largest
    counts [c1 >= c2] of a node of [n > c2] samples. *)
Lemma blend_bounds (c1 c2 n col lo : Z) :
  (0 ≤ c2 ≤ c1)%Z → (c1 + c2 ≤ n)%Z → (0 < n)%Z → (lo ≤ col ≤ 255)%Z → (lo ≤ 255)%Z →
  (lo ≤ round_half_even ((c1 - c2) * col + (n - c1) * 255) (n - c2) ≤ 255)%Z.
Proof. intros. apply round_half_even_bounds; nia. Qed.

(** Every channel of [_color_brew] is between [57] and [229]. *)
Lemma color_brew_bounds n i :
  i < n → let '(r, g, b) := color_brew n !!! i in
    (57 ≤ r ≤ 229)%Z ∧ (57 ≤ g ≤ 229)%Z ∧ (57 ≤ b ≤ 229)%Z.
Proof.
  intros Hi. unfold color_brew. rewrite list_lookup_total_alt, list_lookup_fmap, lookup_seq_lt by done.
  cbn [fmap option_fmap option_map default plus]. cbn zeta.
  set (h := (25 + 360 * Z.of_nat i / Z.of_nat n)%Z).
  set (x := (27 * (60 - Z.abs (h mod 120 - 60)))%Z).
  assert (Hx : (0 ≤ x ≤ 1620)%Z).
  { unfold x. pose proof (Z.mod_pos_bound h 120 ltac:(lia)). lia. }
  assert (Hc : ∀ u, (0 ≤ u ≤ 1620)%Z → (57 ≤ 255 * (u + 540) / 2400 ≤ 229)%Z).
  { intros u Hu. split; [apply Z.div_le_lower_bound; lia|].
    enough (255 * (u + 540) / 2400 < 230)%Z by lia. apply Z.div_lt_upper_bound; lia. }
  repeat case_match; unfold id in *; simplify_eq; (split; [|split]); apply Hc; lia.
Qed.

Instance desc_total : Total desc.
Proof. intros x y. unfold desc. lia. Qed.

(** The two largest counts: ordered, and within the node's total. *)
Lemma top_two v c1 c2 rest :
  merge_sort desc v = c1 :: c2 :: rest → c2 ≤ c1 ∧ c1 + c2 ≤ sum_list v.
Proof.
  intros Hs. pose proof (Sorted_merge_sort desc v) as Hsort. rewrite Hs in Hsort.
  pose proof (merge_sort_Permutation desc v) as Hp. rewrite Hs in Hp.
  apply sum_list_with_Permutation_proper with (f := id) in Hp. simpl in Hp.
  inversion Hsort as [|? ? _ Hhd]; subst. inversion Hhd; subst. unfold desc in *. lia.
Qed.

(** ["%2x"] of a channel in [[16, 255]] is two hexadecimal digits. *)
Lemma pct_2x_two z :
  (16 ≤ z ≤ 255)%Z → pct_2x z = String (hex_digit (z / 16)) (String (hex_digit (z mod 16)) "").
Proof.
  intros Hz. unfold pct_2x. cbn [hex_from].
  rewrite (proj2 (Z.ltb_ge z 16)) by lia. cbn [hex_from].
  rewrite (Z.mod_small (z / 16) 16) by (split; [apply Z.div_pos|apply Z.div_lt_upper_bound]; lia).
  rewrite (proj2 (Z.ltb_lt (z / 16) 16)) by (apply Z.div_lt_upper_bound; lia). done.
Qed.

(** C27.  The fill colour of a node with samples is a seven-character
    [#rrggbb] code: ["%2x"] of each channel is two hexadecimal digits,
    since every channel, a blend of a [_color_brew] channel with white,
    lies between [57] and [255]. *)
Theorem fill_color_format t :
  0 < sum_list (value_of t) →
  ∃ r g b, (57 ≤ r ≤ 255)%Z ∧ (57 ≤ g ≤ 255)%Z ∧ (57 ≤ b ≤ 255)%Z ∧
    get_fill_color t = "#" +:+ pct_2x r +:+ pct_2x g +:+ pct_2x b ∧
    String.length (get_fill_color t) = 7.
Proof.
  intros Hn.
  assert (Hne : value_of t ≠ []) by (intros E; rewrite E in Hn; simpl in Hn; lia).
  pose proof (color_brew_bounds (length (value_of t)) (argmax (value_of t)) (argmax_lt _ Hne)) as Hb.
  destruct (color_brew (length (value_of t)) !!! argmax (value_of t)) as [[r0 g0] b0] eqn:Ec.
  destruct Hb as (Hr & Hg & Hbb).
  set (bl := λ col : Z, match merge_sort desc (value_of t) with
          | c1 :: c2 :: _ => round_half_even ((Z.of_nat c1 - Z.of_nat c2) * col +
                               (Z.of_nat (sum_list (value_of t)) - Z.of_nat c1) * 255)
                               (Z.of_nat (sum_list (value_of t)) - Z.of_nat c2)
          | _ => 255 end%Z).
  assert (Hbl : ∀ col, (57 ≤ col ≤ 229)%Z → (57 ≤ bl col ≤ 255)%Z).
  { intros col Hcol. unfold bl. destruct (merge_sort desc (value_of t)) as [|c1 [|c2 rest]] eqn:Hs; [lia|lia|].
    destruct (top_two _ _ _ _ Hs). apply blend_bounds; lia. }
  assert (Heq : get_fill_color t = "#" +:+ pct_2x (bl r0) +:+ pct_2x (bl g0) +:+ pct_2x (bl b0))
    by (unfold get_fill_color; rewrite Ec; reflexivity).
  pose proof (Hbl r0 Hr). pose proof (Hbl g0 Hg). pose proof (Hbl b0 Hbb).
  exists (bl r0), (bl g0), (bl b0). split_and!; try lia; [exact Heq|].
  rewrite Heq, !pct_2x_two by lia. done.
Qed.

Lemma fill_color_format_witness :
  0 < sum_list (value_of (Leaf [0; 49; 5])) ∧
  ∃ r g b, (57 ≤ r ≤ 255)%Z ∧ (57 ≤ g ≤ 255)%Z ∧ (57 ≤ b ≤ 255)%Z ∧
    get_fill_color (Leaf [0; 49; 5]) = "#" +:+ pct_2x r +:+ pct_2x g +:+ pct_2x b ∧
    String.length (get_fill_color (Leaf [0; 49; 5])) = 7.
Proof.
  assert (H : 0 < sum_list (value_of (Leaf [0; 49; 5]))) by (simpl; lia).
  split; [exact H|]. exact (fill_color_format _ H).
Defined.

(** ** The class line of every node *)

Lemma substring_app_r (a b : string) k m :
  String.substring (String.length a + k) m (a +:+ b) = String.substring k m b.
Proof. induction a as [|c a IH]; [done|]. exact IH. Qed.

(** Whether a string ends with [suf] depends only on a long enough tail. *)
Lemma ends_with_app suf a b :
  String.length suf ≤ String.length b → ends_with suf (a +:+ b) = ends_with suf b.
Proof.
  intros Hl. unfold ends_with. rewrite string_length_app.
  replace (String.length a + String.length b - String.length suf)
    with (String.length a + (String.length b - String.length suf)) by lia.
  rewrite substring_app_r, !(bool_decide_eq_true_2 (_ ≤ _)) by (rewrite ?string_length_app; lia).
  done.
Qed.

(** With more than one class, a label ends with the class line. *)
Lemma node_to_str_class fnames cnames t :
  length (value_of t) ≠ 1 →
  ends_with "<br/>" ("class = " +:+ cnames !!! argmax (value_of t)) = false →
  ∃ pre, node_to_str fnames cnames t = (pre +:+ ("class = " +:+ cnames !!! argmax (value_of t))) +:+ ">".
Proof.
  intros H1 Hend. unfold node_to_str. cbn zeta. rewrite bool_decide_eq_false_2 by done.
  rewrite ends_with_app, Hend by (rewrite string_length_app; simpl; lia).
  eexists. reflexivity.
Qed.

Lemma tree_wf_value nc nf t : tree_wf nc nf t → length (value_of t) = nc.
Proof. destruct t; naive_solver. Qed.

(** The node statements of a well-formed tree are its well-formed subtrees. *)
Lemma recurse_wf nc nf t : tree_wf nc nf t → ∀ id parent,
  Forall (λ s, ∀ i u, s = DNode i u → tree_wf nc nf u) (recurse t id parent).1.
Proof.
  induction t as [v|f th v l IHl r IHr]; intros Hwf id parent.
  - destruct parent; repeat constructor; by intros ? ? [= _ <-].
  - rewrite recurse_node. cbn [fst]. pose proof Hwf as (_ & _ & Hl & Hr).
    rewrite !Forall_app. split_and!; [|by apply IHl|by apply IHr].
    destruct parent; repeat constructor; by intros ? ? [= _ <-].
Qed.

(** C26.  With two or more classes every node statement of the export,
    split nodes included, has a [class = <name>] line naming the
    majority class of the node, so a graph of [node_count] nodes carries
    [node_count] class lines (not one per leaf: a tree with [L] leaves
    has [2L - 1] nodes).  Class names are taken not to end in [<br/>],
    which the exporter would strip. *)
Theorem export_class_per_node clf fnames cnames :
  fitted_wf clf → 2 ≤ length (classes_ clf) →
  (∀ k, ends_with "<br/>" ("class = " +:+ cnames !!! k) = false) →
  let ss := (recurse (tree_ clf) 0 None).1 in
  length (node_ids ss) = node_count (tree_ clf) ∧
  Forall (λ s, ∀ i u, s = DNode i u →
    ∃ pre, node_to_str fnames cnames u = (pre +:+ ("class = " +:+ cnames !!! argmax (value_of u))) +:+ ">") ss.
Proof.
  intros (_ & _ & Hwf) Hnc Hend. cbv zeta. split.
  - by rewrite recurse_node_ids, length_seq.
  - eapply Forall_impl; [exact (recurse_wf _ _ _ Hwf 0 None)|].
    intros s Hs i u ->. apply node_to_str_class; [|apply Hend].
    rewrite (tree_wf_value _ _ u (Hs i u eq_refl)). lia.
Qed.

Lemma export_class_per_node_witness :
  let clf := mk_fitted (Node 0 1 [2; 1] (Leaf [2; 0]) (Leaf [0; 1])) [5; 7]%Z 2 in
  let cnames := ["five"; "seven"] in
  fitted_wf clf ∧ 2 ≤ length (classes_ clf) ∧
  (∀ k, ends_with "<br/>" ("class = " +:+ cnames !!! k) = false) ∧
  let ss := (recurse (tree_ clf) 0 None).1 in
  length (node_ids ss) = node_count (tree_ clf) ∧
  Forall (λ s, ∀ i u, s = DNode i u →
    ∃ pre, node_to_str ["a"; "b"] cnames u = (pre +:+ ("class = " +:+ cnames !!! argmax (value_of u))) +:+ ">") ss.
Proof.
  intros clf cnames.
  assert (Hwf : fitted_wf clf).
  { split_and!; [repeat constructor; cbn; lia|discriminate|cbn; lia]. }
  assert (Hnc : 2 ≤ length (classes_ clf)) by (cbn; lia).
  assert (Hend : ∀ k, ends_with "<br/>" ("class = " +:+ cnames !!! k) = false)
    by (intros [|[|k]]; vm_compute; reflexivity).
  split; [exact Hwf|]. split; [exact Hnc|]. split; [exact Hend|].
  exact (export_class_per_node clf ["a"; "b"] cnames Hwf Hnc Hend).
Defined.

End Graphviz.
