(* ===== verification/Cart.v ===== *)
(** * [DecisionTreeClassifier().fit(train_data, train_target)]

    Lines 22-23 of the script build a classifier with the default
    hyper-parameters and fit it.  scikit-learn's [fit] runs, in order:
    - [_validate_params]: [min_samples_split >= 2], [min_samples_leaf >= 1],
      [max_depth] [None] or [>= 1] ([params_error]);
    - [validate_data]: [check_array] on [X] (at least one row and one
      column), then on [y] (at least one entry), then the check
      [len(y) == n_samples] of [BaseDecisionTree._fit];
    - [np.unique(y, return_inverse=True)]: the sorted distinct labels
      [classes_] and each label's index in it ([unique], [encode]);
    - [min_samples_split = max(min_samples_split, 2 * min_samples_leaf)],
      [max_depth = None] read as [INT32_MAX];
    - the [DepthFirstTreeBuilder] ([build]): a node is a leaf when it is
      too deep or too small or its Gini impurity is at most [EPSILON]
      ([2^-52]); otherwise the [BestSplitter] ([node_split]) looks, feature
      by feature in the order drawn from the random state ([draw]), for the
      position in the sorted feature values with the largest Gini proxy
      [sum(cl^2)/nl + sum(cr^2)/nr] (strictly larger replaces), skipping
      equal neighbouring values and sides under [min_samples_leaf]; no
      position, or a negative impurity improvement, makes a leaf; children
      are built left first, so node ids are in preorder.

    The random feature order is the parameter [draw : nat -> list nat]
    (the order tried at node id [i]); the script does not fix
    [random_state], so every [draw] is a possible run.  Comparisons are
    exact: the proxy is a fraction compared by cross multiplication, and
    [EPSILON] is the exact rational [2^-52]. *)

From S2P Require Import Prelude NumpyIndex Tree.
From stdpp Require Import sorting.
Import NumpyIndex Tree.

Module Cart.

(** ** Hyper-parameters *)

Record params := mk_params {
  max_depth : option nat;
  min_samples_split : nat;
  min_samples_leaf : nat
}.

(** [tree.DecisionTreeClassifier()] (line 22): every parameter at its
    default; [criterion="gini"], [splitter="best"], [max_features=None],
    [max_leaf_nodes=None], [min_impurity_decrease=0.0] are fixed by the
    definitions below. *)
Definition DecisionTreeClassifier : params := mk_params None 2 1.

Definition params_error (name range : string) (got : nat) : exc :=
  ValueError ("The '" +:+ name +:+ "' parameter of DecisionTreeClassifier must be " +:+
              range +:+ ". Got " +:+ py_str_int (Z.of_nat got) +:+ " instead.").

Definition validate_params (p : params) : result params :=
  if bool_decide (min_samples_split p < 2) then
    raise! (params_error "min_samples_split"
      "an int in the range [2, inf) or a float in the range (0.0, 1.0]" (min_samples_split p))
  else if bool_decide (min_samples_leaf p < 1) then
    raise! (params_error "min_samples_leaf"
      "an int in the range [1, inf) or a float in the range (0.0, 1.0)" (min_samples_leaf p))
  else match max_depth p with
  | Some 0 => raise! (params_error "max_depth" "an int in the range [1, inf) or None" 0)
  | _ => Ok p
  end.

(** [np.iinfo(np.int32).max], the depth bound used for [max_depth=None]. *)
Definition INT32_MAX : N := 2147483647.

Definition depth_bound (p : params) : N :=
  match max_depth p with None => INT32_MAX | Some d => N.of_nat d end.

(** ** Label encoding: [np.unique(y, return_inverse=True)] *)

Fixpoint insert_sorted (z : Z) (l : list Z) : list Z :=
  match l with
  | [] => [z]
  | w :: l' => if (z <? w)%Z then z :: l else if (z =? w)%Z then l else w :: insert_sorted z l'
  end.

Definition unique (y : list Z) : list Z := foldr insert_sorted [] y.

Fixpoint index_of (z : Z) (l : list Z) : nat :=
  match l with
  | [] => 0
  | w :: l' => if (z =? w)%Z then 0 else S (index_of z l')
  end.

Definition encode (classes y : list Z) : list nat := (λ z, index_of z classes) <$> y.

(** ** Samples, class counts and impurity *)

(** A training row with its encoded class. *)
Record sample := mk_sample { feat : list Z; cls : nat }.

(** The class-count vector ([value]) of a node with [nc] classes. *)
Definition node_value (nc : nat) (S : list sample) : list nat :=
  (λ k, count_if (λ s, cls s =? k) S) <$> seq 0 nc.

(** [impurity <= EPSILON] for the Gini impurity [1 - sum (c/n)^2]:
    [(n^2 - sum c^2) / n^2 <= 2^-52]. *)
Definition gini_le_eps (v : list nat) : bool :=
  let n := Z.of_nat (sum_list v) in ((n * n - sq_sum v) * 2 ^ 52 <=? n * n)%Z.

(** [counts[k] += 1]. *)
Definition incr (k : nat) (v : list nat) : list nat := <[k := v !!! k + 1]> v.

(** ** The best splitter *)

(** A candidate split; its proxy improvement is [num / den]. *)
Record split := mk_split {
  sp_feature : nat; sp_thr2 : Z; sp_pos : nat; sp_num : Z; sp_den : Z
}.

(** [current_proxy_improvement > best_proxy_improvement], with the best
    initialised to minus infinity ([None]). *)
Definition better (num den : Z) (best : option split) : bool :=
  match best with
  | None => true
  | Some b => (sp_num b * den <? num * sp_den b)%Z
  end.

(** Scan of the samples sorted by feature [f]: [lc]/[nl] are the counts
    and size of the positions before the current one, [prev] the value at
    the position before.  A position [p] is a candidate when
    [Xf[p] > Xf[p-1]] and both sides have [min_samples_leaf] samples;
    its threshold is [Xf[p-1]/2 + Xf[p]/2], kept doubled. *)
Fixpoint scan (msl : nat) (f n : nat) (total lc : list nat) (nl : nat) (prev : Z)
    (rest : list sample) (best : option split) : option split :=
  match rest with
  | [] => best
  | s :: rest' =>
      let x := fval (feat s) f in
      let rc := zip_with Nat.sub total lc in
      let num := (sq_sum lc * Z.of_nat (n - nl) + sq_sum rc * Z.of_nat nl)%Z in
      let den := (Z.of_nat nl * Z.of_nat (n - nl))%Z in
      let best' :=
        if (prev <? x)%Z && (msl <=? nl) && (msl <=? n - nl) && better num den best
        then Some (mk_split f (prev + x) nl num den) else best in
      scan msl f n total (incr (cls s) lc) (S nl) x rest' best'
  end.

(** The order of [sort(Xf, samples)]: by the value of feature [f]. *)
Definition le_on (f : nat) : relation sample := λ s t, (fval (feat s) f ≤ fval (feat t) f)%Z.

#[export] Instance le_on_dec f : RelDecision (le_on f).
Proof. intros s t. unfold le_on. apply _. Defined.

Definition sort_by (f : nat) (S : list sample) : list sample := merge_sort (le_on f) S.

(** [node_split_best] over the features in the drawn order. *)
Definition node_split (msl nc : nat) (order : list nat) (S : list sample) : option split :=
  let total := node_value nc S in
  foldl (λ best f,
    match sort_by f S with
    | [] => best
    | s0 :: rest =>
        scan msl f (length S) total (incr (cls s0) (replicate nc 0)) 1 (fval (feat s0) f) rest best
    end) None order.

(** [split.improvement + EPSILON < min_impurity_decrease] with
    [min_impurity_decrease = 0] and [EPSILON = 2^-52].  The criterion's
    [impurity_improvement] is [(n / N) (g - nl / n g_l - nr / n g_r)] for
    the Gini impurities [g], [g_l], [g_r] of the node ([n] of the [N]
    training samples) and of its two sides; with [g = 1 - sum c^2 / n^2]
    it is [(num / den - sum c^2 / n) / N], where [num / den] is the
    split's proxy.  The test is multiplied out by [den n N 2^52], which
    is positive for a candidate split. *)
Definition improvement_negative (ntot n : nat) (v : list nat) (sp : split) : bool :=
  ((sp_num sp * Z.of_nat n - sq_sum v * sp_den sp) * 2 ^ 52 +
   sp_den sp * Z.of_nat n * Z.of_nat ntot <? 0)%Z.

(** ** The depth-first builder *)

Definition is_leaf_node (p : params) (depth n : nat) (v : list nat) : bool :=
  (depth_bound p <=? N.of_nat depth)%N || (n <? min_samples_split p) ||
  (n <? 2 * min_samples_leaf p) || gini_le_eps v.

(** [build fuel depth id S] returns the subtree for the samples [S] and
    the next free node id; [None] only when the fuel runs out.  [ntot]
    is the number of samples of the whole fit ([weighted_n_samples]). *)
Fixpoint build (p : params) (nc : nat) (draw : nat → list nat) (ntot : nat)
    (fuel depth id : nat) (S : list sample) : option (tree * nat) :=
  match fuel with
  | 0 => None
  | Datatypes.S fuel' =>
      let v := node_value nc S in
      let n := length S in
      if is_leaf_node p depth n v then Some (Leaf v, Datatypes.S id) else
      match node_split (min_samples_leaf p) nc (draw id) S with
      | None => Some (Leaf v, Datatypes.S id)
      | Some sp =>
          if improvement_negative ntot n v sp then Some (Leaf v, Datatypes.S id) else
          let f := sp_feature sp in
          let th := sp_thr2 sp in
          '(tl, id1) ← build p nc draw ntot fuel' (Datatypes.S depth) (Datatypes.S id)
                         (List.filter (λ s, goes_left f th (feat s)) S);
          '(tr, id2) ← build p nc draw ntot fuel' (Datatypes.S depth) id1
                         (List.filter (λ s, negb (goes_left f th (feat s))) S);
          Some (Node f th v tl tr, id2)
      end
  end.

(** ** [fit] *)

Definition labels_error (ny nx : nat) : exc :=
  ValueError ("Number of labels=" +:+ py_str_int (Z.of_nat ny) +:+
              " does not match number of samples=" +:+ py_str_int (Z.of_nat nx)).

Definition y_min_samples_error : exc :=
  ValueError "Found array with 0 sample(s) (shape=(0,)) while a minimum of 1 is required by DecisionTreeClassifier.".

(** The samples handed to the builder: each row with its encoded label. *)
Definition training_samples (classes : list Z) (X : matrix) (y : list Z) : list sample :=
  zip_with mk_sample (rows X) (encode classes y).

(** The parameters the builder runs with. *)
Definition builder_params (p : params) : params :=
  mk_params (max_depth p) (max (min_samples_split p) (2 * min_samples_leaf p)) (min_samples_leaf p).

(** [builder.build(self.tree_, X, y)] from the root: depth 0, node id 0,
    all the samples, fuel one more than their number. *)
Definition grow (p : params) (nc : nat) (draw : nat → list nat) (S : list sample) : tree :=
  default (Leaf (node_value nc S))
    (fst <$> build (builder_params p) nc draw (length S) (Datatypes.S (length S)) 0 0 S).

Definition fit (p : params) (draw : nat → list nat) (X : matrix) (y : list Z) : result fitted :=
  p ← validate_params p;
  X ← check_array X;
  if bool_decide (length y = 0) then raise! y_min_samples_error else
  if bool_decide (length y ≠ length (rows X)) then raise! (labels_error (length y) (length (rows X))) else
  let classes := unique y in
  Ok (mk_fitted (grow p (length classes) draw (training_samples classes X y)) classes (ncols X)).

(** ** Class counts *)

Definition count_cls (k : nat) (S : list sample) : nat := count_if (λ s, cls s =? k) S.

Lemma node_value_lookup nc S k :
  node_value nc S !! k = if decide (k < nc) then Some (count_cls k S) else None.
Proof.
  unfold node_value. rewrite list_lookup_fmap. case_decide.
  - by rewrite lookup_seq_lt.
  - by rewrite lookup_seq_ge by lia.
Qed.

Lemma length_node_value nc S : length (node_value nc S) = nc.
Proof. unfold node_value. by rewrite length_fmap, length_seq. Qed.

Lemma zip_with_fmap_same {A B C D} (h : B → C → D) (f : A → B) (g : A → C) (l : list A) :
  zip_with h (f <$> l) (g <$> l) = (λ x, h (f x) (g x)) <$> l.
Proof. induction l as [|x l IH]; simpl; [done|]. f_equal. exact IH. Qed.

Lemma node_value_app nc S1 S2 :
  node_value nc (S1 ++ S2) = zip_with plus (node_value nc S1) (node_value nc S2).
Proof.
  unfold node_value. rewrite zip_with_fmap_same. apply list_fmap_ext.
  intros. apply count_if_app.
Qed.

Lemma count_if_perm {A} (p : A → bool) (l1 l2 : list A) :
  l1 ≡ₚ l2 → count_if p l1 = count_if p l2.
Proof.
  induction 1; unfold count_if in *; simpl; try lia.
  - destruct (p x); simpl; lia.
  - destruct (p x), (p y); simpl; lia.
Qed.

(** Class counts do not depend on the order of the samples. *)
#[export] Instance node_value_perm nc : Proper ((≡ₚ) ==> eq) (node_value nc).
Proof.
  intros S1 S2 HS. unfold node_value. apply list_fmap_ext.
  intros. by apply count_if_perm.
Qed.

Lemma count_cls_snoc k S s :
  count_cls k (S ++ [s]) = count_cls k S + (if cls s =? k then 1 else 0).
Proof.
  unfold count_cls, count_if. rewrite List.filter_app, length_app. simpl.
  destruct (cls s =? k); simpl; lia.
Qed.

Lemma incr_node_value nc S s :
  incr (cls s) (node_value nc S) = node_value nc (S ++ [s]).
Proof.
  apply list_eq. intros k. unfold incr.
  destruct (decide (k = cls s)) as [->|Hne].
  - destruct (decide (cls s < nc)).
    + rewrite list_lookup_insert_eq by (by rewrite length_node_value).
      rewrite node_value_lookup, decide_True by done. f_equal.
      rewrite list_lookup_total_alt, node_value_lookup, decide_True by done. simpl.
      rewrite count_cls_snoc, Nat.eqb_refl. lia.
    + rewrite list_insert_ge by (rewrite length_node_value; lia).
      rewrite !node_value_lookup. by rewrite !decide_False.
  - rewrite list_lookup_insert_ne by congruence. rewrite !node_value_lookup.
    case_decide; [|done]. f_equal. rewrite count_cls_snoc.
    destruct (Nat.eqb_spec (cls s) k); [congruence|]. lia.
Qed.

Lemma node_value_nil nc : node_value nc [] = replicate nc 0.
Proof.
  unfold node_value. assert (∀ j, (λ k, count_cls k []) <$> seq j nc = replicate nc 0) as H.
  { induction nc as [|nc IH]; intros j; [done|]. simpl. f_equal. apply IH. }
  apply H.
Qed.

Lemma sum_list_incr k v : k < length v → sum_list (incr k v) = S (sum_list v).
Proof.
  unfold incr. revert k. induction v as [|c v IH]; intros [|k] Hk; simpl in *; try lia.
  rewrite IH by lia. lia.
Qed.

Lemma sum_list_node_value nc S :
  Forall (λ s, cls s < nc) S → sum_list (node_value nc S) = length S.
Proof.
  induction S as [|s S IH] using rev_ind; intros HS.
  - by rewrite node_value_nil, sum_list_replicate.
  - apply Forall_app in HS as [HS [Hs _]%Forall_cons].
    rewrite <-incr_node_value, sum_list_incr, IH, length_app by (by rewrite ?length_node_value).
    simpl. lia.
Qed.

(** ** Soundness of the splitter *)

(** A split is sound for the samples [S] when each side receives a sample
    and the impurity improvement [num / den - sum c^2 / n] is not
    negative, with [den >= 0]. *)
Definition split_ok (nc : nat) (S : list sample) (sp : split) : Prop :=
  (∃ s, s ∈ S ∧ goes_left (sp_feature sp) (sp_thr2 sp) (feat s) = true) ∧
  (∃ s, s ∈ S ∧ goes_left (sp_feature sp) (sp_thr2 sp) (feat s) = false) ∧
  (sq_sum (node_value nc S) * sp_den sp ≤ sp_num sp * Z.of_nat (length S))%Z ∧ (0 ≤ sp_den sp)%Z.

Lemma zip_with_sub_plus (a b : list nat) :
  length a = length b → zip_with Nat.sub (zip_with plus a b) a = b.
Proof.
  revert b. induction a as [|x a IH]; intros [|y b] Hl; simpl in *; try done.
  rewrite IH by lia. f_equal. lia.
Qed.

(** Splitting never increases the weighted Gini impurity:
    [(a+b)^2 x y <= (a^2 y + b^2 x)(x + y)] summed over the classes. *)
Lemma sq_sum_split_le (a b : list nat) (x y : Z) :
  length a = length b →
  (sq_sum (zip_with plus a b) * (x * y) ≤ (sq_sum a * y + sq_sum b * x) * (x + y))%Z.
Proof.
  revert b. induction a as [|c a IH]; intros [|d b] Hl; simpl in *; try lia.
  specialize (IH b ltac:(lia)). rewrite Nat2Z.inj_add.
  pose proof (Z.square_nonneg (Z.of_nat c * y - Z.of_nat d * x)). nia.
Qed.

(** The proxy of a split position is at least [sum c^2 / n]: the
    improvement of a split is never negative. *)
Lemma improvement_nonneg nc pre rest :
  (sq_sum (node_value nc (pre ++ rest)) *
     (Z.of_nat (length pre) * Z.of_nat (length (pre ++ rest) - length pre)) ≤
   (sq_sum (node_value nc pre) * Z.of_nat (length (pre ++ rest) - length pre) +
    sq_sum (zip_with Nat.sub (node_value nc (pre ++ rest)) (node_value nc pre)) *
      Z.of_nat (length pre)) * Z.of_nat (length (pre ++ rest)))%Z.
Proof.
  rewrite node_value_app, zip_with_sub_plus by (by rewrite !length_node_value).
  rewrite length_app, Nat.add_comm, Nat.add_sub, Nat2Z.inj_add.
  pose proof (sq_sum_split_le (node_value nc pre) (node_value nc rest)
                (Z.of_nat (length pre)) (Z.of_nat (length rest))) as H.
  rewrite !length_node_value in H. specialize (H eq_refl). nia.
Qed.

(** A split whose improvement is not negative passes the [EPSILON] test. *)
Lemma improvement_not_negative ntot n v sp :
  (sq_sum v * sp_den sp ≤ sp_num sp * Z.of_nat n)%Z → (0 ≤ sp_den sp)%Z →
  improvement_negative ntot n v sp = false.
Proof.
  intros Hle Hden. unfold improvement_negative. apply Z.ltb_ge.
  apply Z.add_nonneg_nonneg; [apply Z.mul_nonneg_nonneg; lia|].
  apply Z.mul_nonneg_nonneg; [apply Z.mul_nonneg_nonneg|]; lia.
Qed.

Lemma scan_ok msl f nc S rest : ∀ pre best prev,
  pre ++ rest ≡ₚ S → (∃ t, t ∈ pre ∧ fval (feat t) f = prev) →
  (∀ b, best = Some b → split_ok nc S b) →
  ∀ b, scan msl f (length S) (node_value nc S) (node_value nc pre) (length pre) prev rest best = Some b →
  split_ok nc S b.
Proof.
  induction rest as [|s rest IH]; intros pre best prev Hperm [t [Ht Hprev]] Hbest b;
    cbn [scan]; [auto|].
  rewrite incr_node_value.
  replace (Datatypes.S (length pre)) with (length (pre ++ [s])) by (rewrite length_app; simpl; lia).
  apply IH.
  - by rewrite <-app_assoc.
  - exists s. split; [apply elem_of_app; right; by left|done].
  - intros b'. case_match eqn:Hc; [|apply Hbest].
    intros [= <-]. apply andb_prop in Hc as [[[Hlt%Z.ltb_lt _]%andb_prop _]%andb_prop _].
    assert (Hs : s ∈ S) by (rewrite <-Hperm; apply elem_of_app; right; by left).
    assert (Ht' : t ∈ S) by (rewrite <-Hperm; apply elem_of_app; by left).
    split_and!; cbn [sp_feature sp_thr2 sp_num sp_den].
    + exists t. split; [done|]. unfold goes_left. apply Z.leb_le. lia.
    + exists s. split; [done|]. unfold goes_left. apply Z.leb_gt. lia.
    + rewrite <-(node_value_perm nc _ _ Hperm), <-(Permutation_length Hperm).
      apply improvement_nonneg.
    + apply Z.mul_nonneg_nonneg; lia.
Qed.

Lemma sort_by_perm f S : sort_by f S ≡ₚ S.
Proof. apply merge_sort_Permutation. Qed.

(** Every split chosen by [node_split] is sound. *)
Lemma node_split_ok msl nc order S sp :
  node_split msl nc order S = Some sp → split_ok nc S sp.
Proof.
  unfold node_split. revert sp.
  cut (∀ best, (∀ b, best = Some b → split_ok nc S b) →
       ∀ b, foldl (λ best f, match sort_by f S with
                             | [] => best
                             | s0 :: rest => scan msl f (length S) (node_value nc S)
                                 (incr (cls s0) (replicate nc 0)) 1 (fval (feat s0) f) rest best
                             end) best order = Some b → split_ok nc S b); [intros H sp Hsp; by eapply (H None)|].
  induction order as [|f order IH]; intros best Hbest; cbn [foldl]; [done|].
  apply IH. destruct (sort_by f S) as [|s0 rest] eqn:Hs; [done|].
  rewrite <-node_value_nil, (incr_node_value nc [] s0).
  change 1 with (length ([] ++ [s0])).
  apply scan_ok; [|exists s0; split; [set_solver|done]|done].
  transitivity (sort_by f S); [by rewrite Hs|apply sort_by_perm].
Qed.

Lemma filter_length_lt {A} (p : A → bool) (l : list A) x :
  x ∈ l → p x = false → length (List.filter p l) < length l.
Proof.
  intros Hx Hp. pose proof (count_if_complement p l) as H. unfold count_if in H.
  enough (0 < length (List.filter (λ y, negb (p y)) l)) by lia.
  destruct (List.filter (λ y, negb (p y)) l) eqn:E; [|simpl; lia].
  exfalso. apply list_elem_of_In in Hx.
  assert (In x (List.filter (λ y, negb (p y)) l)) as Hin
    by (apply List.filter_In; by rewrite Hp).
  by rewrite E in Hin.
Qed.

(** Both children of a split node are strictly smaller than the node. *)
Lemma split_children_smaller nc S sp :
  split_ok nc S sp →
  length (List.filter (λ s, goes_left (sp_feature sp) (sp_thr2 sp) (feat s)) S) < length S ∧
  length (List.filter (λ s, negb (goes_left (sp_feature sp) (sp_thr2 sp) (feat s))) S) < length S.
Proof.
  intros [[sl [Hsl Hl]] [[sr [Hsr Hr]] _]]. split.
  - by apply (filter_length_lt _ _ sr).
  - apply (filter_length_lt _ _ sl); [done|]. by rewrite Hl.
Qed.

(** The two outcomes of one step of the builder: a leaf, because of the
    stopping rules, the absence of a split or a negative improvement; or a
    split node whose children are built from the two sides of the split. *)
Lemma build_S_inv p nc draw ntot fuel depth id S t id' :
  build p nc draw ntot (Datatypes.S fuel) depth id S = Some (t, id') →
  (t = Leaf (node_value nc S) ∧ id' = Datatypes.S id ∧
   (is_leaf_node p depth (length S) (node_value nc S) = true ∨
    (is_leaf_node p depth (length S) (node_value nc S) = false ∧
     node_split (min_samples_leaf p) nc (draw id) S = None) ∨
    ∃ sp, node_split (min_samples_leaf p) nc (draw id) S = Some sp ∧
          improvement_negative ntot (length S) (node_value nc S) sp = true)) ∨
  (∃ sp tl tr id1,
     is_leaf_node p depth (length S) (node_value nc S) = false ∧
     node_split (min_samples_leaf p) nc (draw id) S = Some sp ∧
     improvement_negative ntot (length S) (node_value nc S) sp = false ∧
     build p nc draw ntot fuel (Datatypes.S depth) (Datatypes.S id)
       (List.filter (λ s, goes_left (sp_feature sp) (sp_thr2 sp) (feat s)) S) = Some (tl, id1) ∧
     build p nc draw ntot fuel (Datatypes.S depth) id1
       (List.filter (λ s, negb (goes_left (sp_feature sp) (sp_thr2 sp) (feat s))) S) = Some (tr, id') ∧
     t = Node (sp_feature sp) (sp_thr2 sp) (node_value nc S) tl tr).
Proof.
  intros Hb. cbn [build] in Hb.
  destruct (is_leaf_node _ _ _ _) eqn:Hil; [injection Hb as <- <-; left; naive_solver|].
  destruct (node_split _ _ _ _) as [sp|] eqn:Hsp; [|injection Hb as <- <-; left; naive_solver].
  destruct (improvement_negative _ _ _) eqn:Himp; [injection Hb as <- <-; left; naive_solver|].
  destruct (build p nc draw ntot fuel _ _ _) as [[tl id1]|] eqn:Hl in Hb; [|done]. simpl in Hb.
  destruct (build p nc draw ntot fuel _ _ _) as [[tr id2]|] eqn:Hr in Hb; [|done]. simpl in Hb.
  injection Hb as <- <-. right. eauto 10.
Qed.

(** With more fuel than samples, [build] always returns a tree. *)
Lemma build_some p nc draw ntot fuel depth id S :
  length S < fuel → ∃ t id', build p nc draw ntot fuel depth id S = Some (t, id').
Proof.
  revert depth id S. induction fuel as [|fuel IH]; intros depth id S Hlt; [lia|].
  cbn [build]. case_match; [eauto|].
  destruct (node_split _ _ _ _) as [sp|] eqn:Hsp; [|eauto].
  case_match; [eauto|].
  destruct (split_children_smaller nc S sp) as [HL HR]; [by eapply node_split_ok|].
  destruct (IH (Datatypes.S depth) (Datatypes.S id)
    (List.filter (λ s, goes_left (sp_feature sp) (sp_thr2 sp) (feat s)) S)) as (tl & id1 & ->); [lia|].
  simpl. destruct (IH (Datatypes.S depth) id1
    (List.filter (λ s, negb (goes_left (sp_feature sp) (sp_thr2 sp) (feat s))) S)) as (tr & id2 & ->); [lia|].
  simpl. eauto.
Qed.

(** Node ids are allocated in preorder, one per node. *)
Lemma build_ids p nc draw ntot fuel : ∀ depth id S t id',
  build p nc draw ntot fuel depth id S = Some (t, id') → id' = id + node_count t.
Proof.
  induction fuel as [|fuel IH]; intros depth id S t id' Hb; [done|].
  apply build_S_inv in Hb as [(-> & -> & _)|(sp & tl & tr & id1 & _ & _ & _ & Hl & Hr & ->)];
    cbn [node_count]; [lia|].
  apply IH in Hl, Hr. lia.
Qed.

Lemma filter_complement_perm {A} (q : A → bool) (l : list A) :
  List.filter q l ++ List.filter (λ x, negb (q x)) l ≡ₚ l.
Proof.
  induction l as [|x l IH]; simpl; [done|].
  destruct (q x); simpl; [by f_equiv|]. rewrite <-Permutation_middle. by f_equiv.
Qed.

(** The class counts of a node are the sums of those of the two sides of
    any partition of its samples. *)
Lemma node_value_filter nc (q : sample → bool) S :
  node_value nc S =
  zip_with plus (node_value nc (List.filter q S)) (node_value nc (List.filter (λ s, negb (q s)) S)).
Proof. rewrite <-node_value_app. apply node_value_perm. symmetry. apply filter_complement_perm. Qed.

(** C6.  The [tree_.value] invariant: the root of a built tree holds the
    class counts of its samples, and the counts of every split node are
    the sums of the counts of its two children. *)
Theorem build_values_consistent p nc draw ntot fuel : ∀ depth id S t id',
  build p nc draw ntot fuel depth id S = Some (t, id') →
  value_of t = node_value nc S ∧ value_additive t.
Proof.
  induction fuel as [|fuel IH]; intros depth id S t id' Hb; [done|].
  apply build_S_inv in Hb as [(-> & -> & _)|(sp & tl & tr & id1 & _ & _ & _ & Hl & Hr & ->)]; [done|].
  apply IH in Hl as [Hvl Hal], Hr as [Hvr Har].
  cbn [value_of value_additive]. split_and!; [done| |done|done].
  rewrite Hvl, Hvr. apply node_value_filter.
Qed.

Lemma build_values_consistent_witness :
  build (builder_params DecisionTreeClassifier) 2 (λ _, [0; 1]) 2 3 0 0
    [mk_sample [0; 0]%Z 0; mk_sample [1; 1]%Z 1] =
    Some (Node 0 1 [1; 1] (Leaf [1; 0]) (Leaf [0; 1]), 3) ∧
  value_of (Node 0 1 [1; 1] (Leaf [1; 0]) (Leaf [0; 1])) =
    node_value 2 [mk_sample [0; 0]%Z 0; mk_sample [1; 1]%Z 1] ∧
  value_additive (Node 0 1 [1; 1] (Leaf [1; 0]) (Leaf [0; 1])).
Proof.
  assert (Hb : build (builder_params DecisionTreeClassifier) 2 (λ _, [0; 1]) 2 3 0 0
    [mk_sample [0; 0]%Z 0; mk_sample [1; 1]%Z 1] =
    Some (Node 0 1 [1; 1] (Leaf [1; 0]) (Leaf [0; 1]), 3)) by (vm_compute; reflexivity).
  split; [exact Hb|]. exact (build_values_consistent _ _ _ _ _ _ _ _ _ _ Hb).
Defined.

(** C7.  Termination of the tree builder: with more fuel than samples,
    [build] returns a tree, and the next free node id is the start id plus
    the number of nodes, since ids are given in preorder. *)
Theorem build_terminates p nc draw ntot fuel depth id S :
  length S < fuel →
  ∃ t id', build p nc draw ntot fuel depth id S = Some (t, id') ∧ id' = id + node_count t.
Proof.
  intros Hlt. destruct (build_some p nc draw ntot fuel depth id S Hlt) as (t & id' & Hb).
  exists t, id'. split; [done|]. by eapply build_ids.
Qed.

Lemma build_terminates_witness :
  length [mk_sample [0; 0]%Z 0; mk_sample [1; 1]%Z 1] < 3 ∧
  ∃ t id', build (builder_params DecisionTreeClassifier) 2 (λ _, [0; 1]) 2 3 0 0
             [mk_sample [0; 0]%Z 0; mk_sample [1; 1]%Z 1] = Some (t, id') ∧ id' = 0 + node_count t.
Proof. split; [simpl; lia|]. apply build_terminates. simpl. lia. Defined.

(** ** Purity of leaves *)

(** All samples of [S] have the same class. *)
Definition pure (S : list sample) : Prop := ∀ s t, s ∈ S → t ∈ S → cls s = cls t.

(** Samples with equal features have equal classes. *)
Definition consistent (S : list sample) : Prop :=
  ∀ s t, s ∈ S → t ∈ S → feat s = feat t → cls s = cls t.

Lemma pure_small S : length S ≤ 1 → pure S.
Proof.
  destruct S as [|s0 [|s1 S']]; simpl; intros Hl x y Hx Hy; [set_solver| |lia].
  apply list_elem_of_singleton in Hx, Hy. by subst.
Qed.

Lemma count_cls_zero k S : (∀ t, t ∈ S → cls t ≠ k) → count_cls k S = 0.
Proof.
  induction S as [|t S IH]; intros H; [done|]. unfold count_cls, count_if in *. simpl.
  destruct (Nat.eqb_spec (cls t) k) as [E|]; [exfalso; eapply H; [left|done]|].
  apply IH. intros t' Ht'. apply H. by right.
Qed.

Lemma count_cls_pos s S : s ∈ S → 0 < count_cls (cls s) S.
Proof.
  induction S as [|t S IH]; intros Hs; [set_solver|]. unfold count_cls, count_if in *. simpl.
  apply elem_of_cons in Hs as [->|Hs].
  - rewrite Nat.eqb_refl. simpl. lia.
  - specialize (IH Hs). destruct (cls t =? cls s); simpl; lia.
Qed.

(** The prediction at a pure node is its class. *)
Lemma argmax_node_value_pure nc S s :
  pure S → s ∈ S → cls s < nc → argmax (node_value nc S) = cls s.
Proof.
  intros Hp Hs Hc. apply (argmax_single _ _ (count_cls (cls s) S)).
  - by rewrite node_value_lookup, decide_True.
  - by apply count_cls_pos.
  - intros k w Hk. rewrite node_value_lookup. case_decide; [|done].
    intros [= <-]. apply count_cls_zero. intros t Ht. by rewrite (Hp t s).
Qed.

Lemma sum_list_lookup_le (v : list nat) k w : v !! k = Some w → w ≤ sum_list v.
Proof.
  revert k. induction v as [|c v IH]; intros [|k] Hk; simpl in *; simplify_eq; [lia|].
  specialize (IH _ Hk). lia.
Qed.

Lemma sq_sum_le_square v : (sq_sum v ≤ Z.of_nat (sum_list v) * Z.of_nat (sum_list v))%Z.
Proof. induction v as [|c v IH]; simpl; [lia|]. rewrite Nat2Z.inj_add. nia. Qed.

(** [sum c^2 = (sum c)^2] leaves at most one nonzero count. *)
Lemma sq_sum_eq_square v i j a b :
  sq_sum v = (Z.of_nat (sum_list v) * Z.of_nat (sum_list v))%Z →
  i ≠ j → v !! i = Some a → v !! j = Some b → a = 0 ∨ b = 0.
Proof.
  revert i j. induction v as [|c v IH]; intros i j Hsq Hij Hi Hj; [done|].
  simpl in Hsq. rewrite Nat2Z.inj_add in Hsq. pose proof (sq_sum_le_square v) as Hle.
  assert (c = 0 ∨ sum_list v = 0) as Hcv by nia.
  assert (sq_sum v = Z.of_nat (sum_list v) * Z.of_nat (sum_list v))%Z as Hsq' by nia.
  assert (∀ k w, v !! k = Some w → sum_list v = 0 → w = 0) as Hzero.
  { intros k w Hk Hs. pose proof (sum_list_lookup_le v k w Hk). lia. }
  destruct i as [|i], j as [|j]; simpl in *; simplify_eq.
  - destruct Hcv; [by left|]. right. eauto.
  - destruct Hcv; [by right|]. left. eauto.
  - eapply IH; [done| |done|done]. congruence.
Qed.

(** At most [EPSILON] of Gini impurity means a pure node, for nodes of
    fewer than [2^26] samples (then [n^2 < 2^52]). *)
Lemma gini_le_eps_pure nc S :
  Forall (λ s, cls s < nc) S → (Z.of_nat (length S) < 2 ^ 26)%Z →
  gini_le_eps (node_value nc S) = true → pure S.
Proof.
  intros Hcls Hlen Hg%Z.leb_le. rewrite sum_list_node_value in Hg by done.
  pose proof (sq_sum_le_square (node_value nc S)) as Hle.
  rewrite sum_list_node_value in Hle by done.
  assert (sq_sum (node_value nc S) = Z.of_nat (length S) * Z.of_nat (length S))%Z as Hsq.
  { assert (Z.of_nat (length S) * Z.of_nat (length S) < 2 ^ 52)%Z by nia. nia. }
  rewrite <-(sum_list_node_value nc S) in Hsq by done.
  intros s t Hs Ht. destruct (decide (cls s = cls t)) as [|Hne]; [done|exfalso].
  rewrite Forall_forall in Hcls.
  destruct (sq_sum_eq_square _ _ _ (count_cls (cls s) S) (count_cls (cls t) S) Hsq Hne)
    as [?|?]; rewrite ?node_value_lookup, ?decide_True by auto; try done.
  - pose proof (count_cls_pos s S Hs). lia.
  - pose proof (count_cls_pos t S Ht). lia.
Qed.

Lemma scan_Some msl f n total lc nl prev rest b :
  scan msl f n total lc nl prev rest (Some b) ≠ None.
Proof.
  revert lc nl prev b. induction rest as [|s rest IH]; intros lc nl prev b; cbn [scan]; [done|].
  case_match; apply IH.
Qed.

(** With no candidate position, a feature is constant along the sorted scan. *)
Lemma scan_None_const msl f n total rest : ∀ lc nl prev,
  msl ≤ 1 → 1 ≤ nl → n = nl + length rest →
  Forall (λ t, prev ≤ fval (feat t) f)%Z rest → StronglySorted (le_on f) rest →
  scan msl f n total lc nl prev rest None = None →
  Forall (λ t, fval (feat t) f = prev) rest.
Proof.
  induction rest as [|s rest IH]; intros lc nl prev Hmsl Hnl Hn Hge Hsorted; cbn [scan]; [done|].
  apply Forall_cons in Hge as [Hs Hge]. apply StronglySorted_inv in Hsorted as [Hsorted Hle].
  destruct (Z.ltb_spec prev (fval (feat s) f)) as [Hlt|Hnlt].
  - simpl. rewrite (proj2 (Nat.leb_le msl nl)), (proj2 (Nat.leb_le msl (n - nl))) by (simpl in Hn; lia).
    intros H. by apply scan_Some in H.
  - simpl. intros H. assert (fval (feat s) f = prev) as Hx by lia.
    constructor; [done|]. rewrite <-Hx.
    apply (IH (incr (cls s) lc) (Datatypes.S nl)); [done|lia|simpl in *; lia| |done|exact H].
    rewrite Forall_forall. intros t Ht. rewrite Forall_forall in Hle. by apply Hle.
Qed.

Lemma foldl_None_inv {A B} (g : option A → B → option A) (l : list B) best :
  (∀ a x, g (Some a) x ≠ None) → foldl g best l = None → best = None ∧ ∀ x, x ∈ l → g None x = None.
Proof.
  revert best. induction l as [|x l IH]; intros best Hg; simpl; [set_solver|].
  intros [H1 H2]%IH; [|done]. destruct best as [a|]; [by destruct (Hg a x)|].
  split; [done|]. intros y [->|?]%elem_of_cons; auto.
Qed.

(** [node_split] finds nothing only when every drawn feature is constant. *)
Lemma node_split_None_const msl nc order S :
  msl ≤ 1 → node_split msl nc order S = None →
  ∀ f, f ∈ order → ∀ s t, s ∈ S → t ∈ S → fval (feat s) f = fval (feat t) f.
Proof.
  intros Hmsl Hns f Hf. apply foldl_None_inv in Hns as [_ Hall].
  2:{ intros a g. destruct (sort_by g S); [done|]. apply scan_Some. }
  specialize (Hall f Hf). simpl in Hall.
  destruct (sort_by f S) as [|s0 rest] eqn:Hsort.
  - intros s t Hs. pose proof (sort_by_perm f S) as Hp. rewrite Hsort in Hp.
    apply Permutation_nil_l in Hp. subst. set_solver.
  - assert (StronglySorted (le_on f) (s0 :: rest)) as Hss.
    { rewrite <-Hsort. apply StronglySorted_merge_sort; unfold le_on.
      - intros ???; lia.
      - intros x y. destruct (Z.le_ge_cases (fval (feat x) f) (fval (feat y) f)); auto. }
    pose proof (Permutation_length (sort_by_perm f S)) as Hlen. rewrite Hsort in Hlen.
    apply StronglySorted_inv in Hss as [Hss Hle].
    rewrite <-node_value_nil, (incr_node_value nc [] s0) in Hall.
    apply scan_None_const in Hall; [|done|done|simpl in *; lia| |done].
    2:{ rewrite Forall_forall. intros t Ht. rewrite Forall_forall in Hle. by apply Hle. }
    assert (∀ u, u ∈ S → fval (feat u) f = fval (feat s0) f) as Hconst.
    { intros u Hu. rewrite <-(sort_by_perm f S), Hsort in Hu.
      apply elem_of_cons in Hu as [->|Hu]; [done|]. rewrite Forall_forall in Hall. by apply Hall. }
    intros s t Hs Ht. by rewrite (Hconst s Hs), (Hconst t Ht).
Qed.

(** Rows of width [d] that agree on every feature below [d] are equal. *)
Lemma feat_eq_of_fval d (x z : list Z) :
  length x = d → length z = d → (∀ f, f < d → fval x f = fval z f) → x = z.
Proof.
  intros Hx Hz Hf. apply list_eq. intros i. unfold fval in Hf.
  destruct (decide (i < d)).
  - rewrite !list_lookup_lookup_total_lt by lia. f_equal. by apply Hf.
  - rewrite !lookup_ge_None_2 by lia. done.
Qed.

Lemma consistent_filter (q : sample → bool) S : consistent S → consistent (List.filter q S).
Proof.
  intros H s t [Hs _]%elem_of_bool_filter [Ht _]%elem_of_bool_filter. by apply H.
Qed.
#[local] Hint Resolve consistent_filter : pyrt.

(** On consistent training data (equal rows carry equal labels),
    with the default [min_samples_leaf = 1] and [min_samples_split <= 2],
    every feature drawn at every node, and fewer than [2^26] samples, the
    tree returned by the builder sends every training sample to a leaf
    whose majority class is the sample's own class. *)
Lemma build_classifies_samples p nc draw ntot d fuel :
  min_samples_leaf p = 1 → min_samples_split p ≤ 2 →
  (∀ i f, f < d → f ∈ draw i) →
  ∀ depth id S t id',
  (N.of_nat (depth + length S) < depth_bound p)%N →
  Forall (λ s, length (feat s) = d ∧ cls s < nc) S →
  consistent S → (Z.of_nat (length S) < 2 ^ 26)%Z →
  build p nc draw ntot fuel depth id S = Some (t, id') →
  ∀ s, s ∈ S → argmax (apply t (feat s)) = cls s.
Proof.
  intros Hmsl Hmss Hdraw. induction fuel as [|fuel IH];
    intros depth id S t id' Hdepth HS Hcons Hlen Hb s Hs; [done|].
  assert (Hcls : Forall (λ s, cls s < nc) S).
  { eapply Forall_impl; [done|]. naive_solver. }
  assert (Hpure : pure S → argmax (node_value nc S) = cls s).
  { intros Hp. apply argmax_node_value_pure; [done|done|].
    rewrite Forall_forall in Hcls. by apply Hcls. }
  apply build_S_inv in Hb as [(-> & _ & [Hil|[[_ Hsp]|(sp & Hsp & Himp)]])|
                              (sp & tl & tr & id1 & _ & Hsp & _ & Hl & Hr & ->)].
  - apply Hpure. unfold is_leaf_node in Hil.
    apply orb_prop in Hil as [[[Hd%N.leb_le|Hn%Nat.ltb_lt]%orb_prop|Hn%Nat.ltb_lt]%orb_prop|Hg].
    + lia.
    + apply pure_small. lia.
    + apply pure_small. lia.
    + by apply (gini_le_eps_pure nc).
  - apply Hpure. intros u v Hu Hv. apply Hcons; [done|done|].
    apply (feat_eq_of_fval d); [rewrite Forall_forall in HS; naive_solver..|].
    intros f Hf. apply (node_split_None_const (min_samples_leaf p) nc (draw id) S);
      [lia|done|by apply Hdraw|done|done].
  - exfalso. destruct (node_split_ok _ _ _ _ _ Hsp) as (_ & _ & Hle & Hden).
    by rewrite improvement_not_negative in Himp.
  - destruct (split_children_smaller nc S sp) as [HL HR]; [by eapply node_split_ok|].
    simpl. destruct (goes_left (sp_feature sp) (sp_thr2 sp) (feat s)) eqn:Hgo.
    + refine (IH _ _ _ _ _ _ _ _ _ Hl s _); [lia|eauto with pyrt..|lia|by apply elem_of_bool_filter].
    + refine (IH _ _ _ _ _ _ _ _ _ Hr s _); [lia|eauto with pyrt..|lia|].
      apply elem_of_bool_filter. by rewrite Hgo.
Qed.

(** ** Label encoding *)

Lemma elem_of_insert_sorted z w l : w ∈ insert_sorted z l ↔ w = z ∨ w ∈ l.
Proof.
  induction l as [|v l IH]; simpl; [set_solver|].
  destruct (Z.ltb_spec z v); [set_solver|].
  destruct (Z.eqb_spec z v); [subst; set_solver|]. set_solver.
Qed.

Lemma insert_sorted_sorted z l : Sorted Z.lt l → Sorted Z.lt (insert_sorted z l).
Proof.
  induction 1 as [|v l Hl IH Hhd]; simpl; [by repeat constructor|].
  destruct (Z.ltb_spec z v); [by repeat constructor|].
  destruct (Z.eqb_spec z v); [by constructor|].
  constructor; [done|]. destruct l as [|u l]; simpl; [constructor; lia|].
  inversion Hhd; subst. destruct (Z.ltb_spec z u); [constructor; lia|].
  destruct (Z.eqb_spec z u); constructor; lia.
Qed.

Lemma index_of_lookup z l : z ∈ l → l !! index_of z l = Some z.
Proof.
  induction l as [|v l IH]; simpl; [set_solver|]. intros Hz.
  destruct (Z.eqb_spec z v) as [->|Hne]; [done|]. apply IH. set_solver.
Qed.

Lemma elem_of_unique y z : z ∈ unique y ↔ z ∈ y.
Proof.
  induction y as [|v y IH]; simpl; [set_solver|].
  rewrite elem_of_insert_sorted, elem_of_cons, IH. done.
Qed.

Lemma unique_sorted y : Sorted Z.lt (unique y).
Proof. induction y as [|v y IH]; simpl; [constructor|]. by apply insert_sorted_sorted. Qed.

(** C15.  [np.unique(y, return_inverse=True)]: the classes are sorted and
    distinct, they are exactly the labels of [y], and decoding the inverse
    indices gives back [y]. *)
Theorem unique_encode_roundtrip (y : list Z) :
  Sorted Z.lt (unique y) ∧ (∀ z, z ∈ unique y ↔ z ∈ y) ∧
  (λ k, unique y !!! k) <$> encode (unique y) y = y.
Proof.
  pose proof (elem_of_unique y) as Hel.
  split_and!; [|done|].
  - apply unique_sorted.
  - unfold encode. rewrite <-list_fmap_compose. rewrite <-(list_fmap_id y) at 2.
    apply list_fmap_ext. intros i z Hz. simpl.
    apply list_lookup_total_correct, index_of_lookup, Hel.
    by eapply list_elem_of_lookup_2.
Qed.

Lemma index_of_lt z l : z ∈ l → index_of z l < length l.
Proof. intros Hz%index_of_lookup. by eapply lookup_lt_Some. Qed.

(** ** [fit] and [predict] *)

Lemma validate_params_Ok p p' : validate_params p = Ok p' → p' = p.
Proof.
  unfold validate_params. repeat case_bool_decide; try done.
  destruct (max_depth p) as [[|d]|]; naive_solver.
Qed.

Lemma check_array_Ok X X' :
  check_array X = Ok X' ↔ length (rows X) ≠ 0 ∧ ncols X ≠ 0 ∧ X' = X.
Proof. unfold check_array. repeat case_bool_decide; naive_solver. Qed.

Lemma fit_Ok p draw X y clf :
  fit p draw X y = Ok clf ↔
  validate_params p = Ok p ∧ length (rows X) ≠ 0 ∧ ncols X ≠ 0 ∧ length y = length (rows X) ∧
  clf = mk_fitted (grow p (length (unique y)) draw (training_samples (unique y) X y))
                  (unique y) (ncols X).
Proof.
  unfold fit. split.
  - intros (p' & Hp & (X' & (? & ? & ->)%check_array_Ok & Hf)%bind_Ok)%bind_Ok.
    pose proof (validate_params_Ok _ _ Hp); subst p'.
    case_bool_decide; [done|]. case_bool_decide; [done|].
    injection Hf as <-. split_and!; [done|done|done|lia|done].
  - intros (Hp & ? & ? & ? & ->). rewrite Hp. cbn [mbind result_bind].
    rewrite (proj2 (check_array_Ok X X)) by done. cbn [mbind result_bind].
    rewrite !bool_decide_eq_false_2 by lia. done.
Qed.

Lemma training_samples_lookup classes X y i s :
  training_samples classes X y !! i = Some s ↔
  ∃ x z, rows X !! i = Some x ∧ y !! i = Some z ∧ s = mk_sample x (index_of z classes).
Proof.
  unfold training_samples, encode. rewrite lookup_zip_with, list_lookup_fmap.
  destruct (rows X !! i), (y !! i); naive_solver.
Qed.

Lemma grow_build p nc draw S :
  ∃ id', build (builder_params p) nc draw (length S) (Datatypes.S (length S)) 0 0 S = Some (grow p nc draw S, id').
Proof.
  destruct (build_some (builder_params p) nc draw (length S) (Datatypes.S (length S)) 0 0 S)
    as (t & id' & Hb); [lia|].
  exists id'. unfold grow. by rewrite Hb.
Qed.

(** Every leaf of a built tree has one count per class. *)
Fixpoint leaves_wf (nc : nat) (t : tree) : Prop :=
  match t with
  | Leaf v => length v = nc
  | Node _ _ _ l r => leaves_wf nc l ∧ leaves_wf nc r
  end.

Lemma build_leaves_wf p nc draw ntot fuel : ∀ depth id S t id',
  build p nc draw ntot fuel depth id S = Some (t, id') → leaves_wf nc t.
Proof.
  induction fuel as [|fuel IH]; intros depth id S t id' Hb; [done|].
  apply build_S_inv in Hb as [(-> & -> & _)|(sp & tl & tr & id1 & _ & _ & _ & Hl & Hr & ->)];
    [apply length_node_value|split; eauto].
Qed.

Lemma apply_length nc t x : leaves_wf nc t → length (apply t x) = nc.
Proof. induction t; simpl; [done|]. intros [??]. case_match; auto. Qed.

Lemma grow_leaves_wf p nc draw S : leaves_wf nc (grow p nc draw S).
Proof. destruct (grow_build p nc draw S) as [id' Hb]. by eapply build_leaves_wf. Qed.

Lemma training_samples_wf X y :
  matrix_wf X → length y = length (rows X) →
  Forall (λ s, length (feat s) = ncols X ∧ cls s < length (unique y))
         (training_samples (unique y) X y).
Proof.
  intros Hwf Hlen. apply Forall_lookup. intros i s (x & z & Hx & Hz & ->)%training_samples_lookup.
  simpl. split; [exact (Forall_lookup_1 _ _ _ _ Hwf Hx)|].
  apply index_of_lt, elem_of_unique. by eapply list_elem_of_lookup_2.
Qed.

Lemma training_samples_consistent X y :
  (∀ i j x, rows X !! i = Some x → rows X !! j = Some x → y !! i = y !! j) →
  consistent (training_samples (unique y) X y).
Proof.
  intros Hc s t (i & Hi)%list_elem_of_lookup (j & Hj)%list_elem_of_lookup Hst.
  apply training_samples_lookup in Hi as (x & z & Hx & Hz & ->).
  apply training_samples_lookup in Hj as (x' & z' & Hx' & Hz' & ->).
  simpl in *. subst x'. pose proof (Hc i j x Hx Hx') as Hij. congruence.
Qed.

Lemma length_training_samples classes X y :
  length y = length (rows X) → length (training_samples classes X y) = length (rows X).
Proof.
  intros Hl. unfold training_samples, encode.
  rewrite length_zip_with, length_fmap. lia.
Qed.

(** C5.  [fit] followed by [predict] on the training matrix returns the
    training labels, when equal rows carry equal labels, every feature is
    drawn at every node and there are fewer than [2^26] rows. *)
Theorem fit_predicts_training draw X y clf :
  fit DecisionTreeClassifier draw X y = Ok clf → matrix_wf X →
  (∀ i j x, rows X !! i = Some x → rows X !! j = Some x → y !! i = y !! j) →
  (∀ i f, f < ncols X → f ∈ draw i) →
  (Z.of_nat (length (rows X)) < 2 ^ 26)%Z →
  predict clf X = Ok y.
Proof.
  intros (_ & Hn & Hd & Hlen & ->)%fit_Ok Hwf Hc Hdraw Hbound.
  set (S := training_samples (unique y) X y).
  destruct (grow_build DecisionTreeClassifier (length (unique y)) draw S) as [id' Hb].
  assert (Hfit : ∀ s, s ∈ S →
    argmax (apply (grow DecisionTreeClassifier (length (unique y)) draw S) (feat s)) = cls s).
  { eapply (build_classifies_samples (builder_params DecisionTreeClassifier) _ draw _ (ncols X));
      [done|simpl; lia|done| | |apply training_samples_consistent, Hc| |exact Hb].
    - unfold S. rewrite length_training_samples by done.
      change (depth_bound (builder_params DecisionTreeClassifier)) with INT32_MAX.
      unfold INT32_MAX. lia.
    - by apply training_samples_wf.
    - unfold S. by rewrite length_training_samples. }
  unfold predict, validate_X_predict. simpl.
  rewrite (proj2 (check_array_Ok X X)) by done. simpl.
  rewrite bool_decide_eq_true_2 by done. cbn [mbind result_bind]. f_equal.
  apply list_eq. intros i. rewrite list_lookup_fmap.
  destruct (rows X !! i) as [x|] eqn:Hx; simpl.
  - destruct (y !! i) as [z|] eqn:Hz.
    2:{ apply lookup_ge_None in Hz. apply lookup_lt_Some in Hx. lia. }
    assert (HS : S !! i = Some (mk_sample x (index_of z (unique y)))).
    { apply training_samples_lookup. eauto. }
    pose proof (Hfit _ (list_elem_of_lookup_2 _ _ _ HS)) as Hs. simpl in Hs. rewrite Hs.
    f_equal. apply list_lookup_total_correct, index_of_lookup, elem_of_unique.
    by eapply list_elem_of_lookup_2.
  - symmetry. apply lookup_ge_None. apply lookup_ge_None in Hx. lia.
Qed.

Lemma unique_nonempty y : y ≠ [] → unique y ≠ [].
Proof.
  destruct y as [|z y]; [done|]. intros _ Hu.
  assert (z ∈ unique (z :: y)) as Hz by (apply elem_of_unique; set_solver).
  rewrite Hu in Hz. set_solver.
Qed.

Lemma fit_predicts_training_witness :
  let X := mk_matrix 2 [[0; 0]; [1; 1]; [0; 1]]%Z in
  let y := [5; 7; 5]%Z in
  let clf := mk_fitted (Node 0 1 [2; 1] (Leaf [2; 0]) (Leaf [0; 1])) [5; 7]%Z 2 in
  fit DecisionTreeClassifier (λ _, [0; 1]) X y = Ok clf ∧ matrix_wf X ∧
  (∀ i j x, rows X !! i = Some x → rows X !! j = Some x → y !! i = y !! j) ∧
  (∀ (i : nat) f, f < ncols X → f ∈ [0; 1]) ∧ (Z.of_nat (length (rows X)) < 2 ^ 26)%Z ∧
  predict clf X = Ok y.
Proof.
  intros X y clf.
  assert (Hfit : fit DecisionTreeClassifier (λ _, [0; 1]) X y = Ok clf) by (vm_compute; reflexivity).
  assert (Hwf : matrix_wf X) by (repeat constructor).
  assert (Hc : ∀ i j x, rows X !! i = Some x → rows X !! j = Some x → y !! i = y !! j).
  { intros [|[|[|i]]] [|[|[|j]]] x Hi Hj; simpl in *; simplify_eq; done. }
  assert (Hd : ∀ (i : nat) f, f < ncols X → f ∈ [0; 1]).
  { intros _ [|[|f]] Hf; simpl in Hf; [set_solver|set_solver|lia]. }
  assert (Hz : (Z.of_nat (length (rows X)) < 2 ^ 26)%Z) by (simpl; lia).
  split_and!; [exact Hfit|exact Hwf|exact Hc|exact Hd|exact Hz|].
  exact (fit_predicts_training _ X y clf Hfit Hwf Hc Hd Hz).
Defined.

(** The label predicted for any row is a label of the training set. *)
Lemma fit_prediction_in_labels p draw X y clf x :
  fit p draw X y = Ok clf → classes_ clf !!! argmax (apply (tree_ clf) x) ∈ y.
Proof.
  intros (_ & Hn & _ & Hlen & ->)%fit_Ok. simpl.
  assert (Hne : unique y ≠ []) by (apply unique_nonempty; intros ->; simpl in *; lia).
  apply elem_of_unique, list_elem_of_lookup_total_2.
  pose proof (apply_length _ _ x (grow_leaves_wf p (length (unique y)) draw
                                  (training_samples (unique y) X y))) as Hl.
  set (v := apply _ x) in *. enough (argmax v < length v) by lia.
  apply argmax_lt. intros Hnil. apply Hne, nil_length_inv. by rewrite <-Hl, Hnil.
Qed.

(** C8.  Every label [predict] returns is a label of the training set,
    one per input row. *)
Theorem fit_predict_labels p draw X y clf T l :
  fit p draw X y = Ok clf → predict clf T = Ok l →
  length l = length (rows T) ∧ Forall (λ c, c ∈ y) l.
Proof.
  intros Hf (_ & _ & _ & ->)%predict_Ok. rewrite length_fmap. split; [done|].
  apply Forall_fmap, Forall_forall. intros x _. by eapply fit_prediction_in_labels.
Qed.

Lemma fit_predict_labels_witness :
  let X := mk_matrix 2 [[0; 0]; [1; 1]; [0; 1]]%Z in
  let clf := mk_fitted (Node 0 1 [2; 1] (Leaf [2; 0]) (Leaf [0; 1])) [5; 7]%Z 2 in
  fit DecisionTreeClassifier (λ _, [0; 1]) X [5; 7; 5]%Z = Ok clf ∧
  predict clf (mk_matrix 2 [[1; 0]; [0; 5]]%Z) = Ok [7; 5]%Z ∧
  length [7; 5]%Z = length (rows (mk_matrix 2 [[1; 0]; [0; 5]]%Z)) ∧
  Forall (λ c, c ∈ [5; 7; 5]%Z) [7; 5]%Z.
Proof.
  intros X clf.
  assert (Hf : fit DecisionTreeClassifier (λ _, [0; 1]) X [5; 7; 5]%Z = Ok clf) by (vm_compute; reflexivity).
  assert (Hp : predict clf (mk_matrix 2 [[1; 0]; [0; 5]]%Z) = Ok [7; 5]%Z) by (vm_compute; reflexivity).
  split; [exact Hf|]. split; [exact Hp|]. exact (fit_predict_labels _ _ _ _ _ _ _ Hf Hp).
Defined.

(** C14.  The errors of [fit], in the order scikit-learn checks them:
    the hyper-parameters, an empty or featureless [X], an empty [y], and
    a label count different from the row count. *)
Theorem fit_errors p draw X y e :
  (validate_params p = Err e → fit p draw X y = Err e) ∧
  (validate_params p = Ok p → length (rows X) = 0 →
     fit p draw X y = Err (min_samples_error X)) ∧
  (validate_params p = Ok p → length (rows X) ≠ 0 → ncols X = 0 →
     fit p draw X y = Err (min_features_error X)) ∧
  (validate_params p = Ok p → length (rows X) ≠ 0 → ncols X ≠ 0 → length y = 0 →
     fit p draw X y = Err y_min_samples_error) ∧
  (validate_params p = Ok p → length (rows X) ≠ 0 → ncols X ≠ 0 → length y ≠ 0 →
     length y ≠ length (rows X) → fit p draw X y = Err (labels_error (length y) (length (rows X)))).
Proof.
  unfold fit, check_array.
  split_and!; intros Hp; rewrite Hp; cbn [mbind result_bind]; [done|..]; intros;
    rewrite ?(bool_decide_eq_true_2 (length (rows X) = 0)),
            ?(bool_decide_eq_false_2 (length (rows X) = 0)),
            ?(bool_decide_eq_true_2 (ncols X = 0)), ?(bool_decide_eq_false_2 (ncols X = 0))
      by lia; cbn [mbind result_bind];
    rewrite ?(bool_decide_eq_true_2 (length y = 0)), ?(bool_decide_eq_false_2 (length y = 0)),
            ?(bool_decide_eq_true_2 (length y ≠ length (rows X))) by lia; done.
Qed.


(** The script does not fix [random_state], and the draw shows in the
    predictions: on the two samples [(0,0)] with label 0 and [(1,1)] with
    label 1 both features split perfectly, the first feature drawn wins
    the tie, and the prediction for [(1,0)] differs between the draws. *)
Example fit_depends_on_draw :
  (clf ← fit DecisionTreeClassifier (λ _, [0; 1]) (mk_matrix 2 [[0; 0]; [1; 1]]%Z) [0; 1]%Z;
   predict clf (mk_matrix 2 [[1; 0]]%Z)) = Ok [1%Z] ∧
  (clf ← fit DecisionTreeClassifier (λ _, [1; 0]) (mk_matrix 2 [[0; 0]; [1; 1]]%Z) [0; 1]%Z;
   predict clf (mk_matrix 2 [[1; 0]]%Z)) = Ok [0%Z].
Proof. split; vm_compute; reflexivity. Qed.

(** ** The classifier as an [Estimator] *)

(** [DecisionTreeClassifier()] with the feature order [draw]. *)
Definition cart_estimator (draw : nat → list nat) : Estimator fitted :=
  {| est_fit := fit DecisionTreeClassifier draw; est_predict := predict |}.

Lemma fit_default_Ok draw X y :
  length (rows X) ≠ 0 → ncols X ≠ 0 → length y = length (rows X) →
  fit DecisionTreeClassifier draw X y =
    Ok (mk_fitted (grow DecisionTreeClassifier (length (unique y)) draw
                     (training_samples (unique y) X y)) (unique y) (ncols X)).
Proof. intros. by apply fit_Ok. Qed.

#[export] Instance cart_estimator_laws draw : @EstimatorLaws fitted (cart_estimator draw).
Proof.
  split; cbn [est_fit est_predict cart_estimator].
  - intros X y _ Hl Hn Hd. eexists. apply fit_default_Ok; lia.
  - intros X y m T (_ & _ & HX & _ & ->)%fit_Ok Hn Hd. eexists.
    apply predict_Ok. split_and!; [done|simpl in *; lia|done|done].
  - intros X y m T _ Hn. eexists. by apply predict_no_rows.
  - intros X y m T l Hf (_ & _ & _ & ->)%predict_Ok. rewrite length_fmap. split; [done|].
    apply Forall_fmap, Forall_forall. intros x _. by eapply fit_prediction_in_labels.
Qed.

End Cart.
