(* ===== verification/CartProps.v ===== *)
(** * The splitter against an exhaustive search; size and shape of the fitted tree

    scikit-learn's [BestSplitter] walks the samples sorted by a feature
    once, keeping the class counts of the left side up to date with one
    [Criterion.update] per position and obtaining the right side's counts
    as [sum_total - sum_left] ([scan]).  The reference search
    [best_split_ref] states what the walk computes without the running
    counts: for every feature in the drawn order and every position [p]
    of the sorted samples, it counts both sides afresh ([split_at]) and
    keeps a candidate that strictly improves on the best one so far
    ([keep_better]).  [node_split_refines] proves the two equal.  Through
    it, [node_split_first_best] characterises the split chosen: of all
    candidates, listed in the order the search meets them
    ([candidates]), the first one of largest proxy.

    The second part bounds the fitted tree by the number of training rows
    (at most one leaf per row, depth below the row count, so the
    [max_depth=None] bound [INT32_MAX] is never what stops a branch for
    fewer than [2^31] rows) and shows that [fit] returns a well-formed
    model ([fitted_wf]): [classes_] strictly sorted, one count per class
    at every node, every split feature a column of [X]. *)

From S2P Require Import Prelude NumpyIndex Tree Cart.
Import NumpyIndex Tree Cart.

Module CartProps.

(** ** The reference search *)

(** The candidate at position [p] ([1 <= p < length Ss]) of the samples
    [Ss] sorted by feature [f]: the left side is [take p Ss], the right
    side [drop p Ss], both counted from scratch. *)
Definition split_at (msl nc f : nat) (Ss : list sample) (p : nat) : option split :=
  match Ss !! pred p, Ss !! p with
  | Some a, Some b =>
      let xa := fval (feat a) f in
      let xb := fval (feat b) f in
      let n := length Ss in
      let lc := node_value nc (take p Ss) in
      let rc := node_value nc (drop p Ss) in
      if (xa <? xb)%Z && (msl <=? p) && (msl <=? n - p) then
        Some (mk_split f (xa + xb) p (sq_sum lc * Z.of_nat (n - p) + sq_sum rc * Z.of_nat p)
                       (Z.of_nat p * Z.of_nat (n - p)))%Z
      else None
  | _, _ => None
  end.

(** A candidate replaces the best split only when its proxy is strictly larger. *)
Definition keep_better (best c : option split) : option split :=
  match c with
  | Some sp => if better (sp_num sp) (sp_den sp) best then c else best
  | None => best
  end.

Definition best_split_ref (msl nc : nat) (order : list nat) (S : list sample) : option split :=
  foldl (λ best f,
    let Ss := sort_by f S in
    foldl (λ b p, keep_better b (split_at msl nc f Ss p)) best (seq 1 (length Ss - 1)))
    None order.

(** ** The walk computes the reference *)

(** The right-side counts [sum_total - sum_left] are the counts of the
    samples not yet walked. *)
Lemma right_counts nc pre rest :
  zip_with Nat.sub (node_value nc (pre ++ rest)) (node_value nc pre) = node_value nc rest.
Proof. rewrite node_value_app. apply zip_with_sub_plus. by rewrite !length_node_value. Qed.

Lemma split_at_walk msl nc f pre a s rest :
  pre !! pred (length pre) = Some a → pre ≠ [] →
  split_at msl nc f (pre ++ s :: rest) (length pre) =
    let x := fval (feat s) f in
    let n := length (pre ++ s :: rest) in
    if (fval (feat a) f <? x)%Z && (msl <=? length pre) && (msl <=? n - length pre) then
      Some (mk_split f (fval (feat a) f + x) (length pre)
              (sq_sum (node_value nc pre) * Z.of_nat (n - length pre) +
               sq_sum (node_value nc (s :: rest)) * Z.of_nat (length pre))
              (Z.of_nat (length pre) * Z.of_nat (n - length pre)))%Z
    else None.
Proof.
  intros Ha Hne. unfold split_at.
  rewrite lookup_app_l by (destruct pre; [done|simpl; lia]). rewrite Ha.
  rewrite lookup_app_r, Nat.sub_diag by lia. cbn [lookup list_lookup].
  by rewrite take_app_length, drop_app_length.
Qed.

Lemma scan_ref msl f nc Ss rest : ∀ pre best a,
  pre ++ rest = Ss → pre ≠ [] → pre !! pred (length pre) = Some a →
  scan msl f (length Ss) (node_value nc Ss) (node_value nc pre) (length pre) (fval (feat a) f) rest best =
  foldl (λ b p, keep_better b (split_at msl nc f Ss p)) best (seq (length pre) (length rest)).
Proof.
  induction rest as [|s rest IH]; intros pre best a HSs Hne Ha; [done|].
  cbn [scan length seq foldl]. rewrite incr_node_value.
  replace (Datatypes.S (length pre)) with (length (pre ++ [s])) by (rewrite length_app; simpl; lia).
  rewrite (IH (pre ++ [s]) _ s); [|by rewrite <-app_assoc|by destruct pre|].
  2:{ rewrite length_app, Nat.add_comm. simpl. by rewrite lookup_app_r, Nat.sub_diag by lia. }
  f_equal. subst Ss. rewrite (split_at_walk _ _ _ _ a) by done. rewrite right_counts.
  cbn zeta. unfold keep_better.
  destruct ((fval (feat a) f <? fval (feat s) f)%Z && (msl <=? length pre) &&
            (msl <=? length (pre ++ s :: rest) - length pre)); [|done].
  cbn [andb sp_num sp_den]. by destruct (better _ _ best).
Qed.

(** The walk of one feature from its first sample. *)
Lemma scan_first msl f nc S Ss best :
  Ss ≡ₚ S →
  match Ss with
  | [] => best
  | s0 :: rest =>
      scan msl f (length S) (node_value nc S) (incr (cls s0) (replicate nc 0)) 1 (fval (feat s0) f) rest best
  end = foldl (λ b p, keep_better b (split_at msl nc f Ss p)) best (seq 1 (length Ss - 1)).
Proof.
  intros Hp. destruct Ss as [|s0 rest]; [done|].
  rewrite <-(Permutation_length Hp), <-(node_value_perm nc _ _ Hp).
  rewrite <-node_value_nil, (incr_node_value nc [] s0). cbn [app length]. rewrite Nat.sub_1_r. cbn [pred].
  change 1 with (length [s0]). exact (scan_ref msl f nc (s0 :: rest) rest [s0] best s0 eq_refl ltac:(done) eq_refl).
Qed.

(** The walk of every drawn feature is the reference search. *)
Lemma node_split_walk msl nc order S :
  node_split msl nc order S = best_split_ref msl nc order S.
Proof.
  unfold node_split, best_split_ref. generalize (@None split) as best.
  induction order as [|f order IH]; intros best; cbn [foldl]; [done|].
  rewrite scan_first by apply sort_by_perm. apply IH.
Qed.

(** C22.  Equivalence of the optimised splitter with the exhaustive
    search: [node_split], which walks each sorted feature once with
    running class counts and takes the right side as [total - left],
    returns exactly the split of the search that recounts both sides of
    every position of every feature, in the same feature order, keeping
    the first strictly best candidate. *)
Theorem node_split_refines msl nc order S :
  node_split msl nc order S = best_split_ref msl nc order S.
Proof. apply node_split_walk. Qed.

(** ** Which split the search returns *)

(** Every candidate split, in the order the search meets them: the
    features in the drawn order, and for each feature the positions of
    its sorted samples from left to right. *)
Definition candidates (msl nc : nat) (order : list nat) (S : list sample) : list split :=
  order ≫= (λ f, let Ss := sort_by f S in omap (split_at msl nc f Ss) (seq 1 (length Ss - 1))).

(** The improvement proxies compared by cross-multiplication, as [better]
    compares them. *)
Definition proxy_le (c r : split) : Prop := (sp_num c * sp_den r ≤ sp_num r * sp_den c)%Z.
Definition proxy_lt (c r : split) : Prop := (sp_num c * sp_den r < sp_num r * sp_den c)%Z.

(** [r], at index [k] of [l], has the largest proxy of [l], and every
    candidate before it a strictly smaller one. *)
Definition first_max (l : list split) (r : split) (k : nat) : Prop :=
  l !! k = Some r ∧ (∀ c, c ∈ l → proxy_le c r) ∧
  (∀ k' c, k' < k → l !! k' = Some c → proxy_lt c r).

Definition den_pos (c : split) : Prop := (0 < sp_den c)%Z.

Lemma keep_better_omap {A} (g : A → option split) best ps :
  foldl (λ b p, keep_better b (g p)) best ps = foldl (λ b c, keep_better b (Some c)) best (omap g ps).
Proof.
  revert best. induction ps as [|p ps IH]; intros best; [done|].
  change (omap g (p :: ps)) with (match g p with Some y => y :: omap g ps | None => omap g ps end).
  cbn [foldl]. destruct (g p); apply IH.
Qed.

Lemma best_split_ref_candidates msl nc order S :
  best_split_ref msl nc order S = foldl (λ b c, keep_better b (Some c)) None (candidates msl nc order S).
Proof.
  unfold best_split_ref, candidates. generalize (@None split) as best.
  induction order as [|f order IH]; intros best; [done|].
  rewrite bind_cons, foldl_app. cbn [foldl]. by rewrite keep_better_omap, IH.
Qed.

(** A candidate splits between two samples, so both sides are non-empty. *)
Lemma split_at_den_pos msl nc f Ss p c :
  1 ≤ p → split_at msl nc f Ss p = Some c → den_pos c.
Proof.
  unfold split_at, den_pos. intros Hp.
  destruct (Ss !! pred p) eqn:Ha, (Ss !! p) as [b|] eqn:Hb; try done.
  apply lookup_lt_Some in Hb. case_match; [|done]. intros [= <-]. cbn [sp_den]. nia.
Qed.

Lemma candidates_den_pos msl nc order S : Forall den_pos (candidates msl nc order S).
Proof.
  apply Forall_forall. intros c. unfold candidates. rewrite list_elem_of_bind.
  intros (f & Hc & _). apply list_elem_of_omap in Hc as (p & Hp & Hs).
  apply elem_of_seq in Hp. eapply split_at_den_pos; [|exact Hs]. lia.
Qed.

Lemma proxy_le_lt_trans a b c : den_pos a → den_pos b → den_pos c →
  proxy_le a b → proxy_lt b c → proxy_lt a c.
Proof. unfold den_pos, proxy_le, proxy_lt. intros. nia. Qed.

Lemma proxy_lt_le a b : proxy_lt a b → proxy_le a b.
Proof. unfold proxy_lt, proxy_le. lia. Qed.

Lemma proxy_not_lt a b : ¬ proxy_lt a b → proxy_le b a.
Proof. unfold proxy_lt, proxy_le. lia. Qed.

(** One step of the fold keeps the first maximum of the candidates seen. *)
Lemma first_max_snoc pre c b k :
  Forall den_pos (pre ++ [c]) → first_max pre b k →
  let b' := keep_better (Some b) (Some c) in
  ∃ r k', b' = Some r ∧ first_max (pre ++ [c]) r k'.
Proof.
  intros Hpos (Hk & Hle & Hlt). apply Forall_app in Hpos as [Hpre Hc]. apply Forall_inv in Hc.
  assert (Hb : den_pos b) by (eapply Forall_lookup_1; eauto).
  simpl. unfold better. destruct (Z.ltb_spec (sp_num b * sp_den c) (sp_num c * sp_den b)) as [Hgt|Hge].
  - exists c, (length pre). split; [done|]. split_and!.
    + by rewrite lookup_app_r, Nat.sub_diag by lia.
    + intros c' [Hc'|Hc']%elem_of_app; [|apply list_elem_of_singleton in Hc' as ->; unfold proxy_le; lia].
      apply proxy_lt_le. apply (proxy_le_lt_trans c' b c); [|done|done|by apply Hle|exact Hgt].
      exact (proj1 (Forall_forall _ _) Hpre c' Hc').
    + intros k' c' Hk' Hl. rewrite lookup_app_l in Hl by lia.
      apply (proxy_le_lt_trans c' b c); [|done|done| |exact Hgt].
      * by eapply Forall_lookup_1.
      * apply Hle. by eapply list_elem_of_lookup_2.
  - exists b, k. split; [done|]. split_and!.
    + by apply lookup_app_l_Some.
    + intros c' [Hc'|Hc']%elem_of_app; [by apply Hle|].
      apply list_elem_of_singleton in Hc' as ->. unfold proxy_le; lia.
    + intros k' c' Hk' Hl. apply Hlt with k'; [done|].
      rewrite lookup_app_l in Hl; [done|]. apply lookup_lt_Some in Hk. lia.
Qed.

Lemma first_max_fold pre cs b k :
  Forall den_pos (pre ++ cs) → first_max pre b k →
  ∃ r k', foldl (λ b c, keep_better b (Some c)) (Some b) cs = Some r ∧ first_max (pre ++ cs) r k'.
Proof.
  revert pre b k. induction cs as [|c cs IH]; intros pre b k Hpos Hm.
  - exists b, k. by rewrite app_nil_r.
  - rewrite cons_middle, app_assoc in Hpos |- *.
    destruct (first_max_snoc pre c b k) as (r & k' & Hr & Hm'); [|done|].
    { by apply Forall_app in Hpos as [? _]. }
    cbn [foldl]. rewrite Hr. by apply (IH _ r k').
Qed.

(** C16.  Which split a node gets: when some feature of the drawn order
    has a candidate split, [node_split] returns the candidate of largest
    improvement proxy, and of those the first one met, features taken in
    the drawn order and positions from left to right; every candidate
    before it has a strictly smaller proxy.  With [random_state] unset the
    draw is not fixed, so among equally good splits the fitted tree keeps
    whichever feature happens to be drawn first. *)
Theorem node_split_first_best msl nc order S :
  let cs := candidates msl nc order S in
  match cs with
  | [] => node_split msl nc order S = None
  | _ :: _ =>
      ∃ k sp, node_split msl nc order S = Some sp ∧ cs !! k = Some sp ∧
        (∀ c, c ∈ cs → proxy_le c sp) ∧
        (∀ k' c, k' < k → cs !! k' = Some c → proxy_lt c sp)
  end.
Proof.
  cbv zeta. rewrite node_split_walk, best_split_ref_candidates.
  pose proof (candidates_den_pos msl nc order S) as Hpos.
  destruct (candidates msl nc order S) as [|c cs]; [done|]. cbn [foldl keep_better better].
  destruct (first_max_fold [c] cs c 0) as (r & k & Hr & Hm); [done| |by exists k, r].
  split_and!; [done| |lia]. intros c' ->%list_elem_of_singleton. unfold proxy_le. lia.
Qed.

(** ** Size of the built tree *)

(** The split sides of a sound split are non-empty and partition the node. *)
Lemma split_sides nc S sp :
  split_ok nc S sp →
  List.filter (λ s, goes_left (sp_feature sp) (sp_thr2 sp) (feat s)) S ≠ [] ∧
  List.filter (λ s, negb (goes_left (sp_feature sp) (sp_thr2 sp) (feat s))) S ≠ [] ∧
  length (List.filter (λ s, goes_left (sp_feature sp) (sp_thr2 sp) (feat s)) S) +
  length (List.filter (λ s, negb (goes_left (sp_feature sp) (sp_thr2 sp) (feat s))) S) = length S.
Proof.
  intros [[sl [Hsl Hl]] [[sr [Hsr Hr]] _]]. split_and!.
  - intros E. assert (Hin : sl ∈ List.filter (λ s, goes_left (sp_feature sp) (sp_thr2 sp) (feat s)) S)
      by (apply elem_of_bool_filter; done). rewrite E in Hin. set_solver.
  - intros E. assert (Hin : sr ∈ List.filter (λ s, negb (goes_left (sp_feature sp) (sp_thr2 sp) (feat s))) S)
      by (apply elem_of_bool_filter; by rewrite Hr). rewrite E in Hin. set_solver.
  - apply count_if_complement.
Qed.

Lemma node_count_leaves t : node_count t + 1 = 2 * n_leaves t.
Proof. induction t; simpl; lia. Qed.

(** At most one leaf per sample, and a depth below the number of samples. *)
Lemma build_size p nc draw ntot fuel : ∀ depth id S t id',
  build p nc draw ntot fuel depth id S = Some (t, id') → S ≠ [] →
  n_leaves t ≤ length S ∧ tree_depth t < length S.
Proof.
  induction fuel as [|fuel IH]; intros depth id S t id' Hb HS; [done|].
  apply build_S_inv in Hb as [(-> & -> & _)|(sp & tl & tr & id1 & _ & Hsp & _ & Hl & Hr & ->)].
  - destruct S; [done|]. simpl. lia.
  - destruct (split_sides nc S sp) as (HL & HR & Hsum); [by eapply node_split_ok|].
    apply IH in Hl as [Ll Dl]; [|done]. apply IH in Hr as [Lr Dr]; [|done].
    destruct (List.filter _ S) as [|? ?]; [done|]. destruct (List.filter (λ s, negb _) S) as [|? ?]; [done|].
    cbn [n_leaves tree_depth length] in *. lia.
Qed.

(** ** Well-formed models *)

(** A split feature is a column of the samples: a feature past the end
    of every row reads [0] for all of them and separates nothing. *)
Lemma split_feature_lt nc nf S sp :
  Forall (λ s, length (feat s) = nf) S → split_ok nc S sp → sp_feature sp < nf.
Proof.
  intros Hw [[sl [Hsl Hl]] [[sr [Hsr Hr]] _]].
  destruct (decide (sp_feature sp < nf)) as [|Hge]; [done|exfalso].
  rewrite Forall_forall in Hw. pose proof (Hw sl Hsl). pose proof (Hw sr Hsr).
  unfold goes_left, fval in Hl, Hr. rewrite !list_lookup_total_alt in Hl, Hr.
  rewrite (lookup_ge_None_2 (feat sl)) in Hl by lia. rewrite (lookup_ge_None_2 (feat sr)) in Hr by lia.
  simpl in *. congruence.
Qed.

Lemma build_wf p nc nf draw ntot fuel : ∀ depth id S t id',
  Forall (λ s, length (feat s) = nf) S →
  build p nc draw ntot fuel depth id S = Some (t, id') → tree_wf nc nf t.
Proof.
  induction fuel as [|fuel IH]; intros depth id S t id' HS Hb; [done|].
  apply build_S_inv in Hb as [(-> & -> & _)|(sp & tl & tr & id1 & _ & Hsp & _ & Hl & Hr & ->)].
  - apply length_node_value.
  - cbn [tree_wf]. split_and!.
    + eapply split_feature_lt; [exact HS|]. by eapply node_split_ok.
    + apply length_node_value.
    + eapply IH; [by apply Forall_filter_bool|exact Hl].
    + eapply IH; [by apply Forall_filter_bool|exact Hr].
Qed.

(** C23.  Type of the fitted model: on a rectangular [X], a successful
    [fit] returns a classifier whose [classes_] are strictly increasing
    and non-empty, whose nodes all carry one count per class, and whose
    split features are all columns of [X] ([n_features_in_]). *)
Theorem fit_wf p draw X y clf :
  fit p draw X y = Ok clf → matrix_wf X → fitted_wf clf.
Proof.
  intros (_ & Hn & _ & Hlen & ->)%fit_Ok Hwf. split_and!; cbn [classes_ tree_ n_features_in_].
  - apply unique_sorted.
  - apply unique_nonempty. intros ->. simpl in *. lia.
  - destruct (grow_build p (length (unique y)) draw (training_samples (unique y) X y)) as [id' Hb].
    eapply build_wf; [|exact Hb].
    eapply Forall_impl; [exact (training_samples_wf X y Hwf Hlen)|]. naive_solver.
Qed.

Lemma fit_wf_witness :
  let X := mk_matrix 2 [[0; 0]; [1; 1]; [0; 1]]%Z in
  let clf := mk_fitted (Node 0 1 [2; 1] (Leaf [2; 0]) (Leaf [0; 1])) [5; 7]%Z 2 in
  fit DecisionTreeClassifier (λ _, [0; 1]) X [5; 7; 5]%Z = Ok clf ∧ matrix_wf X ∧ fitted_wf clf.
Proof.
  intros X clf.
  assert (Hf : fit DecisionTreeClassifier (λ _, [0; 1]) X [5; 7; 5]%Z = Ok clf) by (vm_compute; reflexivity).
  assert (Hwf : matrix_wf X) by (repeat constructor).
  split; [exact Hf|]. split; [exact Hwf|]. exact (fit_wf _ _ _ _ _ Hf Hwf).
Defined.

(** C24.  Bounds on the fitted tree: with [n] training rows it has at
    most [n] leaves, at most [2n - 1] nodes, and depth below [n]; so for
    fewer than [2^31] rows no branch reaches the depth [INT32_MAX] that
    [max_depth=None] stands for. *)
Theorem fit_tree_bounds p draw X y clf :
  fit p draw X y = Ok clf →
  n_leaves (tree_ clf) ≤ length (rows X) ∧ node_count (tree_ clf) + 1 ≤ 2 * length (rows X) ∧
  tree_depth (tree_ clf) < length (rows X).
Proof.
  intros (_ & Hn & _ & Hlen & ->)%fit_Ok. cbn [tree_].
  destruct (grow_build p (length (unique y)) draw (training_samples (unique y) X y)) as [id' Hb].
  pose proof (length_training_samples (unique y) X y Hlen) as HlS.
  apply build_size in Hb as [HL HD]; [|intros E; rewrite E in HlS; simpl in HlS; lia].
  pose proof (node_count_leaves (grow p (length (unique y)) draw (training_samples (unique y) X y))).
  rewrite HlS in HL, HD. split_and!; lia.
Qed.

Lemma fit_tree_bounds_witness :
  let X := mk_matrix 2 [[0; 0]; [1; 1]; [0; 1]]%Z in
  let clf := mk_fitted (Node 0 1 [2; 1] (Leaf [2; 0]) (Leaf [0; 1])) [5; 7]%Z 2 in
  fit DecisionTreeClassifier (λ _, [0; 1]) X [5; 7; 5]%Z = Ok clf ∧
  n_leaves (tree_ clf) ≤ length (rows X) ∧ node_count (tree_ clf) + 1 ≤ 2 * length (rows X) ∧
  tree_depth (tree_ clf) < length (rows X).
Proof.
  intros X clf.
  assert (Hf : fit DecisionTreeClassifier (λ _, [0; 1]) X [5; 7; 5]%Z = Ok clf) by (vm_compute; reflexivity).
  split; [exact Hf|]. exact (fit_tree_bounds _ _ _ _ _ Hf).
Defined.

End CartProps.
