(* ===== verification/Script.v ===== *)
(** * The script as a state machine over a Python world

    The script is a sequence of top-level statements: thirteen simple ones
    (the imports of lines 5-7, then lines 8 to 27) and one [with open("iris_classifier.txt", "w") as f:]
    block (lines 31-36) whose body rebinds [f] to the result of
    [tree.export_graphviz(clf, out_file=f, ...)].

    - The world ([world]) holds what a run can observe: the strings
      printed on standard output (one per [print] call, each followed by
      a newline), the file system (path to contents), the open file
      objects (descriptor to path and write buffer) and which paths may be
      opened for writing ([open] of another path raises [PermissionError],
      an [OSError]), and which top-level packages are installed ([import]
      of another raises [ModuleNotFoundError], an [ImportError]).
    - The global namespace of the module ([env]) maps names to Python
      values ([pyval]); a statement reads the names it uses ([load]) and
      binds the one it assigns.
    - A simple statement is a function from namespace and world to a new
      namespace and world, or an exception ([result]); a statement that
      raises changes nothing.  The [with] statement is run by the machine
      in three steps: [open] and bind [f]; run the body; [__exit__], which
      closes the file object returned by [open] (not the value [f] is
      bound to at the end of the body) and re-raises a pending exception.
    - [step] executes one step; [run] iterates it; [reachable] is the
      reflexive-transitive closure of [step] from an initial
      configuration.

    The classifier is any [Estimator] (the class of [Tree]); the exporter
    [export_graphviz] is a parameter: it returns the chunks it writes to
    [out_file] and, when it raises, the exception raised after them. *)

From Stdlib Require Import Ascii.
From S2P Require Import Prelude NumpyIndex NumpyPrint Dataset Tree.
Import NumpyIndex NumpyPrint Dataset Tree.

Module Script.

(** ** The Python world *)

Record world := mk_world {
  stdout : list string;
  files : gmap string string;
  handles : gmap nat (string * string);
  next_fd : nat;
  writable : string → bool;
  installed : string → bool
}.

(** [print(s)] for the string [s]. *)
Definition py_print (s : string) (w : world) : world :=
  mk_world (stdout w ++ [s]) (files w) (handles w) (next_fd w) (writable w) (installed w).

(** [open(path, "w")]: create or truncate the file and return a new file
    object with an empty buffer. *)
Definition open_w (path : string) (w : world) : result (nat * world) :=
  if writable w path then
    Ok (next_fd w, mk_world (stdout w) (<[path := ""]> (files w))
                     (<[next_fd w := (path, "")]> (handles w)) (S (next_fd w)) (writable w)
                     (installed w))
  else raise! (OSError ("[Errno 13] Permission denied: '" +:+ path +:+ "'")).

(** [f.write(s)]: append to the buffer of an open file object. *)
Definition write_fd (fd : nat) (s : string) (w : world) : result world :=
  match handles w !! fd with
  | Some (path, buf) =>
      Ok (mk_world (stdout w) (files w) (<[fd := (path, buf +:+ s)]> (handles w))
                   (next_fd w) (writable w) (installed w))
  | None => raise! (ValueError "I/O operation on closed file.")
  end.

(** Successive writes; the world after the writes done before a failing
    one is returned with the exception. *)
Fixpoint write_all (fd : nat) (chunks : list string) (w : world) : result unit * world :=
  match chunks with
  | [] => (Ok (), w)
  | s :: chunks' =>
      match write_fd fd s w with
      | Ok w' => write_all fd chunks' w'
      | Err e => (Err e, w)
      end
  end.

(** [f.close()]: flush the buffer into the file and release the object;
    closing a closed file does nothing. *)
Definition close_fd (fd : nat) (w : world) : world :=
  match handles w !! fd with
  | Some (path, buf) =>
      mk_world (stdout w) (<[path := buf]> (files w)) (delete fd (handles w))
               (next_fd w) (writable w) (installed w)
  | None => w
  end.

Section script.
Context {Model : Type} `{!Estimator Model}.
(** The measurement rows of the iris data file. *)
Context (measurements : list (list Z)).
(** [tree.export_graphviz(clf, out_file, feature_names, class_names,
    filled=True, rounded=True, special_characters=True)]: the chunks
    written to [out_file], and the exception raised after them, if any. *)
Context (export_graphviz : Model → list string → list string → list string * option exc).

(** ** Python values and the module namespace *)

Inductive pyval :=
| VModule (name : string)
| VFunc (qualname : string)
| VBunch (b : Bunch)
| VList (l : list Z)
| VArr (a : list Z)
| VMat (m : matrix)
| VEstimator (fitted : option Model)
| VFile (fd : nat)
| VNone.

Definition env := gmap string pyval.

Definition load (g : env) (x : string) : result pyval :=
  match g !! x with
  | Some v => Ok v
  | None => raise! (NameError ("name '" +:+ x +:+ "' is not defined"))
  end.

Definition type_error : exc := TypeError "unsupported operand type".

(** The attribute access [np.delete], [tree.DecisionTreeClassifier] or
    [tree.export_graphviz] on the value bound to [np] or [tree]: the
    attribute exists on the module [m]. *)
Definition as_module (m : string) (v : pyval) : result unit :=
  match v with VModule m' => if String.eqb m m' then Ok () else raise! type_error | _ => raise! type_error end.

(** A call of the value bound to [load_iris]: the function [f]. *)
Definition as_func (f : string) (v : pyval) : result unit :=
  match v with VFunc f' => if String.eqb f f' then Ok () else raise! type_error | _ => raise! type_error end.

Definition as_bunch (v : pyval) : result Bunch :=
  match v with VBunch b => Ok b | _ => raise! type_error end.

(** An index or a one-dimensional array: a list or an ndarray. *)
Definition as_vector (v : pyval) : result (list Z) :=
  match v with VList l | VArr l => Ok l | _ => raise! type_error end.

Definition as_matrix (v : pyval) : result matrix :=
  match v with VMat m => Ok m | _ => raise! type_error end.

Definition as_file (v : pyval) : result nat :=
  match v with VFile fd => Ok fd | _ => raise! type_error end.

(** scikit-learn's [NotFittedError] is a [ValueError]. *)
Definition not_fitted_error : exc :=
  ValueError ("This DecisionTreeClassifier instance is not fitted yet. Call 'fit' with " +:+
              "appropriate arguments before using this estimator.").

Definition as_fitted (v : pyval) : result Model :=
  match v with
  | VEstimator (Some m) => Ok m
  | VEstimator None => raise! not_fitted_error
  | _ => raise! type_error
  end.

(** ** The statements *)

Inductive stmt :=
| Simple (run : env → world → result (env * world))
| WithOpen (path target : string) (body : env → world → result env * world).

(** [ModuleNotFoundError: No module named 'm'], a subclass of [ImportError]. *)
Definition module_not_found (m : string) : exc := ImportError ("No module named '" +:+ m +:+ "'").

(** Importing a module of the top-level package [m]: found only when the
    package is installed.  Importing has no effect on what the world
    records. *)
Definition import_module (m : string) (w : world) : result unit :=
  if installed w m then Ok () else raise! (module_not_found m).

(** Line 5: [import numpy as np]. *)
Definition line5 (g : env) (w : world) : result (env * world) :=
  _ ← import_module "numpy" w;
  Ok (<["np" := VModule "numpy"]> g, w).

(** Line 6: [from sklearn import tree]. *)
Definition line6 (g : env) (w : world) : result (env * world) :=
  _ ← import_module "sklearn" w;
  Ok (<["tree" := VModule "sklearn.tree"]> g, w).

(** Line 7: [from sklearn.datasets import load_iris]. *)
Definition line7 (g : env) (w : world) : result (env * world) :=
  _ ← import_module "sklearn" w;
  Ok (<["load_iris" := VFunc "sklearn.datasets.load_iris"]> g, w).

(** Line 8: [iris = load_iris()]. *)
Definition line8 (g : env) (w : world) : result (env * world) :=
  _ ← load g "load_iris" ≫= as_func "sklearn.datasets.load_iris";
  Ok (<["iris" := VBunch (load_iris measurements)]> g, w).

(** Line 11: [test_idx = [0,50,100]], for the literal [idx]. *)
Definition line11 (idx : list Z) (g : env) (w : world) : result (env * world) :=
  Ok (<["test_idx" := VList idx]> g, w).

(** Line 14: [train_target = np.delete(iris.target, test_idx)]. *)
Definition line14 (g : env) (w : world) : result (env * world) :=
  _ ← load g "np" ≫= as_module "numpy";
  b ← load g "iris" ≫= as_bunch;
  idx ← load g "test_idx" ≫= as_vector;
  a ← np_delete (target b) idx;
  Ok (<["train_target" := VArr a]> g, w).

(** Line 15: [train_data = np.delete(iris.data, test_idx, axis=0)]. *)
Definition line15 (g : env) (w : world) : result (env * world) :=
  _ ← load g "np" ≫= as_module "numpy";
  b ← load g "iris" ≫= as_bunch;
  idx ← load g "test_idx" ≫= as_vector;
  m ← delete_rows (data b) idx;
  Ok (<["train_data" := VMat m]> g, w).

(** Line 18: [test_target = iris.target[test_idx]]. *)
Definition line18 (g : env) (w : world) : result (env * world) :=
  b ← load g "iris" ≫= as_bunch;
  idx ← load g "test_idx" ≫= as_vector;
  a ← fancy_index (target b) idx;
  Ok (<["test_target" := VArr a]> g, w).

(** Line 19: [test_data = iris.data[test_idx]]. *)
Definition line19 (g : env) (w : world) : result (env * world) :=
  b ← load g "iris" ≫= as_bunch;
  idx ← load g "test_idx" ≫= as_vector;
  m ← take_rows (data b) idx;
  Ok (<["test_data" := VMat m]> g, w).

(** Line 22: [clf = tree.DecisionTreeClassifier()]. *)
Definition line22 (g : env) (w : world) : result (env * world) :=
  _ ← load g "tree" ≫= as_module "sklearn.tree";
  Ok (<["clf" := VEstimator None]> g, w).

(** Line 23: [clf.fit(train_data, train_target)]; [fit] fits the object
    [clf] refers to in place (and returns it, discarded here). *)
Definition line23 (g : env) (w : world) : result (env * world) :=
  c ← load g "clf";
  match c with
  | VEstimator _ =>
      X ← load g "train_data" ≫= as_matrix;
      y ← load g "train_target" ≫= as_vector;
      m ← est_fit X y;
      Ok (<["clf" := VEstimator (Some m)]> g, w)
  | _ => raise! type_error
  end.

(** Line 26: [print(test_target)]. *)
Definition line26 (g : env) (w : world) : result (env * world) :=
  a ← load g "test_target" ≫= as_vector;
  Ok (g, py_print (array_str a) w).

(** Line 27: [print(clf.predict(test_data))]. *)
Definition line27 (g : env) (w : world) : result (env * world) :=
  m ← load g "clf" ≫= as_fitted;
  T ← load g "test_data" ≫= as_matrix;
  p ← est_predict m T;
  Ok (g, py_print (array_str p) w).

(** Lines 32-36, the body of the [with] block:
    [f = tree.export_graphviz(clf, out_file=f, feature_names=iris.feature_names,
    class_names=iris.target_names, filled=True, rounded=True,
    special_characters=True)].  The exporter writes to [f] and returns
    [None], which is bound to [f]. *)
Definition export_body (g : env) (w : world) : result env * world :=
  match (_ ← load g "tree" ≫= as_module "sklearn.tree";
         m ← load g "clf" ≫= as_fitted;
         fd ← load g "f" ≫= as_file;
         b ← load g "iris" ≫= as_bunch;
         Ok (m, fd, b)) with
  | Err e => (Err e, w)
  | Ok (m, fd, b) =>
      let '(chunks, raised) := export_graphviz m (feature_names b) (target_names b) in
      match write_all fd chunks w with
      | (Err e, w') => (Err e, w')
      | (Ok _, w') =>
          match raised with
          | Some e => (Err e, w')
          | None => (Ok (<["f" := VNone]> g), w')
          end
      end
  end.

(** The script, for the hold-out literal [idx] of line 11. *)
Definition script (idx : list Z) : list stmt :=
  [Simple line5; Simple line6; Simple line7; Simple line8; Simple (line11 idx); Simple line14; Simple line15; Simple line18;
   Simple line19; Simple line22; Simple line23; Simple line26; Simple line27;
   WithOpen "iris_classifier.txt" "f" export_body].

(** ** The machine *)

(** Where the run is: before statement [k]; inside the body of the
    [with] statement [k] with the file object [fd] open; at its
    [__exit__] with a pending exception or none; finished; or stopped by
    an uncaught exception. *)
Inductive ctl :=
| Next (k : nat)
| InWith (k fd : nat)
| Exiting (k fd : nat) (pending : option exc)
| Finished
| Raised (e : exc).

Record config := mk_config { pc : ctl; genv : env; wld : world }.

Definition step (prog : list stmt) (c : config) : option config :=
  match pc c with
  | Next k =>
      match prog !! k with
      | None => Some (mk_config Finished (genv c) (wld c))
      | Some (Simple f) =>
          match f (genv c) (wld c) with
          | Ok (g', w') => Some (mk_config (Next (S k)) g' w')
          | Err e => Some (mk_config (Raised e) (genv c) (wld c))
          end
      | Some (WithOpen path x _) =>
          match open_w path (wld c) with
          | Ok (fd, w') => Some (mk_config (InWith k fd) (<[x := VFile fd]> (genv c)) w')
          | Err e => Some (mk_config (Raised e) (genv c) (wld c))
          end
      end
  | InWith k fd =>
      match prog !! k with
      | Some (WithOpen _ _ body) =>
          match body (genv c) (wld c) with
          | (Ok g', w') => Some (mk_config (Exiting k fd None) g' w')
          | (Err e, w') => Some (mk_config (Exiting k fd (Some e)) (genv c) w')
          end
      | _ => None
      end
  | Exiting k fd pending =>
      let w' := close_fd fd (wld c) in
      match pending with
      | None => Some (mk_config (Next (S k)) (genv c) w')
      | Some e => Some (mk_config (Raised e) (genv c) w')
      end
  | Finished | Raised _ => None
  end.

Fixpoint run (prog : list stmt) (fuel : nat) (c : config) : config :=
  match fuel with
  | 0 => c
  | S fuel' => match step prog c with Some c' => run prog fuel' c' | None => c end
  end.

Definition is_final (c : config) : bool :=
  match pc c with Finished | Raised _ => true | _ => false end.

(** The start of a run: nothing bound, in the world [w]. *)
Definition init (w : world) : config := mk_config (Next 0) ∅ w.

Definition reachable (prog : list stmt) (w : world) (c : config) : Prop :=
  rtc (λ c1 c2, step prog c1 = Some c2) (init w) c.

End script.

Arguments env Model : clear implicits.
Arguments VModule {Model} name.
Arguments VFunc {Model} qualname.
Arguments VBunch {Model} b.
Arguments VList {Model} l.
Arguments VArr {Model} a.
Arguments VMat {Model} m.
Arguments VEstimator {Model} fitted.
Arguments VFile {Model} fd.
Arguments VNone {Model}.
Arguments Simple {Model} run.
Arguments WithOpen {Model} path target body.

(** ** Generic properties of the machine *)

Section machine.
Context {Model : Type}.
Implicit Types (prog : list (stmt (Model:=Model))) (c : config (Model:=Model)).

(** The control is inside a [with] statement only at a [with] statement. *)
Definition ctl_wf prog c : Prop :=
  match pc c with
  | InWith k _ | Exiting k _ _ => ∃ path x body, prog !! k = Some (WithOpen path x body)
  | _ => True
  end.

(** Steps left: four per statement still to run. *)
Definition measure prog c : nat :=
  match pc c with
  | Next k => 4 * (length prog - k) + 1
  | InWith k _ => 4 * (length prog - k) - 1
  | Exiting k _ _ => 4 * (length prog - k) - 2
  | Finished | Raised _ => 0
  end.

Lemma step_wf_measure prog c c' :
  ctl_wf prog c → step prog c = Some c' → ctl_wf prog c' ∧ measure prog c' < measure prog c.
Proof.
  destruct c as [[k|k fd|k fd pending| |e] g w]; unfold ctl_wf, measure, step; cbn [pc genv wld].
  - destruct (prog !! k) as [[f|path x body]|] eqn:Hk; intros _.
    + pose proof (lookup_lt_Some _ _ _ Hk).
      destruct (f g w) as [[g' w']|e]; intros [= <-]; cbn [pc]; split; try done; lia.
    + pose proof (lookup_lt_Some _ _ _ Hk).
      destruct (open_w path w) as [[fd w']|e]; intros [= <-]; cbn [pc]; split; eauto; lia.
    + intros [= <-]. cbn [pc]. lia.
  - intros (path & x & body & Hk). rewrite Hk. pose proof (lookup_lt_Some _ _ _ Hk).
    destruct (body g w) as [[g'|e] w']; intros [= <-]; cbn [pc]; split; eauto; lia.
  - intros (path & x & body & Hk). pose proof (lookup_lt_Some _ _ _ Hk).
    destruct pending; intros [= <-]; cbn [pc]; split; try done; lia.
  - done.
  - done.
Qed.

Lemma step_None prog c : ctl_wf prog c → step prog c = None → is_final c = true.
Proof.
  destruct c as [[k|k fd|k fd pending| |e] g w]; unfold ctl_wf, step; cbn [pc genv wld is_final];
    try done.
  - destruct (prog !! k) as [[f|path x body]|]; [by destruct (f g w) as [[]|]|..|done].
    by destruct (open_w path w) as [[]|].
  - intros (path & x & body & ->). by destruct (body g w) as [[] ?].
  - by destruct pending.
Qed.

Lemma run_final prog n c : ctl_wf prog c → measure prog c ≤ n → is_final (run prog n c) = true.
Proof.
  revert c. induction n as [|n IH]; intros c Hwf Hm; cbn [run].
  - destruct c as [[k|k fd|k fd pending| |e] g w]; unfold measure, ctl_wf in *; cbn [pc] in *;
      try done; try lia; destruct Hwf as (? & ? & ? & Hk%lookup_lt_Some); lia.
  - destruct (step prog c) as [c'|] eqn:Hs; [|by apply (step_None prog)].
    destruct (step_wf_measure _ _ _ Hwf Hs). apply IH; [done|lia].
Qed.

Lemma run_reachable prog n c : rtc (λ c1 c2, step prog c1 = Some c2) c (run prog n c).
Proof.
  revert c. induction n as [|n IH]; intros c; cbn [run]; [done|].
  destruct (step prog c) eqn:Hs; [|done]. eapply rtc_l; [exact Hs|apply IH].
Qed.

Lemma run_step prog n c c' : step prog c = Some c' → run prog (S n) c = run prog n c'.
Proof. intros Hs. cbn [run]. by rewrite Hs. Qed.

Lemma run_stop prog n c : is_final c = true → run prog n c = c.
Proof. destruct n, c as [[] ??]; done. Qed.

(** *** File objects *)

(** Statements other than [with] do not touch the open file objects. *)
Definition simple_frame (f : env Model → world → result (env Model * world)) : Prop :=
  ∀ g w g' w', f g w = Ok (g', w') → handles w' = handles w.

(** The body of a [with] keeps its one file object open (and opens no other). *)
Definition body_frame (body : env Model → world → result (env Model) * world) : Prop :=
  ∀ g w r w' fd path buf, body g w = (r, w') → handles w = {[fd := (path, buf)]} →
    ∃ buf', handles w' = {[fd := (path, buf')]}.

Definition prog_frames prog : Prop :=
  Forall (λ s, match s with Simple f => simple_frame f | WithOpen _ _ body => body_frame body end) prog.

(** No file object is open outside a [with] block, and exactly the one
    [open] returned is open inside it. *)
Definition handles_inv c : Prop :=
  match pc c with
  | InWith _ fd | Exiting _ fd _ => ∃ path buf, handles (wld c) = {[fd := (path, buf)]}
  | _ => handles (wld c) = ∅
  end.

Lemma close_fd_singleton fd path buf w :
  handles w = {[fd := (path, buf)]} → handles (close_fd fd w) = ∅.
Proof.
  intros Hh. unfold close_fd. rewrite Hh, lookup_singleton_eq. cbn [handles].
  apply delete_singleton_eq.
Qed.

Lemma step_handles_inv prog c c' :
  prog_frames prog → handles_inv c → step prog c = Some c' → handles_inv c'.
Proof.
  intros Hf. destruct c as [[k|k fd|k fd pending| |e] g w]; unfold handles_inv, step;
    cbn [pc genv wld]; try done.
  - intros Hh. destruct (prog !! k) as [[f|path x body]|] eqn:Hk.
    + destruct (f g w) as [[g' w']|e] eqn:Hfw; intros [= <-]; cbn [pc wld]; [|done].
      pose proof (Forall_lookup_1 _ _ _ _ Hf Hk) as Hfk. cbn in Hfk. by rewrite (Hfk _ _ _ _ Hfw).
    + unfold open_w. destruct (writable w path); intros [= <-]; cbn [pc wld handles]; [|done].
      rewrite Hh, insert_empty. eauto.
    + by intros [= <-].
  - intros (path & buf & Hh). destruct (prog !! k) as [[f|path' x body]|] eqn:Hk; [done| |done].
    pose proof (Forall_lookup_1 _ _ _ _ Hf Hk) as Hfk. cbn in Hfk.
    destruct (body g w) as [r w'] eqn:Hb.
    destruct (Hfk _ _ _ _ _ _ _ Hb Hh) as [buf' Hh'].
    destruct r; intros [= <-]; cbn [pc wld]; eauto.
  - intros (path & buf & Hh). pose proof (close_fd_singleton _ _ _ _ Hh) as Hc.
    destruct pending; intros [= <-]; exact Hc.
Qed.

Lemma reachable_handles_inv prog w c :
  prog_frames prog → handles w = ∅ → reachable prog w c → handles_inv c.
Proof.
  intros Hf Hw Hr. unfold reachable in Hr.
  assert (H0 : handles_inv (init (Model:=Model) w)) by exact Hw. revert H0.
  induction Hr as [|c1 c2 c3 Hs _ IH]; intros H0; [done|].
  apply IH. by eapply step_handles_inv.
Qed.
(** *** Files written *)

(** A simple statement changes no file and no file object. *)
Definition simple_keeps_files (f : env Model → world → result (env Model * world)) : Prop :=
  ∀ g w g' w', f g w = Ok (g', w') → files w' = files w ∧ handles w' = handles w.

(** The body of a [with] changes no file and keeps the file object
    [fd] open on its path. *)
Definition body_keeps_files (body : env Model → world → result (env Model) * world) : Prop :=
  ∀ g w r w' fd path buf, body g w = (r, w') → handles w !! fd = Some (path, buf) →
    files w' = files w ∧ ∃ buf', handles w' !! fd = Some (path, buf').

(** Every statement of [prog] leaves the files alone, but the [with]
    statements, which all open [path]. *)
Definition writes_only (path : string) prog : Prop :=
  Forall (λ s, match s with
               | Simple f => simple_keeps_files f
               | WithOpen p _ body => p = path ∧ body_keeps_files body
               end) prog.

(** Every file but [path] holds what it held in [w0]; inside a [with]
    block the file object open is one on [path]. *)
Definition files_inv (path : string) (w0 : world) c : Prop :=
  (∀ p, p ≠ path → files (wld c) !! p = files w0 !! p) ∧
  match pc c with
  | InWith _ fd | Exiting _ fd _ => ∃ buf, handles (wld c) !! fd = Some (path, buf)
  | _ => True
  end.

Lemma step_files_inv path w0 prog c c' :
  writes_only path prog → files_inv path w0 c → step prog c = Some c' → files_inv path w0 c'.
Proof.
  intros Hf. destruct c as [[k|k fd|k fd pending| |e] g w]; unfold files_inv, step;
    cbn [pc genv wld]; try done.
  - intros [Hp _]. destruct (prog !! k) as [[f|path' x body]|] eqn:Hk.
    + pose proof (Forall_lookup_1 _ _ _ _ Hf Hk) as Hfk. cbn beta iota in Hfk.
      destruct (f g w) as [[g' w']|e] eqn:Hfw; intros [= <-]; cbn [pc wld]; [|done].
      destruct (Hfk _ _ _ _ Hfw) as [-> _]. done.
    + pose proof (Forall_lookup_1 _ _ _ _ Hf Hk) as [-> _].
      unfold open_w. destruct (writable w path); intros [= <-]; cbn [pc wld files handles]; [|done].
      split; [intros p' Hp'; rewrite lookup_insert_ne by done; by apply Hp|].
      rewrite lookup_insert_eq. eauto.
    + by intros [= <-].
  - intros [Hp [buf Hh]]. destruct (prog !! k) as [[f|path' x body]|] eqn:Hk; [done| |done].
    pose proof (Forall_lookup_1 _ _ _ _ Hf Hk) as [_ Hfk].
    destruct (body g w) as [r w'] eqn:Hb.
    destruct (Hfk _ _ _ _ _ _ _ Hb Hh) as [Hfl [buf' Hh']].
    destruct r; intros [= <-]; cbn [pc wld]; rewrite Hfl; eauto.
  - intros [Hp [buf Hh]]. unfold close_fd. rewrite Hh.
    destruct pending; intros [= <-]; cbn [pc wld files]; (split; [|done]);
      intros p' Hp'; rewrite ?lookup_insert_ne by done; by apply Hp.
Qed.

Lemma reachable_files_inv path prog w c :
  writes_only path prog → reachable prog w c → files_inv path w c.
Proof.
  intros Hf Hr. unfold reachable in Hr.
  assert (H0 : files_inv path w (init (Model:=Model) w)) by done. revert H0.
  induction Hr as [|c1 c2 c3 Hs _ IH]; intros H0; [done|].
  apply IH. by eapply step_files_inv.
Qed.

End machine.

Section exec.
Context {Model : Type}.
Implicit Types (prog : list (stmt (Model:=Model))) (g : env Model).

Lemma load_insert_eq g x v : load (<[x := v]> g) x = Ok v.
Proof. unfold load. change (env Model) with (gmap string (pyval (Model:=Model))) in *. by simplify_map_eq. Qed.

Lemma load_insert_ne g x y v : x ≠ y → load (<[x := v]> g) y = load g y.
Proof. intros. unfold load. change (env Model) with (gmap string (pyval (Model:=Model))) in *. by simplify_map_eq. Qed.

Lemma step_simple prog k f g w :
  prog !! k = Some (Simple f) →
  step prog (mk_config (Next k) g w) =
    Some (match f g w with
          | Ok (g', w') => mk_config (Next (S k)) g' w'
          | Err e => mk_config (Raised e) g w
          end).
Proof. intros Hk. unfold step. cbn [pc genv wld]. rewrite Hk. by destruct (f g w) as [[]|]. Qed.

Lemma run_simple_ok prog n k f g w g' w' :
  prog !! k = Some (Simple f) → f g w = Ok (g', w') →
  run prog (S n) (mk_config (Next k) g w) = run prog n (mk_config (Next (S k)) g' w').
Proof. intros Hk Hf. apply run_step. by rewrite (step_simple _ _ _ _ _ Hk), Hf. Qed.

Lemma run_simple_err prog n k f g w e :
  prog !! k = Some (Simple f) → f g w = Err e →
  run prog (S n) (mk_config (Next k) g w) = mk_config (Raised e) g w.
Proof. intros Hk Hf. rewrite (run_step _ _ _ (mk_config (Raised e) g w)), run_stop; [done|done|]. by rewrite (step_simple _ _ _ _ _ Hk), Hf. Qed.

Lemma run_with_open prog n k path x body g w :
  prog !! k = Some (WithOpen path x body) →
  run prog (S n) (mk_config (Next k) g w) =
    match open_w path w with
    | Ok (fd, w') => run prog n (mk_config (InWith k fd) (<[x := VFile fd]> g) w')
    | Err e => mk_config (Raised e) g w
    end.
Proof.
  intros Hk. cbn [run]. unfold step at 1. cbn [pc genv wld]. rewrite Hk.
  destruct (open_w path w) as [[fd w']|e]; [done|]. by apply run_stop.
Qed.

Lemma run_with_body prog n k fd path x body g w :
  prog !! k = Some (WithOpen path x body) →
  run prog (S n) (mk_config (InWith k fd) g w) =
    match body g w with
    | (Ok g', w') => run prog n (mk_config (Exiting k fd None) g' w')
    | (Err e, w') => run prog n (mk_config (Exiting k fd (Some e)) g w')
    end.
Proof. intros Hk. cbn [run]. unfold step at 1. cbn [pc genv wld]. rewrite Hk. by destruct (body g w) as [[] ?]. Qed.

Lemma run_exit prog n k fd pending g w :
  run prog (S n) (mk_config (Exiting k fd pending) g w) =
    match pending with
    | None => run prog n (mk_config (Next (S k)) g (close_fd fd w))
    | Some e => mk_config (Raised e) g (close_fd fd w)
    end.
Proof. cbn [run]. unfold step at 1. cbn [pc genv wld]. destruct pending; [|done]. by apply run_stop. Qed.

Lemma run_end prog n k g w :
  prog !! k = None → run prog (S n) (mk_config (Next k) g w) = mk_config Finished g w.
Proof. intros Hk. cbn [run]. unfold step at 1. cbn [pc genv wld]. rewrite Hk. by apply run_stop. Qed.
End exec.

(** Writing to an open file object appends every chunk to its buffer. *)
Lemma write_all_open fd chunks : ∀ w path buf,
  handles w !! fd = Some (path, buf) →
  write_all fd chunks w =
    (Ok (), mk_world (stdout w) (files w) (<[fd := (path, buf +:+ String.concat "" chunks)]> (handles w))
                     (next_fd w) (writable w) (installed w)).
Proof.
  induction chunks as [|s chunks IH]; intros w path buf Hh; cbn [write_all].
  - destruct w; simpl in *. by rewrite string_app_nil_r, insert_id.
  - unfold write_fd. rewrite Hh. rewrite (IH _ path (buf +:+ s)) by (cbn [handles]; apply lookup_insert_eq).
    cbn [stdout files handles next_fd writable]. by rewrite insert_insert_eq, string_concat_cons, string_app_assoc.
Qed.

(** ** Properties of the script's statements *)

Lemma write_all_handles fd' chunks : ∀ w fd path buf,
  handles w = {[fd := (path, buf)]} →
  ∃ buf', handles (snd (write_all fd' chunks w)) = {[fd := (path, buf')]}.
Proof.
  induction chunks as [|s chunks IH]; intros w fd path buf Hh; cbn [write_all]; [eauto|].
  unfold write_fd. rewrite Hh. destruct (decide (fd' = fd)) as [->|Hne].
  - rewrite lookup_singleton_eq. apply (IH _ fd path (buf +:+ s)). cbn [handles]. by rewrite insert_singleton_eq.
  - rewrite lookup_singleton_ne by done. cbn [snd]. rewrite Hh. eauto.
Qed.

(** Writing changes no file and keeps every file object open on its path. *)
Lemma write_all_keeps fd' chunks : ∀ w fd path buf,
  handles w !! fd = Some (path, buf) →
  files (snd (write_all fd' chunks w)) = files w ∧
  ∃ buf', handles (snd (write_all fd' chunks w)) !! fd = Some (path, buf').
Proof.
  induction chunks as [|s chunks IH]; intros w fd path buf Hh; cbn [write_all]; [eauto|].
  unfold write_fd. destruct (handles w !! fd') as [[path' buf0]|] eqn:Hfd'; cbn [snd]; [|eauto].
  match goal with |- context [write_all fd' chunks ?w1] =>
    destruct (IH w1 fd path (if decide (fd' = fd) then buf0 +:+ s else buf)) as [Hf Hh'] end.
  { cbn [handles]. destruct (decide (fd' = fd)) as [->|Hne].
    - rewrite Hh in Hfd'. simplify_eq. apply lookup_insert_eq.
    - by rewrite lookup_insert_ne. }
  rewrite Hf. done.
Qed.

(** Symbolic execution of the simple statements of the script. *)
Ltac load_simpl := repeat first [rewrite load_insert_eq | rewrite load_insert_ne by done].
Ltac line_simpl :=
  cbv beta delta [line5 line6 line7 line8 line11 line14 line15 line18 line19 line22 line23 line26 line27];
  load_simpl;
  cbn [mbind result_bind as_module as_func String.eqb Ascii.eqb Bool.eqb andb
       as_bunch as_vector as_matrix as_fitted target data load_iris];
  repeat match goal with H : ?t = _ |- context [?t] => rewrite H; cbn [mbind result_bind] end.
Ltac exec_line := erewrite run_simple_ok; [|reflexivity|line_simpl; reflexivity].
Ltac exec_err := erewrite run_simple_err; [|reflexivity|line_simpl; reflexivity].

(** The run is deterministic: a final configuration reachable from [c0]
    is the one [run] computes, whatever the fuel, once [run] stops. *)
Lemma reachable_final_run {Model} (prog : list (stmt (Model:=Model))) c0 c n :
  rtc (λ c1 c2, step prog c1 = Some c2) c0 c → is_final c = true →
  is_final (run prog n c0) = true → run prog n c0 = c.
Proof.
  intros Hr. revert n. induction Hr as [c|c0 c1 c Hs _ IH]; intros n Hc Hn; [by apply run_stop|].
  destruct n as [|n]; cbn [run] in *.
  - destruct c0 as [[] ??]; simpl in *; done.
  - rewrite Hs in Hn |- *. by apply IH.
Qed.

Section script_props.
Context {Model : Type} `{!Estimator Model}.
Context (measurements : list (list Z)).
Context (export_graphviz : Model → list string → list string → list string * option exc).

Lemma script_frames idx : prog_frames (script measurements export_graphviz idx).
Proof.
  repeat constructor; try (intros g w g' w' H; cbv beta delta [line5 line6 line7 line8 line11 line14
    line15 line18 line19 line22 line23 line26 line27 import_module] in H; inv_result; repeat (case_match; inv_result); done).
  intros g w r w' fd path buf Hb Hh. unfold export_body in Hb.
  repeat case_match; simplify_eq; try by eauto.
  all: match goal with H : write_all ?fd' ?ch ?w0 = _ |- _ =>
         destruct (write_all_handles fd' ch w0 fd path buf Hh) as [b' Hb']; rewrite H in Hb'; eauto end.
Qed.

(** The script's only [with] statement opens [iris_classifier.txt];
    no other statement changes a file. *)
Lemma script_writes_only idx : writes_only "iris_classifier.txt" (script measurements export_graphviz idx).
Proof.
  unfold writes_only, script. repeat apply Forall_cons_2; last apply Forall_nil_2.
  all: try (intros g w g' w' H; cbv beta delta [line5 line6 line7 line8 line11 line14
    line15 line18 line19 line22 line23 line26 line27 import_module] in H; inv_result;
    repeat (case_match; inv_result); done).
  split; [done|]. intros g w r w' fd path buf Hb Hh. unfold export_body in Hb.
  repeat case_match; simplify_eq; try by eauto.
  all: match goal with H : write_all ?fd' ?ch ?w0 = _ |- _ =>
         pose proof (write_all_keeps fd' ch w0 fd path buf Hh) as Hk; rewrite H in Hk; exact Hk end.
Qed.

(** ** The pipeline of the specification

    Import, load, partition, train, report the true labels, predict and report,
    export: the script written as one function of the initial world,
    returning the uncaught exception, if any, and the final world. *)
Definition export_step (m : Model) (fnames cnames : list string) (w : world) : result unit * world :=
  match open_w "iris_classifier.txt" w with
  | Err e => (Err e, w)
  | Ok (fd, w1) =>
      let '(chunks, raised) := export_graphviz m fnames cnames in
      let '(r, w2) := write_all fd chunks w1 in
      (r ≫= λ _, match raised with Some e => Err e | None => Ok () end, close_fd fd w2)
  end.

(** Lines 5-7: numpy, then scikit-learn (twice, for [sklearn.tree] and
    [sklearn.datasets]). *)
Definition imports (w : world) : result unit :=
  _ ← import_module "numpy" w; _ ← import_module "sklearn" w; import_module "sklearn" w.

Definition pipeline (idx : list Z) (w : world) : result unit * world :=
  let iris := load_iris measurements in
  match (_ ← imports w;
         trt ← np_delete (target iris) idx;
         trd ← delete_rows (data iris) idx;
         tet ← fancy_index (target iris) idx;
         ted ← take_rows (data iris) idx;
         m ← est_fit trd trt;
         Ok (tet, ted, m)) with
  | Err e => (Err e, w)
  | Ok (tet, ted, m) =>
      let w1 := py_print (array_str tet) w in
      match est_predict m ted with
      | Err e => (Err e, w1)
      | Ok p => export_step m (feature_names iris) (target_names iris) (py_print (array_str p) w1)
      end
  end.

Definition final_ctl (r : result unit) : ctl :=
  match r with Ok _ => Finished | Err e => Raised e end.

(** The run of the machine computes the pipeline. *)
Lemma run_script_pipeline idx w :
  ∃ g, run (script measurements export_graphviz idx) 57 (init w) =
       mk_config (final_ctl (pipeline idx w).1) g (pipeline idx w).2.
Proof.
  unfold init, pipeline, imports. cbn [target data load_iris feature_names target_names].
  destruct (import_module "numpy" w) as [[]|e] eqn:H0; cbn [mbind result_bind]; [exec_line|exec_err; eauto].
  destruct (import_module "sklearn" w) as [[]|e] eqn:H0'; cbn [mbind result_bind];
    [do 2 exec_line|exec_err; eauto].
  do 2 exec_line.
  destruct (np_delete iris_target idx) as [trt|e] eqn:H1; cbn [mbind result_bind];
    [exec_line|exec_err; eauto].
  destruct (delete_rows (mk_matrix 4 measurements) idx) as [trd|e] eqn:H2; cbn [mbind result_bind];
    [exec_line|exec_err; eauto].
  destruct (fancy_index iris_target idx) as [tet|e] eqn:H3; cbn [mbind result_bind];
    [exec_line|exec_err; eauto].
  destruct (take_rows (mk_matrix 4 measurements) idx) as [ted|e] eqn:H4; cbn [mbind result_bind];
    [exec_line|exec_err; eauto].
  exec_line.
  destruct (est_fit trd trt) as [m|e] eqn:H5; cbn [mbind result_bind]; [exec_line|exec_err; eauto].
  exec_line.
  destruct (est_predict m ted) as [p|e] eqn:H6; cbn [mbind result_bind]; [exec_line|exec_err; eauto].
  unfold export_step. erewrite run_with_open by reflexivity. cbn zeta.
  destruct (open_w _ _) as [[fd w3]|e]; [|eauto].
  erewrite run_with_body by reflexivity. unfold export_body.
  load_simpl. cbn [mbind result_bind as_module String.eqb Ascii.eqb Bool.eqb andb
    as_bunch as_fitted as_file feature_names target_names load_iris].
  destruct (export_graphviz m _ _) as [chunks raised].
  destruct (write_all fd chunks w3) as [[[]|e] w4].
  - destruct raised as [e|]; rewrite run_exit; cbn [mbind result_bind]; [eauto|].
    erewrite run_end by reflexivity. eauto.
  - rewrite run_exit. eauto.
Qed.

(** C3.  Refinement: every final configuration the machine reaches
    from the world [w] has the outcome (uncaught exception or none) and
    the world of the pipeline Load, Partition, Train, Report, Predict,
    Report, Export. *)
Theorem script_refines_pipeline idx w c :
  reachable (script measurements export_graphviz idx) w c → is_final c = true →
  pc c = final_ctl (pipeline idx w).1 ∧ wld c = (pipeline idx w).2.
Proof.
  intros Hr Hc. destruct (run_script_pipeline idx w) as [g Hrun].
  assert (Hf : is_final (run (script measurements export_graphviz idx) 57 (init w)) = true)
    by (rewrite Hrun; by destruct (pipeline idx w) as [[]]).
  rewrite <-(reachable_final_run _ _ _ 57 Hr Hc Hf), Hrun. done.
Qed.

(** C17.  The script writes no file but its output: in every
    configuration a run reaches from the world [w], also after an
    exception, every file other than [iris_classifier.txt] holds what it
    held in [w]. *)
Theorem script_writes_only_output idx w c p :
  reachable (script measurements export_graphviz idx) w c → p ≠ "iris_classifier.txt" →
  files (wld c) !! p = files w !! p.
Proof. intros Hr Hp. by apply (reachable_files_inv _ _ _ _ (script_writes_only idx) Hr). Qed.

(** C2.  The file is closed on every path: from a world with no open
    file object, no file object is open outside the [with] block,
    exactly one inside it, and none when the run has stopped, including
    when [export_graphviz] or a write raises. *)
Theorem script_closes_file idx w c :
  handles w = ∅ → reachable (script measurements export_graphviz idx) w c →
  handles_inv c ∧ (is_final c = true → handles (wld c) = ∅).
Proof.
  intros Hw Hr. pose proof (reachable_handles_inv _ _ _ (script_frames idx) Hw Hr) as Hinv.
  split; [done|]. destruct c as [[] ??]; done.
Qed.

(** C21.  A missing package stops the run at its import, before
    anything is printed, opened or written: at line 5 with
    [No module named 'numpy'] when numpy is missing, else at line 6 with
    [No module named 'sklearn'] when scikit-learn is. *)
Theorem missing_module_raises idx w :
  installed w "numpy" = false ∨ installed w "sklearn" = false →
  let c := run (script measurements export_graphviz idx) 57 (init w) in
  pc c = Raised (module_not_found (if installed w "numpy" then "sklearn" else "numpy")) ∧ wld c = w.
Proof.
  intros Hmiss. destruct (run_script_pipeline idx w) as [g ->].
  unfold pipeline, imports, import_module.
  destruct (installed w "numpy") eqn:Hn; [destruct Hmiss as [?|Hs]; [congruence|rewrite Hs]|]; done.
Qed.
End script_props.

(** ** The iris run *)

Lemma iris_delete_target :
  np_delete iris_target [0; 50; 100]%Z = Ok (replicate 49 0 ++ replicate 49 1 ++ replicate 49 2)%Z.
Proof. vm_compute. reflexivity. Qed.

Lemma iris_take_target : fancy_index iris_target [0; 50; 100]%Z = Ok [0; 1; 2]%Z.
Proof. vm_compute. reflexivity. Qed.

(** The hold-out split of the measurement rows: 147 training rows and 3
    test rows, all of width 4. *)
Lemma iris_split_rows meas :
  iris_shape meas →
  ∃ trd ted, delete_rows (mk_matrix 4 meas) [0; 50; 100]%Z = Ok trd ∧
             take_rows (mk_matrix 4 meas) [0; 50; 100]%Z = Ok ted ∧
             matrix_wf trd ∧ ncols trd = 4 ∧ length (rows trd) = 147 ∧
             ncols ted = 4 ∧ length (rows ted) = 3.
Proof.
  intros [Hlen Hw].
  assert (Hm : mapM (normalize_index (length meas)) [0; 50; 100]%Z = Ok [0; 50; 100])
    by (rewrite Hlen; reflexivity).
  destruct (np_delete meas [0; 50; 100]%Z) as [rs|e] eqn:Hd.
  2:{ exfalso. unfold np_delete in Hd. rewrite Hm in Hd. discriminate. }
  assert (Hrs := Hd). apply np_delete_spec in Hrs as (js & Hjs & ->). rewrite Hm in Hjs.
  injection Hjs as <-.
  eexists (mk_matrix 4 _), (mk_matrix 4 _). split_and!.
  - unfold delete_rows. cbn [rows]. rewrite Hd. reflexivity.
  - unfold take_rows, fancy_index. cbn [rows]. rewrite Hlen. reflexivity.
  - eapply (delete_rows_wf (mk_matrix 4 meas)); [exact Hw|]. unfold delete_rows. cbn [rows].
    rewrite Hd. reflexivity.
  - done.
  - unfold remove_positions. cbn [rows]. rewrite length_fmap, Hlen. reflexivity.
  - done.
  - done.
Qed.

Section iris_runs.
Context {Model : Type} `{!Estimator Model} `{!EstimatorLaws Model}.
Context (measurements : list (list Z)).
Context (export_graphviz : Model → list string → list string → list string * option exc).

Definition iris_script := script measurements export_graphviz [0; 50; 100]%Z.

(** The iris pipeline up to the export: the model is fitted on a
    rectangular matrix of width 4, [[0 1 2]] is printed, then three
    labels of the training set. *)
Lemma iris_pipeline w :
  imports w = Ok () → iris_shape measurements →
  ∃ m p, (∃ trd y, est_fit trd y = Ok m ∧ matrix_wf trd ∧ ncols trd = 4) ∧ length p = 3 ∧ Forall (λ l, l ∈ [0; 1; 2]%Z) p ∧
    pipeline measurements export_graphviz [0; 50; 100]%Z w =
    export_step export_graphviz m iris_feature_names iris_target_names
      (py_print (array_str p) (py_print "[0 1 2]" w)).
Proof.
  intros Himp Hshape. destruct (iris_split_rows _ Hshape) as (trd & ted & Hd & Ht & Hwf & Hc & Hl & Hc' & Hl').
  destruct (est_fit_ok trd (replicate 49 0 ++ replicate 49 1 ++ replicate 49 2)%Z) as [m Hm];
    [done|by rewrite Hl|lia|lia|].
  destruct (est_predict_ok _ _ _ ted Hm) as [p Hp]; [lia|lia|].
  destruct (est_predict_labels _ _ _ _ _ Hm Hp) as [Hlp Hin].
  exists m, p. split_and!.
  - eauto.
  - by rewrite Hlp, Hl'.
  - eapply Forall_impl; [exact Hin|]. intros l. rewrite !elem_of_app, !elem_of_replicate. set_solver.
  - unfold pipeline. cbn [target data load_iris feature_names target_names].
    rewrite Himp, iris_delete_target, Hd, iris_take_target, Ht. cbn [mbind result_bind]. rewrite Hm.
    cbn [mbind result_bind]. by rewrite Hp.
Qed.

(** C1.  The script on the iris data: it prints [[0 1 2]], then the
    three predicted labels, each one of [0], [1], [2]; it writes what
    [export_graphviz] produced for the fitted model to
    [iris_classifier.txt] and closes it; it finishes, or re-raises the
    exporter's exception after closing the file. *)
Theorem iris_run w :
  imports w = Ok () → iris_shape measurements → writable w "iris_classifier.txt" = true → handles w = ∅ →
  ∃ m p, let c := run iris_script 57 (init w) in
    pc c = final_ctl (match (export_graphviz m iris_feature_names iris_target_names).2 with
                      | Some e => Err e | None => Ok () end) ∧
    stdout (wld c) = stdout w ++ ["[0 1 2]"; array_str p] ∧
    length p = 3 ∧ Forall (λ l, l ∈ [0; 1; 2]%Z) p ∧
    files (wld c) = <["iris_classifier.txt" :=
                        String.concat "" (export_graphviz m iris_feature_names iris_target_names).1]>
                      (files w) ∧
    handles (wld c) = ∅.
Proof.
  intros Himp Hshape Hwr Hh. destruct (iris_pipeline w Himp Hshape) as (m & p & _ & Hlp & Hin & Hpipe).
  exists m, p. unfold iris_script.
  destruct (run_script_pipeline measurements export_graphviz [0; 50; 100]%Z w) as [g ->].
  rewrite Hpipe. unfold export_step, open_w. cbn [py_print writable]. rewrite Hwr.
  destruct (export_graphviz m _ _) as [chunks raised]. cbn [fst snd].
  rewrite (write_all_open _ _ _ "iris_classifier.txt" "") by (cbn [handles]; apply lookup_insert_eq).
  cbn [mbind result_bind]. unfold close_fd. cbn [handles]. rewrite lookup_insert_eq.
  cbn [pc wld stdout files handles snd py_print]. split_and!; [by destruct raised|by rewrite <-app_assoc|done|done| |].
  - by rewrite insert_insert_eq.
  - rewrite insert_insert_eq, Hh, delete_insert_eq. apply delete_empty.
Qed.

(** C11.  When [iris_classifier.txt] cannot be opened for writing, the
    run stops with the [OSError] of [open], after both lines are
    printed, with the file system unchanged and no file object open. *)
Theorem iris_run_not_writable w :
  imports w = Ok () → iris_shape measurements → writable w "iris_classifier.txt" = false →
  ∃ p, let c := run iris_script 57 (init w) in
    pc c = Raised (OSError "[Errno 13] Permission denied: 'iris_classifier.txt'") ∧
    stdout (wld c) = stdout w ++ ["[0 1 2]"; array_str p] ∧
    files (wld c) = files w ∧ handles (wld c) = handles w.
Proof.
  intros Himp Hshape Hwr. destruct (iris_pipeline w Himp Hshape) as (m & p & _ & _ & _ & Hpipe).
  exists p. unfold iris_script.
  destruct (run_script_pipeline measurements export_graphviz [0; 50; 100]%Z w) as [g ->].
  rewrite Hpipe. unfold export_step, open_w. cbn [py_print writable]. rewrite Hwr.
  cbn [pc wld stdout files handles fst snd final_ctl py_print]. split_and!; [done|by rewrite <-app_assoc|done|done].
Qed.

(** C9.  With an empty hold-out set, [train] is the whole data set and
    [test] is empty, but the run does not print an empty prediction: it
    prints [[]] for the test labels, then [predict] raises (scikit-learn
    rejects an input with no rows), before any file is opened. *)
Theorem empty_holdout_raises w :
  imports w = Ok () → iris_shape measurements →
  ∃ e, let c := run (script measurements export_graphviz []) 57 (init w) in
    pc c = Raised e ∧ stdout (wld c) = stdout w ++ ["[]"] ∧
    files (wld c) = files w ∧ handles (wld c) = handles w.
Proof.
  intros Himp [Hlen Hrows].
  assert (Hd : delete_rows (mk_matrix 4 measurements) [] = Ok (mk_matrix 4 measurements))
    by (unfold delete_rows; cbn [rows ncols]; by rewrite np_delete_nil).
  destruct (est_fit_ok (mk_matrix 4 measurements) iris_target) as [m Hm];
    [exact Hrows|cbn [rows]; by rewrite Hlen|cbn [rows]; lia|done|].
  destruct (est_predict_empty _ _ _ (mk_matrix 4 []) Hm) as [e He]; [done|].
  exists e. destruct (run_script_pipeline measurements export_graphviz [] w) as [g ->].
  unfold pipeline. cbn [target data load_iris].
  rewrite Himp, np_delete_nil, Hd. cbn [mbind result_bind fancy_index take_rows mapM].
  cbn [mbind result_bind mret result_ret rows ncols]. rewrite Hm. cbn [mbind result_bind].
  rewrite He. done.
Qed.

(** C13.  A hold-out index outside the 150 rows stops the run at line
    14 with numpy's [IndexError], before anything is printed or written. *)
Theorem holdout_out_of_range_raises w :
  imports w = Ok () →
  let c := run (script measurements export_graphviz [0; 50; 150]%Z) 57 (init w) in
  pc c = Raised (IndexError "index 150 is out of bounds for axis 0 with size 150") ∧ wld c = w.
Proof.
  intros Himp. destruct (run_script_pipeline measurements export_graphviz [0; 50; 150]%Z w) as [g ->].
  unfold pipeline. cbn [target data load_iris]. rewrite Himp.
  assert (np_delete iris_target [0; 50; 150]%Z =
          Err (IndexError "index 150 is out of bounds for axis 0 with size 150")) as -> by
    (vm_compute; reflexivity).
  done.
Qed.

End iris_runs.

End Script.
