(* ===== verification/Run.v ===== *)
(** * The script run with the CART classifier

    [Script] is proved against any [Estimator] satisfying [EstimatorLaws];
    [Cart] shows that [DecisionTreeClassifier()] with any feature order is
    one.  This file plugs the two together for concrete runs: a
    measurement table of the iris shape, the feature order [0, 1, 2, 3]
    at every node, an exporter that writes a two-line graph, and a world
    where the output file can be created.  The lemmas here apply the
    script's theorems to these inputs; the whole run is computed by
    [vm_compute], once with that exporter and once with the exporter of
    [Graphviz] (labels and fill colours included).  [iris_run_dot]
    composes every component: CART with any feature order, the exporter
    of [Graphviz] and the script machine, on any table of the iris
    shape. *)

From S2P Require Import Prelude NumpyIndex NumpyPrint Dataset Tree Graphviz Cart Script.
Import NumpyIndex NumpyPrint Dataset Tree Graphviz Cart Script.

Module Run.

Definition draw0 : nat → list nat := λ _, [0; 1; 2; 3].

#[local] Instance run_estimator : Estimator fitted := cart_estimator draw0.
#[local] Instance run_laws : EstimatorLaws fitted := cart_estimator_laws draw0.

(** One row per iris target, in tenths of a centimetre. *)
Definition toy_measurements : list (list Z) :=
  (λ y, [50 + 10 * y; 30; 15 + 30 * y; 2 + 10 * y]%Z) <$> iris_target.

Definition toy_export (m : fitted) (fnames cnames : list string) : list string * option exc :=
  (["digraph Tree {"; "}"], None).

Definition toy_export_fail (m : fitted) (fnames cnames : list string) : list string * option exc :=
  (["digraph Tree {"], Some (ValueError "export failed")).

(** numpy and scikit-learn are installed; every path is writable, or none is. *)
Definition world0 : world := mk_world [] ∅ ∅ 3 (λ _, true) (λ _, true).
Definition world_ro : world := mk_world [] ∅ ∅ 3 (λ _, false) (λ _, true).
(** scikit-learn is installed but numpy is not. *)
Definition world_nonp : world := mk_world [] ∅ ∅ 3 (λ _, true) (λ m, String.eqb m "sklearn").

Lemma toy_shape : iris_shape toy_measurements.
Proof. split; [reflexivity|]. unfold toy_measurements. apply Forall_fmap, Forall_forall. done. Qed.

Lemma iris_run_witness :
  imports world0 = Ok () ∧ iris_shape toy_measurements ∧ writable world0 "iris_classifier.txt" = true ∧
  handles world0 = ∅ ∧
  ∃ m p, let c := run (iris_script toy_measurements toy_export) 57 (init world0) in
    pc c = final_ctl (match (toy_export m iris_feature_names iris_target_names).2 with
                      | Some e => Err e | None => Ok () end) ∧
    stdout (wld c) = stdout world0 ++ ["[0 1 2]"; array_str p] ∧
    length p = 3 ∧ Forall (λ l, l ∈ [0; 1; 2]%Z) p ∧
    files (wld c) = <["iris_classifier.txt" :=
                        String.concat "" (toy_export m iris_feature_names iris_target_names).1]>
                      (files world0) ∧
    handles (wld c) = ∅.
Proof.
  split; [reflexivity|]. split; [exact toy_shape|]. split; [reflexivity|]. split; [reflexivity|].
  exact (iris_run toy_measurements toy_export world0 eq_refl toy_shape eq_refl eq_refl).
Defined.

Lemma iris_run_not_writable_witness :
  imports world_ro = Ok () ∧ iris_shape toy_measurements ∧ writable world_ro "iris_classifier.txt" = false ∧
  ∃ p, let c := run (iris_script toy_measurements toy_export) 57 (init world_ro) in
    pc c = Raised (OSError "[Errno 13] Permission denied: 'iris_classifier.txt'") ∧
    stdout (wld c) = stdout world_ro ++ ["[0 1 2]"; array_str p] ∧
    files (wld c) = files world_ro ∧ handles (wld c) = handles world_ro.
Proof.
  split; [reflexivity|]. split; [exact toy_shape|]. split; [reflexivity|].
  exact (iris_run_not_writable toy_measurements toy_export world_ro eq_refl toy_shape eq_refl).
Defined.

Lemma empty_holdout_raises_witness :
  imports world0 = Ok () ∧ iris_shape toy_measurements ∧
  ∃ e, let c := run (script toy_measurements toy_export []) 57 (init world0) in
    pc c = Raised e ∧ stdout (wld c) = stdout world0 ++ ["[]"] ∧
    files (wld c) = files world0 ∧ handles (wld c) = handles world0.
Proof.
  split; [reflexivity|]. split; [exact toy_shape|].
  exact (empty_holdout_raises toy_measurements toy_export world0 eq_refl toy_shape).
Defined.

Lemma script_refines_pipeline_witness :
  let prog := script toy_measurements toy_export_fail [0; 50; 100]%Z in
  let c := run prog 57 (init world0) in
  reachable prog world0 c ∧ is_final c = true ∧
  pc c = final_ctl (pipeline toy_measurements toy_export_fail [0; 50; 100]%Z world0).1 ∧
  wld c = (pipeline toy_measurements toy_export_fail [0; 50; 100]%Z world0).2.
Proof.
  intros prog c.
  assert (Hr : reachable prog world0 c) by apply run_reachable.
  assert (Hf : is_final c = true) by (vm_compute; reflexivity).
  split; [exact Hr|]. split; [exact Hf|].
  exact (script_refines_pipeline toy_measurements toy_export_fail [0; 50; 100]%Z world0 c Hr Hf).
Defined.

Lemma script_closes_file_witness :
  let prog := script toy_measurements toy_export_fail [0; 50; 100]%Z in
  let c := run prog 43 (init world0) in
  handles world0 = ∅ ∧ reachable prog world0 c ∧
  handles_inv c ∧ (is_final c = true → handles (wld c) = ∅).
Proof.
  intros prog c.
  assert (Hr : reachable prog world0 c) by apply run_reachable.
  split; [reflexivity|]. split; [exact Hr|].
  exact (script_closes_file toy_measurements toy_export_fail [0; 50; 100]%Z world0 c eq_refl Hr).
Defined.

Lemma holdout_out_of_range_raises_witness :
  imports world0 = Ok () ∧
  let c := run (script toy_measurements toy_export [0; 50; 150]%Z) 57 (init world0) in
  pc c = Raised (IndexError "index 150 is out of bounds for axis 0 with size 150") ∧ wld c = world0.
Proof.
  split; [reflexivity|].
  exact (holdout_out_of_range_raises toy_measurements toy_export world0 eq_refl).
Defined.

Lemma missing_module_raises_witness :
  (installed world_nonp "numpy" = false ∨ installed world_nonp "sklearn" = false) ∧
  let c := run (script toy_measurements toy_export [0; 50; 100]%Z) 57 (init world_nonp) in
  pc c = Raised (module_not_found (if installed world_nonp "numpy" then "sklearn" else "numpy")) ∧
  wld c = world_nonp.
Proof.
  assert (H : installed world_nonp "numpy" = false ∨ installed world_nonp "sklearn" = false)
    by (left; reflexivity).
  split; [exact H|].
  exact (missing_module_raises toy_measurements toy_export [0; 50; 100]%Z world_nonp H).
Defined.

(** A world holding another file, and a run whose exporter raises. *)
Definition world_notes : world :=
  mk_world [] {[ "notes.txt" := "keep" ]} ∅ 3 (λ _, true) (λ _, true).

Lemma script_writes_only_output_witness :
  let prog := script toy_measurements toy_export_fail [0; 50; 100]%Z in
  let c := run prog 57 (init world_notes) in
  reachable prog world_notes c ∧ "notes.txt" ≠ "iris_classifier.txt" ∧
  files (wld c) !! "notes.txt" = files world_notes !! "notes.txt".
Proof.
  intros prog c.
  assert (Hr : reachable prog world_notes c) by apply run_reachable.
  assert (Hp : "notes.txt" ≠ "iris_classifier.txt") by discriminate.
  split; [exact Hr|]. split; [exact Hp|].
  exact (script_writes_only_output toy_measurements toy_export_fail [0; 50; 100]%Z world_notes c
           "notes.txt" Hr Hp).
Defined.

(** The complete run on the toy table: both printed lines are [[0 1 2]]
    and the exported text is in the file, which is closed. *)
Example toy_run :
  let c := run (iris_script toy_measurements toy_export) 57 (init world0) in
  pc c = Finished ∧ stdout (wld c) = ["[0 1 2]"; "[0 1 2]"] ∧
  files (wld c) !! "iris_classifier.txt" = Some "digraph Tree {}" ∧ handles (wld c) = ∅.
Proof. vm_compute. split_and!; reflexivity. Qed.

(** [tree.export_graphviz] with the labels and fill colours of [Graphviz]. *)
Definition dot_export (m : fitted) (fnames cnames : list string) : list string * option exc :=
  export_graphviz node_to_str get_fill_color m fnames cnames.

(** C28.  The whole script with [DecisionTreeClassifier()] (any feature
    order drawn by the random state) and [export_graphviz] as modelled,
    on any measurement table of the iris shape, with numpy and
    scikit-learn installed and [iris_classifier.txt] writable: the run
    finishes without an exception, prints [[0 1 2]] and the predicted
    labels, and leaves [iris_classifier.txt] closed, holding a document
    that starts with the graph header [digraph Tree {] and ends with
    [}]. *)
Theorem iris_run_dot draw meas w :
  imports w = Ok () → iris_shape meas → writable w "iris_classifier.txt" = true → handles w = ∅ →
  let c := run (@iris_script fitted (cart_estimator draw) meas dot_export) 57 (init w) in
  pc c = Finished ∧ handles (wld c) = ∅ ∧
  ∃ p txt, stdout (wld c) = stdout w ++ ["[0 1 2]"; array_str p] ∧
    files (wld c) = <["iris_classifier.txt" := txt]> (files w) ∧
    String.prefix ("digraph Tree {" +:+ nl) txt = true ∧ ends_with "}" txt = true.
Proof.
  intros Himp Hshape Hwr Hh.
  destruct (@iris_pipeline fitted (cart_estimator draw) (cart_estimator_laws draw) meas dot_export
              w Himp Hshape) as (m & p & (trd & y & Hfit & _ & Hc) & _ & _ & Hpipe).
  cbn [est_fit cart_estimator] in Hfit. apply fit_Ok in Hfit as (_ & _ & _ & _ & ->).
  destruct (@run_script_pipeline fitted (cart_estimator draw) meas dot_export [0; 50; 100]%Z w)
    as [g Hrun].
  unfold iris_script. rewrite Hrun, Hpipe.
  unfold export_step, open_w. cbn [py_print writable]. rewrite Hwr.
  unfold dot_export, export_graphviz. cbn [n_features_in_]. rewrite Hc, bool_decide_eq_true_2 by done.
  rewrite (write_all_open _ _ _ "iris_classifier.txt" "") by (cbn [handles]; apply lookup_insert_eq).
  cbn [mbind result_bind]. unfold close_fd. cbn [handles]. rewrite lookup_insert_eq.
  cbn [pc wld stdout files handles fst snd py_print final_ctl]. split_and!; [done| |].
  - rewrite insert_insert_eq, Hh, delete_insert_eq. apply delete_empty.
  - eexists p, _. split_and!; [by rewrite <-app_assoc|by rewrite insert_insert_eq| |].
    + match goal with |- context [("" +:+ ?x)] => change ("" +:+ x) with x end.
      unfold head. rewrite <-app_comm_cons, string_concat_cons. apply string_prefix_app.
    + match goal with |- context [("" +:+ ?x)] => change ("" +:+ x) with x end.
      rewrite app_assoc, string_concat_app.
      rewrite (ends_with_app "}" _ (String.concat "" tail)) by (unfold tail; simpl; lia). reflexivity.
Qed.

Lemma iris_run_dot_witness :
  imports world0 = Ok () ∧ iris_shape toy_measurements ∧
  writable world0 "iris_classifier.txt" = true ∧ handles world0 = ∅ ∧
  let c := run (@iris_script fitted (cart_estimator draw0) toy_measurements dot_export) 57 (init world0) in
  pc c = Finished ∧ handles (wld c) = ∅ ∧
  ∃ p txt, stdout (wld c) = stdout world0 ++ ["[0 1 2]"; array_str p] ∧
    files (wld c) = <["iris_classifier.txt" := txt]> (files world0) ∧
    String.prefix ("digraph Tree {" +:+ nl) txt = true ∧ ends_with "}" txt = true.
Proof.
  split; [reflexivity|]. split; [exact toy_shape|]. split; [reflexivity|]. split; [reflexivity|].
  exact (iris_run_dot draw0 toy_measurements world0 eq_refl toy_shape eq_refl eq_refl).
Defined.

(** [s.count(pat)] for a non-empty [pat]: non-overlapping occurrences. *)
Fixpoint count_from (pat : string) (skip : nat) (s : string) : nat :=
  match s with
  | EmptyString => 0
  | String _ s' =>
      match skip with
      | S k => count_from pat k s'
      | 0 => if String.prefix pat s then S (count_from pat (String.length pat - 1) s')
             else count_from pat 0 s'
      end
  end.

(** The run with the exporter of [Graphviz]: the file starts with the
    graph header and holds five [class = ] lines, one per node, for a
    tree of three leaves. *)
Example toy_run_dot :
  let c := run (iris_script toy_measurements dot_export) 57 (init world0) in
  pc c = Finished ∧ stdout (wld c) = ["[0 1 2]"; "[0 1 2]"] ∧ handles (wld c) = ∅ ∧
  ∃ txt, files (wld c) !! "iris_classifier.txt" = Some txt ∧
    String.prefix ("digraph Tree {" +:+ nl) txt = true ∧
    count_from "class = " 0 txt = 5 ∧
    count_from "fillcolor=" 0 txt = 5 ∧
    count_from " -> " 0 txt = 4.
Proof. vm_compute. split_and!; try reflexivity. eexists. split_and!; reflexivity. Qed.

End Run.
